(** * LintAI: the assertion evaluation and scoring engine of [dist/index.js]

    A shallow embedding of the function [run] of [src/dist/index.js]
    (lines 12 and 26-71), the properties its specification states, and
    further properties of the code itself.

    The program is JavaScript, so the embedding keeps JavaScript's data:
    - a configuration is a parsed JSON document, a [value];
    - a Number is an IEEE 754 binary64, here Rocq's primitive [float],
      whose [+], [*], [/], [<?] and [<=?] are the binary64 operations;
    - a String is a [string]; each character stands for one code unit,
      and [String.length] is the [length] property;
    - [||], [?.], [===], [+], [>] and [>=] follow ECMAScript (ToBoolean,
      ToPrimitive, ToNumber, ToString), written out below.

    Three host functions are not written out: Number-to-String
    conversion, String-to-Number conversion and the regular expression
    engine.  They are the fields of the class [Host]; every definition
    and theorem is parametric in them. *)

From Stdlib Require Import ZArith List String Ascii Bool Lia Floats.
From Stdlib Require Import DecimalString Permutation.
Import ListNotations.

Set Warnings "-inexact-float,-register-all".

Local Open Scope list_scope.
Local Open Scope string_scope.

(** ** JSON values *)

Module JS.

(** What [JSON.parse] returns, together with [undefined], the value of
    a property that is not there.  An object is the list of its own
    properties; [JSON.parse] leaves one entry per key. *)
Inductive value : Type :=
| VUndefined
| VNull
| VBool (b : bool)
| VNum (x : float)
| VStr (s : string)
| VArr (items : list value)
| VObj (fields : list (string * value)).

Inductive error : Type :=
| TypeError
| SyntaxError.

(** A completion: the value of an expression or statement, or the
    exception it throws. *)
Inductive completion (A : Type) : Type :=
| Normal (a : A)
| Throw (e : error).

Arguments Normal {A} a.
Arguments Throw {A} e.

Definition bind {A B : Type} (c : completion A) (k : A -> completion B)
  : completion B :=
  match c with
  | Normal a => k a
  | Throw e => Throw e
  end.

Notation "'let*' x ':=' c 'in' k" := (bind c (fun x => k))
  (at level 10, x name, c at level 100, k at level 200).

(** The double quote character, as a one-character string. *)
Definition dquote : string := String "034"%char EmptyString.

(** ToBoolean. *)
Definition truthy (v : value) : bool :=
  match v with
  | VUndefined | VNull => false
  | VBool b => b
  | VNum x => negb (PrimFloat.is_zero x || PrimFloat.is_nan x)
  | VStr s => negb (String.eqb s "")
  | VArr _ | VObj _ => true
  end.

(** [a || b]. *)
Definition js_or (a b : value) : value := if truthy a then a else b.

Fixpoint lookup (k : string) (fields : list (string * value)) : value :=
  match fields with
  | [] => VUndefined
  | (k', v) :: rest => if String.eqb k k' then v else lookup k rest
  end.

(** [v.k] for the property names this program reads ([assertions],
    [name], [type], [params], [weight], [max_chars], [text], [pattern]).
    None of them is a property of a string, an array, a number or a
    boolean, so there the result is [undefined]; on [null] and
    [undefined] the access throws. *)
Definition prop (v : value) (k : string) : completion value :=
  match v with
  | VUndefined | VNull => Throw TypeError
  | VObj fields => Normal (lookup k fields)
  | _ => Normal VUndefined
  end.

(** [v?.k]. *)
Definition opt_prop (v : value) (k : string) : value :=
  match v with
  | VObj fields => lookup k fields
  | _ => VUndefined
  end.

(** [v === 'lit']. *)
Definition strict_eq_str (v : value) (lit : string) : bool :=
  match v with
  | VStr s => String.eqb s lit
  | _ => false
  end.

(** ** Strings *)

Fixpoint startsWith (s t : string) : bool :=
  match t, s with
  | EmptyString, _ => true
  | String c t', String d s' => Ascii.eqb c d && startsWith s' t'
  | String _ _, EmptyString => false
  end.

(** [s.includes(t)]. *)
Fixpoint includes (s t : string) : bool :=
  startsWith s t ||
  match s with
  | EmptyString => false
  | String _ s' => includes s' t
  end.

(** The decimal digits of a length.  A length is an integer below
    2^53, and Number-to-String prints such a number in plain decimal. *)
Definition decimal (n : nat) : string :=
  NilZero.string_of_uint (Nat.to_uint n).

(** ** Numbers *)

(** The binary64 nearest to an integer. *)
Definition Z2F (z : Z) : float :=
  SF2Prim (binary_normalize prec emax z 0 false).

(** The mantissa of an integer of at most 53 bits, once aligned on 53
    bits: the mantissa of [Z2F] on that integer. *)
Definition aligned (p : positive) : positive :=
  match (53 - Zpos (digits2_pos p))%Z with
  | Zpos k => Pos.iter xO p k
  | _ => p
  end.

(** ** Correct rounding, in integers

    The quantities in which the rounding of a quotient to 53 bits is
    stated: they serve the proofs about the percentage of line 70. *)
Section Exact.
Local Open Scope Z_scope.

(** The position of [N / D] between [m] and [m + 1]. *)
Definition locate (N D m : Z) : location :=
  if N =? m * D then loc_Exact
  else loc_Inexact (2 * (N - m * D) ?= D).

(** [N / D] rounded to the nearest integer, a tie to the even one. *)
Definition rne (N D : Z) : Z :=
  round_nearest_even (N / D) (locate N D (N / D)).

(** A record of the shift-right procedure that stands for [N / D]:
    its mantissa is the integer part and its two bits the position. *)
Definition stands_for (N D : Z) (mrs : shr_record) : Prop :=
  0 <= shr_m mrs /\
  shr_m mrs * D <= N < (shr_m mrs + 1) * D /\
  loc_of_shr_record mrs = locate N D (shr_m mrs).

(** The number [n * 2^e] for a mantissa [n] between [2^52] and [2^53],
    in canonical form: [2^53] is written [2^52] with the exponent
    [e + 1]. *)
Definition pack (n e : Z) : spec_float :=
  if n <? 2 ^ 53 then S754_finite false (Z.to_pos n) e
  else S754_finite false (Z.to_pos (2 ^ 52)) (e + 1).

(** [f] is the rounding to 53 bits of [N / D * 2^eb]: the quotient has
    [53 + j] bits and [f] is [N / (D * 2^j)] rounded to the nearest
    integer, with the exponent [eb + j]. *)
Definition rounded (N D eb : Z) (f : spec_float) : Prop :=
  exists j : Z,
    0 <= j /\
    2 ^ (52 + j) * D <= N < 2 ^ (53 + j) * D /\
    f = pack (rne N (D * 2 ^ j)) (eb + j).

(** The representation of the positive integer [p], below [2^53], as a
    Number. *)
Definition of_positive (p : positive) : spec_float :=
  S754_finite false (aligned p) (Zpos (digits2_pos p) - 53).

End Exact.

(** [s.length] as a Number. *)
Definition length_of (s : string) : float := Z2F (Z.of_nat (String.length s)).

(** [Math.round]: the integer nearest to [x], a tie going to the one
    towards plus infinity; [-0] for [-0.5 <= x < 0]; NaN, the
    infinities, the zeros and the integers are returned as they are.
    A finite [x] is [+-m * 2^e]; for [e >= 0] it is an integer, and
    for [e = -k] the result is [floor ((2 * (+-m) + 2^k) / 2^(k+1))]. *)
Definition Math_round (x : float) : float :=
  match Prim2SF x with
  | S754_finite s m (Zneg k) =>
      let v := if s then Zneg m else Zpos m in
      let n := Z.div (2 * v + 2 ^ Zpos k) (2 ^ (Zpos k + 1)) in
      if (n =? 0)%Z && s then PrimFloat.neg_zero else Z2F n
  | _ => x
  end.

(** Propositions on the representation [Prim2SF x] of a Number: a zero
    or an infinity with its sign, NaN, or a sign, a mantissa [m] and an
    exponent [e] for the finite non-zero number [+-m * 2^e]. *)
Definition signed (s : bool) (x : spec_float) : Prop :=
  (exists m e, x = S754_finite s m e) \/ x = S754_infinity s.

Definition is_neg_zero (x : float) : Prop := Prim2SF x = S754_zero true.

Definition finite_nonzero (x : float) : Prop :=
  exists s m e, Prim2SF x = S754_finite s m e.

(** ** The host *)

Class Host : Type := {
  (** Number::toString *)
  NumberToString : float -> string;
  (** StringToNumber, the value of a string used as a number *)
  StringToNumber : string -> float;
  (** [new RegExp(pattern, 'i').test(s)]; [None] when [pattern] is not
      the source of a regular expression (the constructor throws a
      SyntaxError) *)
  RegExp_test_i : string -> string -> option bool
}.

(** *** The literal fragment of the regular expressions

    A pattern of letters, digits and spaces has no syntax character: it
    matches itself, and with the flag [i] a letter matches both of its
    cases.  A character above 127 never matches an ASCII one. *)
Definition upper_char (c : ascii) : ascii :=
  let n := nat_of_ascii c in
  if (97 <=? n)%nat && (n <=? 122)%nat then ascii_of_nat (n - 32) else c.

Fixpoint upper (s : string) : string :=
  match s with
  | EmptyString => EmptyString
  | String c s' => String (upper_char c) (upper s')
  end.

Definition plain_char (c : ascii) : bool :=
  let n := nat_of_ascii c in
  ((97 <=? n)%nat && (n <=? 122)%nat) || ((65 <=? n)%nat && (n <=? 90)%nat)
  || ((48 <=? n)%nat && (n <=? 57)%nat) || (n =? 32)%nat.

Fixpoint plain (s : string) : bool :=
  match s with
  | EmptyString => true
  | String c s' => plain_char c && plain s'
  end.

(** What every host does on the literal fragment. *)
Definition literal_law (H : Host) : Prop :=
  forall p s : string,
    plain p = true ->
    RegExp_test_i p s = Some (includes (upper s) (upper p)).

(** Whether an object has an own property named [k]. *)
Definition has_key (k : string) (fields : list (string * value)) : bool :=
  existsb (fun kv => String.eqb k (fst kv)) fields.

(** A value that is not an object: arrays are objects. *)
Definition primitive (v : value) : bool :=
  match v with
  | VArr _ | VObj _ => false
  | _ => true
  end.

Section Conversions.
Context {H : Host}.

(** ToString.  An object goes through ToPrimitive.  [JSON.parse] gives
    an object no function for a property, so an own property
    [toString] hides [Object.prototype.toString] by a value that cannot
    be called, [valueOf] returns no primitive, and the conversion
    throws a TypeError; without an own [toString] the string is
    [[object Object]].  An array prints its elements separated by
    commas, [null] and [undefined] elements as nothing and the others
    by ToString, which may throw. *)
Fixpoint ToString (v : value) : completion string :=
  match v with
  | VUndefined => Normal "undefined"
  | VNull => Normal "null"
  | VBool true => Normal "true"
  | VBool false => Normal "false"
  | VNum x => Normal (NumberToString x)
  | VStr s => Normal s
  | VArr items =>
      (fix join (l : list value) : completion string :=
         match l with
         | [] => Normal ""
         | x :: rest =>
             let* elt := match x with
                         | VUndefined | VNull => Normal ""
                         | _ => ToString x
                         end in
             match rest with
             | [] => Normal elt
             | _ :: _ =>
                 let* others := join rest in
                 Normal (elt ++ "," ++ others)
             end
         end) items
  | VObj fields =>
      if has_key "toString" fields then Throw TypeError
      else Normal "[object Object]"
  end.

(** ToPrimitive: an array or an object becomes its string, whatever
    the hint, since [valueOf] returns the object itself. *)
Definition ToPrimitive (v : value) : completion value :=
  match v with
  | VArr _ | VObj _ => let* s := ToString v in Normal (VStr s)
  | _ => Normal v
  end.

(** ToNumber.  The last case is never reached: ToPrimitive returns no
    object. *)
Definition ToNumber (v : value) : completion float :=
  let* p := ToPrimitive v in
  match p with
  | VUndefined => Normal PrimFloat.nan
  | VNull => Normal 0%float
  | VBool true => Normal 1%float
  | VBool false => Normal 0%float
  | VNum x => Normal x
  | VStr s => Normal (StringToNumber s)
  | VArr _ | VObj _ => Throw TypeError
  end.

(** Whether a primitive is a String. *)
Definition stringish (p : value) : bool :=
  match p with
  | VStr _ => true
  | _ => false
  end.

(** [a + b]: both sides go through ToPrimitive, the left one first;
    concatenation when either primitive is a String, the binary64 sum
    otherwise. *)
Definition js_add (a b : value) : completion value :=
  let* pa := ToPrimitive a in
  let* pb := ToPrimitive b in
  if stringish pa || stringish pb
  then
    let* sa := ToString pa in
    let* sb := ToString pb in
    Normal (VStr (sa ++ sb))
  else
    let* x := ToNumber pa in
    let* y := ToNumber pb in
    Normal (VNum (x + y)%float).

(** [x > v] for a Number [x]. *)
Definition num_gt (x : float) (v : value) : completion bool :=
  let* y := ToNumber v in
  Normal (y <? x)%float.

(** [v > x] for a Number [x]. *)
Definition gt_num (v : value) (x : float) : completion bool :=
  let* y := ToNumber v in
  Normal (x <? y)%float.

(** A value that ToPrimitive converts. *)
Definition converts (v : value) : Prop :=
  exists p : value, ToPrimitive v = Normal p.

(** The Number and the sum of values that convert; [NaN] and
    [undefined] stand for the ones that do not. *)
Definition number_of (v : value) : float :=
  match ToNumber v with
  | Normal x => x
  | Throw _ => PrimFloat.nan
  end.

Definition added (a b : value) : value :=
  match js_add a b with
  | Normal c => c
  | Throw _ => VUndefined
  end.

End Conversions.

End JS.

(** ** The engine: [run], lines 12 and 26-71 *)

Module LintAI.
Import JS.

(** The object pushed onto [results] (lines 57-62). *)
Module AssertionResult.
Record t : Type := {
  name : value;
  passed : bool;
  message : string;
  weight : value
}.
End AssertionResult.

(** The local variables of [run] declared at lines 26-30.  [score] is a
    [value]: it starts as the Number 0, and [score += weight] makes it
    whatever [+] gives, a String when a weight is one. *)
Record Vars : Type := {
  score : value;
  passed : bool;
  failedCount : nat;
  warningsCount : nat;
  results : list AssertionResult.t
}.

Definition initial : Vars :=
  {| score := VNum 0; passed := false; failedCount := 0;
     warningsCount := 0; results := [] |}.

Section Engine.
Context {H : Host}.

(** Line 35: [assertion.weight || 1.0]. *)
Definition weight_of (assertion : value) : completion value :=
  let* w := prop assertion "weight" in
  Normal (js_or w (VNum 1)).

(** Lines 36-55, "Simple checks": the values of [assertionPassed] and
    [message] after the [if] chain.  [assertion.params] is read once
    here; the source reads it in each branch, and reading it throws
    nothing once [assertion.type] has been read.  [a && b] evaluates
    [b] only when [a] holds.  [output.includes(required)] and
    [new RegExp(pattern, 'i')] convert their argument to a String
    first. *)
Definition simple_checks (output : string) (assertion : value)
  : completion (bool * string) :=
  let* type := prop assertion "type" in
  let* params := prop assertion "params" in
  let* too_long :=
    if strict_eq_str type "MAX_LENGTH"
    then num_gt (length_of output)
                (js_or (opt_prop params "max_chars") (VNum 1000))
    else Normal false in
  if too_long then
    Normal (false,
            "Output too long: " ++ decimal (String.length output) ++ " chars")
  else if strict_eq_str type "CONTAINS_TEXT" then
    let required := opt_prop params "text" in
    let* missing :=
      if truthy required
      then let* text := ToString required in
           Normal (negb (includes output text))
      else Normal false in
    if missing then
      let* text := ToString required in
      Normal (false, "Missing required text: " ++ dquote ++ text ++ dquote)
    else Normal (true, "Passed")
  else if strict_eq_str type "NO_PATTERN" then
    let pattern := opt_prop params "pattern" in
    let* found :=
      if truthy pattern
      then let* source := ToString pattern in
           match RegExp_test_i source output with
           | None => Throw SyntaxError
           | Some found => Normal found
           end
      else Normal false in
    if found then Normal (false, "Output contains forbidden pattern")
    else Normal (true, "Passed")
  else Normal (true, "Passed").

(** Lines 35-65: one iteration of the loop. *)
Definition loop_body (output : string) (st : Vars) (assertion : value)
  : completion Vars :=
  let* weight := weight_of assertion in
  let* checked := simple_checks output assertion in
  let assertionPassed := fst checked in
  let message := snd checked in
  let* name := prop assertion "name" in
  let* score' :=
    js_add (score st) (if assertionPassed then weight else VNum 0) in
  Normal {|
    results := (results st ++
      [ {| AssertionResult.name := name;
           AssertionResult.passed := assertionPassed;
           AssertionResult.message := message;
           AssertionResult.weight := weight |} ])%list;
    failedCount :=
      if assertionPassed then failedCount st else S (failedCount st);
    score := score';
    passed := passed st;
    warningsCount := warningsCount st
  |}.

(** Lines 34-66: the [for ... of] loop. *)
Fixpoint for_of (output : string) (st : Vars) (assertions : list value)
  : completion Vars :=
  match assertions with
  | [] => Normal st
  | assertion :: rest =>
      let* st' := loop_body output st assertion in
      for_of output st' rest
  end.

(** Line 69: [assertions.reduce((sum, a) => sum + (a.weight || 1.0), 0)],
    with the accumulator [sum] as an argument. *)
Fixpoint reduce (sum : value) (assertions : list value) : completion value :=
  match assertions with
  | [] => Normal sum
  | a :: rest =>
      let* weight := weight_of a in
      let* sum' := js_add sum weight in
      reduce sum' rest
  end.

(** Line 33: [config.assertions || []], as the list the loop walks.
    Anything truthy that is not an array ends in a TypeError: a number,
    [true] or an object is not iterable, and a string is iterated (its
    characters pass every check) but has no [reduce]. *)
Definition assertions_of (config : value) : completion (list value) :=
  let* a := prop config "assertions" in
  match js_or a (VArr []) with
  | VArr items => Normal items
  | _ => Throw TypeError
  end.

(** Lines 68-71, "Calculate percentage", from the state the loop left. *)
Definition calculate (st : Vars) (totalWeight : value) (threshold : float)
  : completion Vars :=
  let* positive := gt_num totalWeight 0 in
  let* score' :=
    if positive
    then let* earned := ToNumber (score st) in
         let* total := ToNumber totalWeight in
         Normal (Math_round ((earned / total) * 100)%float)
    else Normal 0%float in
  Normal {| score := VNum score';
            passed := (threshold <=? score')%float
                      && (failedCount st =? 0)%nat;
            failedCount := failedCount st;
            warningsCount := warningsCount st;
            results := results st |}.

(** Lines 26-71: the validation of [output] against a parsed [config]. *)
Definition validation (output : string) (config : value) (threshold : float)
  : completion Vars :=
  let* assertions := assertions_of config in
  let* st := for_of output initial assertions in
  let* totalWeight := reduce (VNum 0) assertions in
  calculate st totalWeight threshold.

(** Line 12: [parseFloat(...) || 70], on the result of [parseFloat]. *)
Definition threshold_of (parsed : float) : float :=
  if truthy (VNum parsed) then parsed else 70%float.

(** [run], from the parsed inputs to the variables the outputs are set
    from (lines 74-77); a [Throw] is what the [catch] at line 92 hands
    to [core.setFailed]. *)
Definition run (output : string) (config : value) (pass_threshold : float)
  : completion Vars :=
  validation output config (threshold_of pass_threshold).

(** Whether [core.setFailed] is called (lines 90 and 93). *)
Definition setFailed (c : completion Vars) : bool :=
  match c with
  | Normal st => negb (passed st)
  | Throw _ => true
  end.

(** *** The loop, one result at a time

    [loop_body] computes the object it pushes and then updates three
    variables with it; [evaluate] is the first half and [push] the
    second. *)
Definition evaluate (output : string) (assertion : value)
  : completion AssertionResult.t :=
  let* weight := weight_of assertion in
  let* checked := simple_checks output assertion in
  let* name := prop assertion "name" in
  Normal {| AssertionResult.name := name;
            AssertionResult.passed := fst checked;
            AssertionResult.message := snd checked;
            AssertionResult.weight := weight |}.

Definition push (st : Vars) (r : AssertionResult.t) : completion Vars :=
  let* score' :=
    js_add (score st)
      (if AssertionResult.passed r then AssertionResult.weight r
       else VNum 0) in
  Normal {| results := (results st ++ [r])%list;
            failedCount :=
              if AssertionResult.passed r then failedCount st
              else S (failedCount st);
            score := score';
            passed := passed st;
            warningsCount := warningsCount st |}.

Fixpoint evaluate_all (output : string) (assertions : list value)
  : completion (list AssertionResult.t) :=
  match assertions with
  | [] => Normal []
  | a :: rest =>
      let* r := evaluate output a in
      let* rs := evaluate_all output rest in
      Normal (r :: rs)
  end.

(** An iteration of the loop that completes, and one that throws [e]:
    the evaluation throws, or the assertion passed and its weight does
    not convert at line 65. *)
Definition iterates (output : string) (assertion : value) : Prop :=
  exists r : AssertionResult.t,
    evaluate output assertion = Normal r /\
    (AssertionResult.passed r = true -> converts (AssertionResult.weight r)).

Definition iteration_error (output : string) (assertion : value) (e : error)
  : Prop :=
  evaluate output assertion = Throw e \/
  exists r : AssertionResult.t,
    evaluate output assertion = Normal r /\
    AssertionResult.passed r = true /\
    ToPrimitive (AssertionResult.weight r) = Throw e.

(** What [push] and [calculate] give when every sum converts. *)
Definition pushed (st : Vars) (r : AssertionResult.t) : Vars :=
  {| results := (results st ++ [r])%list;
     failedCount :=
       if AssertionResult.passed r then failedCount st
       else S (failedCount st);
     score := added (score st)
                (if AssertionResult.passed r then AssertionResult.weight r
                 else VNum 0);
     passed := passed st;
     warningsCount := warningsCount st |}.

Definition calculated (st : Vars) (totalWeight : value) (threshold : float)
  : Vars :=
  let score' :=
    if (0 <? number_of totalWeight)%float
    then Math_round
           ((number_of (score st) / number_of totalWeight) * 100)%float
    else 0%float in
  {| score := VNum score';
     passed := (threshold <=? score')%float && (failedCount st =? 0)%nat;
     failedCount := failedCount st;
     warningsCount := warningsCount st;
     results := results st |}.

(** *** The quantities of the specification, section 4.2 *)

(** The sum of a list of Numbers: from 0, left to right. *)
Definition sum (ws : list float) : float :=
  fold_left PrimFloat.add ws 0%float.

(** Step 1: [earnedWeight = sum(weight for r in results if r.passed)]. *)
Definition earnedWeight (rs : list AssertionResult.t) : float :=
  sum (map (fun r => number_of (AssertionResult.weight r))
           (filter AssertionResult.passed rs)).

(** The weight of one specification, defaulted as at line 35. *)
Definition spec_weight (assertion : value) : float :=
  match weight_of assertion with
  | Normal w => number_of w
  | Throw _ => PrimFloat.nan
  end.

(** Step 2: [totalWeight = sum(spec.weight for spec in assertions)]. *)
Definition totalWeight (assertions : list value) : float :=
  sum (map spec_weight assertions).

(** Step 4: the results that did not pass. *)
Definition failed (rs : list AssertionResult.t) : list AssertionResult.t :=
  filter (fun r => negb (AssertionResult.passed r)) rs.

(** A weight that is a Number once defaulted: a Number, or a value
    that [||] replaces by 1. *)
Definition numeric_weight (assertion : value) : Prop :=
  exists x : float, weight_of assertion = Normal (VNum x).

(** The sum of positive integers, exact. *)
Definition total_of (ns : list positive) : Z :=
  fold_right (fun n t => (Zpos n + t)%Z) 0%Z ns.

(** Line 70 on integer sums: the score for [E] earned out of [T]. *)
Definition percent (E T : Z) : float :=
  if (0 <? Z2F T)%float
  then Math_round (Z2F E / Z2F T * 100)%float
  else 0%float.

(** The integer weights of the results that passed, summed: [rs] are
    the results and [ns] their weights, in the same order. *)
Definition earned_of (rs : list AssertionResult.t) (ns : list positive) : Z :=
  total_of
    (map snd (filter (fun p => AssertionResult.passed (fst p))
                (combine rs ns))).

(** A weight that is the positive integer [n] once defaulted. *)
Definition integer_weight (assertion : value) (n : positive) : Prop :=
  weight_of assertion = Normal (VNum (Z2F (Zpos n))).

(** *** The score of the specification, in exact arithmetic

    Section 4.2, step 3, on integers: [100 * E / T] rounded to the
    nearest integer, a half going up, and 0 when the total is 0. *)
Definition half_up (E T : Z) : Z := ((200 * E + T) / (2 * T))%Z.

Definition spec_score (E T : Z) : Z :=
  if (0 <? T)%Z then half_up E T else 0%Z.

(** The weight the configuration gives an assertion, as section 3
    reads it: the positive integer [n] written there, or 1 when the
    weight is omitted. *)
Definition configured_weight (assertion : value) (n : positive) : Prop :=
  prop assertion "weight" = Normal (VNum (Z2F (Zpos n))) \/
  (prop assertion "weight" = Normal VUndefined /\ n = 1%positive).

(** The halves [k + 1/2] that line 70 rounds down in binary64:
    [k / 100 + 1 / 200] times 100 falls just below the half. *)
Definition low_ties : list Z := [14; 28; 56; 57]%Z.

(** Whether [100 * E / T] is one of these halves. *)
Definition low_tie (E T : Z) : bool :=
  ((200 * E =? (2 * (100 * E / T) + 1) * T)
   && existsb (Z.eqb (100 * E / T)) low_ties)%Z.

(** An assertion that passes against [output]. *)
Definition passes (output : string) (assertion : value) : Prop :=
  exists message : string,
    simple_checks output assertion = Normal (true, message).

End Engine.

End LintAI.

(** * Sample inputs *)

Module Samples.
Import JS LintAI.

(** A host to run the engine on the samples: its regular expressions
    are the literal fragment and nothing else.  No sample converts a
    Number to a String or a String to a Number, so the values of the
    first two fields do not matter. *)
Definition test_host : Host :=
  {| NumberToString := fun _ => "NaN";
     StringToNumber := fun _ => PrimFloat.nan;
     RegExp_test_i := fun p s =>
       if plain p then Some (includes (upper s) (upper p)) else None |}.

(** An assertion object [{name, type, params, weight}]. *)
Definition assertion (name type : string) (params : list (string * value))
           (weight : value) : value :=
  VObj [("name", VStr name); ("type", VStr type); ("params", VObj params);
        ("weight", weight)].

Definition config_of (assertions : list value) : value :=
  VObj [("assertions", VArr assertions)].

(** Nine tenths of the weight pass, one assertion fails. *)
Definition nine_of_ten : value :=
  config_of
    [ assertion "limit" "MAX_LENGTH" [("max_chars", VNum 3)] (VNum 1);
      assertion "greeting" "CONTAINS_TEXT" [("text", VStr "hello")] (VNum 9) ].

(** The configuration of the end-to-end example of the specification. *)
Definition end_to_end : value :=
  config_of
    [ assertion "len" "MAX_LENGTH" [("max_chars", VNum 10)] (VNum 1);
      assertion "txt" "CONTAINS_TEXT" [("text", VStr "hello")] (VNum 1) ].

(** 23 of 40: [23 / 40 * 100] is 57.49999999999999 in binary64. *)
Definition twenty_three_of_forty : value :=
  config_of
    [ assertion "txt" "CONTAINS_TEXT" [("text", VStr "hello")] (VNum 23);
      assertion "len" "MAX_LENGTH" [("max_chars", VNum 3)] (VNum 17) ].

(** Assertions of an unknown type, with weights [0] and ["heavy"]. *)
Definition zero_weighted : value := assertion "zero" "CUSTOM" [] (VNum 0).

Definition heavy_weighted : value :=
  assertion "heavy" "CUSTOM" [] (VStr "heavy").

(** A limit of [0] characters, and a limit of [5]. *)
Definition at_most_0 : value :=
  assertion "empty" "MAX_LENGTH" [("max_chars", VNum 0)] (VNum 1).

Definition at_most_5 : value :=
  assertion "short" "MAX_LENGTH" [("max_chars", VNum 5)] (VNum 1).

Definition needs_hello : value :=
  assertion "txt" "CONTAINS_TEXT" [("text", VStr "hello")] (VNum 1).

Definition two_and_a_half : value := assertion "w" "CUSTOM" [] (VNum 2.5).

Definition no_secret : value :=
  assertion "leak" "NO_PATTERN" [("pattern", VStr "secret")] (VNum 1).

(** A [MAX_LENGTH] assertion without [params]. *)
Definition bare_max_length : value :=
  VObj [("name", VStr "bare"); ("type", VStr "MAX_LENGTH")].

(** An assertion of a type the engine does not know. *)
Definition unknown_type : value := assertion "tone" "SENTIMENT" [] (VNum 3).

Fixpoint replicate (n : nat) (c : ascii) : string :=
  match n with
  | O => EmptyString
  | S n' => String c (replicate n' c)
  end.

(** Two integer weights, the first passing against [hello] and the
    second failing, and one more passing assertion of weight 1. *)
Definition large_weights : list value :=
  [ assertion "txt" "CONTAINS_TEXT" [("text", VStr "hello")]
      (VNum 4638707616191696);
    assertion "len" "MAX_LENGTH" [("max_chars", VNum 3)]
      (VNum 4368491638549462) ].

Definition one_more : value :=
  assertion "more" "CONTAINS_TEXT" [("text", VStr "hell")] (VNum 1).

(** Weights 7 (passing against [hello]) and 1 (failing), and one more
    passing assertion of weight [1e-15]. *)
Definition seven_of_eight : list value :=
  [ assertion "txt" "CONTAINS_TEXT" [("text", VStr "hello")] (VNum 7);
    assertion "len" "MAX_LENGTH" [("max_chars", VNum 3)] (VNum 1) ].

Definition a_little_more : value :=
  assertion "more" "CONTAINS_TEXT" [("text", VStr "hell")] (VNum 1e-15).

(** A failing assertion of negative weight. *)
Definition negative_weight : list value :=
  [ assertion "txt" "CONTAINS_TEXT" [("text", VStr "hello")] (VNum 3);
    assertion "len" "MAX_LENGTH" [("max_chars", VNum 3)] (VNum (-1)) ].

(** Two assertions that pass against [hello]. *)
Definition all_passing : list value :=
  [ assertion "txt" "CONTAINS_TEXT" [("text", VStr "hello")] (VNum 2);
    assertion "len" "MAX_LENGTH" [("max_chars", VNum 10)] (VNum 0.5) ].

(** A [NO_PATTERN] assertion whose pattern is no regular expression. *)
Definition broken_pattern : value :=
  assertion "re" "NO_PATTERN" [("pattern", VStr "(")] (VNum 1).

(** A passing assertion followed by one that throws. *)
Definition with_broken_pattern : list value := [needs_hello; broken_pattern].

(** The weights of [seven_of_eight], doubled. *)
Definition fourteen_of_sixteen : list value :=
  [ assertion "txt" "CONTAINS_TEXT" [("text", VStr "hello")] (VNum 14);
    assertion "len" "MAX_LENGTH" [("max_chars", VNum 3)] (VNum 2) ].

(** An assertion that fails against [hello], of weight 2. *)
Definition one_less : value :=
  assertion "less" "CONTAINS_TEXT" [("text", VStr "bye")] (VNum 2).

(** Two assertions that fail against [hello]. *)
Definition all_failing : list value :=
  [ assertion "txt" "CONTAINS_TEXT" [("text", VStr "bye")] (VNum 2.5);
    assertion "len" "MAX_LENGTH" [("max_chars", VNum 3)] (VNum 0.5) ].

(** A configured weight of 0 on an assertion that passes against
    [hello], and a failing assertion of weight 1. *)
Definition zero_and_one : list value :=
  [ assertion "txt" "CONTAINS_TEXT" [("text", VStr "hello")] (VNum 0);
    assertion "len" "MAX_LENGTH" [("max_chars", VNum 3)] (VNum 1) ].

(** An object that does not convert to a primitive: its own [toString]
    is the number 1. *)
Definition unconvertible : value := VObj [("toString", VNum 1)].

(** An assertion of an unknown type and an assertion that fails against
    [hello], both with that object for a weight. *)
Definition custom_unconvertible : value :=
  assertion "odd" "CUSTOM" [] unconvertible.

Definition failing_unconvertible : value :=
  assertion "len" "MAX_LENGTH" [("max_chars", VNum 3)] unconvertible.

End Samples.

(** * Facts about binary64

    What the proofs below need of the binary64 operations, derived from
    their specification in [SpecFloat] and [FloatAxioms].  The smallest
    exponent of the format is [-1074]. *)

Module Binary64.
Import JS.

Section Rounding.
Local Open Scope Z_scope.

(** A positive number of [d] bits is at least [2^(d-1)] and below
    [2^d]. *)
Lemma digits2_pos_lower (p : positive) :
  2 ^ (Zpos (digits2_pos p) - 1) <= Zpos p.
Proof.
  induction p as [p IH | p IH |]; cbn [digits2_pos].
  - rewrite Pos2Z.inj_succ.
    replace (Z.succ (Zpos (digits2_pos p)) - 1)
      with (Z.succ (Zpos (digits2_pos p) - 1)) by lia.
    rewrite Z.pow_succ_r by lia. lia.
  - rewrite Pos2Z.inj_succ.
    replace (Z.succ (Zpos (digits2_pos p)) - 1)
      with (Z.succ (Zpos (digits2_pos p) - 1)) by lia.
    rewrite Z.pow_succ_r by lia. lia.
  - cbn. lia.
Qed.

(** Shifting right by [p] bits a mantissa of more than [p] bits leaves
    a positive mantissa. *)
Lemma shr_1_lower (mrs : shr_record) (k : Z) :
  0 <= k -> 2 ^ (1 + k) <= shr_m mrs -> 2 ^ k <= shr_m (shr_1 mrs).
Proof.
  intros Hk Hm. destruct mrs as [m r s]. cbn [shr_m] in Hm.
  rewrite Z.pow_add_r in Hm by lia. change (2 ^ 1) with 2 in Hm.
  assert (0 < 2 ^ k) by (apply Z.pow_pos_nonneg; lia).
  destruct m as [| [p | p |] |]; cbn [shr_1 shr_m]; lia.
Qed.

Lemma iter_shr_1_lower (p : positive) :
  forall (mrs : shr_record) (k : Z),
    0 <= k -> 2 ^ (Zpos p + k) <= shr_m mrs ->
    2 ^ k <= shr_m (iter_pos shr_1 p mrs).
Proof.
  induction p as [p IH | p IH |]; intros mrs k Hk Hm; cbn [iter_pos].
  - apply IH; [lia |]. apply IH; [lia |]. apply shr_1_lower; [lia |].
    replace (1 + (Zpos p + (Zpos p + k))) with (Zpos p~1 + k) by lia.
    exact Hm.
  - apply IH; [lia |]. apply IH; [lia |].
    replace (Zpos p + (Zpos p + k)) with (Zpos p~0 + k) by lia. exact Hm.
  - apply shr_1_lower; [lia |]. exact Hm.
Qed.

Lemma shr_fexp_pos (m e : Z) (l : location) :
  0 < m -> (-1074) <= e ->
  0 < shr_m (fst (shr_fexp prec emax m e l)) /\
  (-1074) <= snd (shr_fexp prec emax m e l).
Proof.
  intros Hm He. unfold shr_fexp, shr.
  destruct m as [| p |]; try lia. cbn [Zdigits2].
  set (d := Zpos (digits2_pos p)).
  assert (Hf : fexp prec emax (d + e) = Z.max (d + e - 53) (-1074))
    by reflexivity.
  rewrite Hf.
  destruct (Z.max (d + e - 53) (-1074) - e) as [| n | n] eqn:En;
    cbn [fst snd].
  - split; [| lia]. destruct l as [| []]; cbn; lia.
  - split; [| lia].
    assert (Hn : Zpos n = d - 53) by lia.
    assert (2 ^ 52 <=
            shr_m (iter_pos shr_1 n (shr_record_of_loc (Zpos p) l))).
    { apply iter_shr_1_lower; [lia |].
      replace (Zpos n + 52) with (d - 1) by lia.
      replace (shr_m (shr_record_of_loc (Zpos p) l)) with (Zpos p)
        by (destruct l as [| []]; reflexivity).
      apply digits2_pos_lower. }
    lia.
  - split; [| lia]. destruct l as [| []]; cbn; lia.
Qed.

Lemma round_nearest_even_pos (m : Z) (l : location) :
  0 < m -> 0 < round_nearest_even m l.
Proof.
  intros Hm. destruct l as [| []]; cbn [round_nearest_even]; try lia.
  destruct (Z.even m); lia.
Qed.

(** Rounding a positive mantissa whose exponent is at least [emin]
    gives a finite number or an infinity of the sign asked for. *)
Lemma binary_round_aux_pos (sx : bool) (m e : Z) (l : location) :
  0 < m -> (-1074) <= e ->
  (exists m' e',
      binary_round_aux prec emax sx m e l = S754_finite sx m' e') \/
  binary_round_aux prec emax sx m e l = S754_infinity sx.
Proof.
  intros Hm He. unfold binary_round_aux.
  destruct (shr_fexp_pos m e l Hm He) as [H1 H2].
  destruct (shr_fexp prec emax m e l) as [mrs' e'] eqn:E1.
  cbn [fst snd] in H1, H2.
  pose proof (round_nearest_even_pos _ (loc_of_shr_record mrs') H1) as H3.
  destruct (shr_fexp_pos _ e' loc_Exact H3 H2) as [H4 _].
  destruct (shr_fexp prec emax _ e' loc_Exact) as [mrs'' e''] eqn:E2.
  cbn [fst] in H4.
  destruct (shr_m mrs'') as [| q | q]; try lia.
  destruct (e'' <=? emax - prec); [left; eauto | right; reflexivity].
Qed.

Lemma binary_round_signed (sx : bool) (m : positive) (e : Z) :
  (-1074) <= e -> signed sx (binary_round prec emax sx m e).
Proof.
  intros He. unfold binary_round, shl_align.
  set (e' := fexp prec emax (Zpos (digits2_pos m) + e)).
  assert (He' : (-1074) <= e') by (subst e'; unfold fexp; cbn; lia).
  destruct (e' - e) as [| d | d]; apply binary_round_aux_pos; lia.
Qed.

Lemma valid_exponent (s : bool) (m : positive) (e : Z) :
  valid_binary (S754_finite s m e) = true -> (-1074) <= e.
Proof.
  cbn [SpecFloat.valid_binary]. unfold bounded, canonical_mantissa, fexp.
  intros Hv. apply andb_prop in Hv. destruct Hv as [Hc _].
  apply Z.eqb_eq in Hc. cbn in Hc. lia.
Qed.

(** The sum of two finite numbers: [+0] when they cancel, otherwise a
    finite number or an infinity with the sign of the exact sum. *)
Lemma SFadd_finite (sx sy : bool) (mx my : positive) (ex ey : Z) :
  (-1074) <= ex -> (-1074) <= ey ->
  let z := SF64add (S754_finite sx mx ex) (S754_finite sy my ey) in
  z = S754_zero false \/ signed false z \/ signed true z.
Proof.
  intros Hx Hy. cbn zeta. unfold SF64add, SFadd.
  set (ez := Z.min ex ey).
  assert (Hz : (-1074) <= ez) by (subst ez; lia).
  destruct (cond_Zopp sx (Zpos (fst (shl_align mx ex ez))) +
            cond_Zopp sy (Zpos (fst (shl_align my ey ez)))) as [| p | p];
    cbn [binary_normalize].
  - left. reflexivity.
  - right. left. apply binary_round_signed. exact Hz.
  - right. right. apply binary_round_signed. exact Hz.
Qed.

Lemma SFadd_finite_pos (mx my : positive) (ex ey : Z) :
  (-1074) <= ex -> (-1074) <= ey ->
  signed false (SF64add (S754_finite false mx ex) (S754_finite false my ey)).
Proof.
  intros Hx Hy. unfold SF64add, SFadd.
  set (ez := Z.min ex ey).
  assert (Hz : (-1074) <= ez) by (subst ez; lia).
  cbn [cond_Zopp].
  destruct (Zpos (fst (shl_align mx ex ez)) +
            Zpos (fst (shl_align my ey ez))) as [| p | p] eqn:E; try lia.
  cbn [binary_normalize]. apply binary_round_signed. exact Hz.
Qed.

(** A finite non-zero number divided by itself: the quotient of the
    mantissas is exactly [2^53]. *)
Lemma new_location_zero (n : Z) : new_location n 0 = loc_Exact.
Proof.
  unfold new_location, new_location_even, new_location_odd.
  destruct (Z.even n); reflexivity.
Qed.

Lemma SFdiv_diag (s : bool) (m : positive) (e : Z) :
  SF64div (S754_finite s m e) (S754_finite s m e) = Prim2SF 1.
Proof.
  unfold SF64div, SFdiv, SFdiv_core_binary.
  rewrite Z.sub_diag, Z.sub_diag.
  change (Z.min (fexp prec emax 0) 0) with (-53).
  change (0 - -53) with 53.
  cbv iota.
  rewrite Z.shiftl_mul_pow2 by lia.
  assert (Hd : Z.div_eucl (Zpos m * 2 ^ 53) (Zpos m) = (2 ^ 53, 0)).
  { pose proof (Z.div_eucl_eq (Zpos m * 2 ^ 53) (Zpos m)) as Heq.
    pose proof (Z.mod_pos_bound (Zpos m * 2 ^ 53) (Zpos m)) as Hb.
    unfold Z.modulo in Hb.
    destruct (Z.div_eucl (Zpos m * 2 ^ 53) (Zpos m)) as [q r].
    assert (Hq : q = 2 ^ 53) by nia.
    assert (Hr : r = 0) by nia.
    subst. reflexivity. }
  rewrite Hd. rewrite new_location_zero.
  destruct s; reflexivity.
Qed.

Lemma digits2_pos_upper (p : positive) :
  Zpos p < 2 ^ Zpos (digits2_pos p).
Proof.
  induction p as [p IH | p IH |]; cbn [digits2_pos];
    try (rewrite Pos2Z.inj_succ, Z.pow_succ_r by lia; lia).
  cbn. lia.
Qed.

Lemma digits2_pos_iter (p k : positive) :
  digits2_pos (Pos.iter xO p k) = (digits2_pos p + k)%positive.
Proof.
  induction k as [| k IH] using Pos.peano_ind.
  - cbn. lia.
  - rewrite Pos.iter_succ. cbn [digits2_pos]. rewrite IH. lia.
Qed.

Lemma Zpos_iter_xO (p k : positive) :
  Zpos (Pos.iter xO p k) = Zpos p * 2 ^ Zpos k.
Proof.
  induction k as [| k IH] using Pos.peano_ind.
  - cbn. lia.
  - rewrite Pos.iter_succ, Pos2Z.inj_xO, IH, Pos2Z.inj_succ,
      Z.pow_succ_r by lia. lia.
Qed.

Lemma aligned_digits (p : positive) :
  Zpos (digits2_pos p) <= 53 -> Zpos (digits2_pos (aligned p)) = 53.
Proof.
  intros Hd. unfold aligned.
  destruct (53 - Zpos (digits2_pos p)) as [| k | k] eqn:Ek; try lia.
  rewrite digits2_pos_iter. lia.
Qed.

Lemma aligned_value (p : positive) :
  Zpos (digits2_pos p) <= 53 ->
  Zpos (aligned p) = Zpos p * 2 ^ (53 - Zpos (digits2_pos p)).
Proof.
  intros Hd. unfold aligned.
  destruct (53 - Zpos (digits2_pos p)) as [| k | k] eqn:Ek; try lia.
  apply Zpos_iter_xO.
Qed.

(** A mantissa of 53 bits with an exponent between -52 and 0 is left
    as it is by the rounding. *)
Lemma binary_round_aux_exact (m : positive) (e : Z) :
  Zpos (digits2_pos m) = 53 -> -52 <= e <= 0 ->
  binary_round_aux prec emax false (Zpos m) e loc_Exact =
  S754_finite false m e.
Proof.
  intros Hd He.
  assert (Hsh : shr_fexp prec emax (Zpos m) e loc_Exact =
                ({| shr_m := Zpos m; shr_r := false; shr_s := false |}, e)).
  { unfold shr_fexp. cbn [Zdigits2]. rewrite Hd.
    replace (fexp prec emax (53 + e) - e) with 0
      by (unfold fexp, SpecFloat.emin; change prec with 53;
          change emax with 1024; lia).
    reflexivity. }
  unfold binary_round_aux. rewrite Hsh.
  cbn [shr_m loc_of_shr_record round_nearest_even]. rewrite Hsh.
  cbn [shr_m].
  replace (e <=? emax - prec) with true
    by (symmetry; apply Z.leb_le; change prec with 53;
        change emax with 1024; lia).
  reflexivity.
Qed.

Lemma binary_normalize_small (p : positive) :
  Zpos (digits2_pos p) <= 53 ->
  binary_normalize prec emax (Zpos p) 0 false =
  S754_finite false (aligned p) (Zpos (digits2_pos p) - 53).
Proof.
  intros Hd. cbn [binary_normalize]. unfold binary_round, shl_align.
  replace (fexp prec emax (Zpos (digits2_pos p) + 0))
    with (Zpos (digits2_pos p) - 53)
    by (unfold fexp, SpecFloat.emin; change prec with 53;
        change emax with 1024; lia).
  pose proof (aligned_digits p Hd) as Ha. unfold aligned in *.
  destruct (53 - Zpos (digits2_pos p)) as [| k | k] eqn:Ek; try lia.
  - replace (Zpos (digits2_pos p) - 53 - 0) with 0 by lia.
    replace (Zpos (digits2_pos p) - 53) with 0 by lia.
    apply binary_round_aux_exact; lia.
  - replace (Zpos (digits2_pos p) - 53 - 0) with (Zneg k) by lia.
    apply binary_round_aux_exact; [exact Ha | lia].
Qed.

Lemma small_valid (p : positive) :
  Zpos (digits2_pos p) <= 53 ->
  valid_binary
    (S754_finite false (aligned p) (Zpos (digits2_pos p) - 53)) = true.
Proof.
  intros Hd. cbn [SpecFloat.valid_binary]. unfold bounded, canonical_mantissa.
  rewrite (aligned_digits p Hd). apply andb_true_intro. split.
  - apply Z.eqb_eq. unfold fexp, SpecFloat.emin.
    change prec with 53. change emax with 1024. lia.
  - apply Z.leb_le. change prec with 53. change emax with 1024. lia.
Qed.

(** Integers below 2^53 keep their order as binary64 Numbers. *)
Lemma SFltb_small (p q : positive) :
  (p < q)%positive -> Zpos (digits2_pos q) <= 53 ->
  SFltb (S754_finite false (aligned p) (Zpos (digits2_pos p) - 53))
        (S754_finite false (aligned q) (Zpos (digits2_pos q) - 53)) = true.
Proof.
  intros Hpq Hq.
  pose proof (digits2_pos_lower p) as Hlp.
  pose proof (digits2_pos_upper p) as Hup.
  pose proof (digits2_pos_lower q) as Hlq.
  pose proof (digits2_pos_upper q) as Huq.
  assert (Hdd : Zpos (digits2_pos p) <= Zpos (digits2_pos q)).
  { apply Z.nlt_ge. intros Hlt.
    assert (2 ^ Zpos (digits2_pos q) <= 2 ^ (Zpos (digits2_pos p) - 1))
      by (apply Z.pow_le_mono_r; lia).
    lia. }
  unfold SFltb. cbn [SFcompare].
  destruct (Z.compare_spec (Zpos (digits2_pos p) - 53)
                           (Zpos (digits2_pos q) - 53)) as [He | He | He];
    [| reflexivity | lia].
  assert (Hap := aligned_value p ltac:(lia)).
  assert (Haq := aligned_value q Hq).
  replace (Zpos (digits2_pos p)) with (Zpos (digits2_pos q)) in Hap by lia.
  assert (Hlt : (aligned p < aligned q)%positive).
  { assert (Zpos (aligned p) < Zpos (aligned q)); [| lia].
    rewrite Hap, Haq.
    apply Z.mul_lt_mono_pos_r; [apply Z.pow_pos_nonneg; lia | lia]. }
  change (Pos.compare_cont Eq (aligned p) (aligned q))
    with (Pos.compare (aligned p) (aligned q)).
  rewrite (proj2 (Pos.compare_lt_iff _ _) Hlt). reflexivity.
Qed.

Lemma shr_1_stands_for (N D : Z) (mrs : shr_record) :
  0 < D -> stands_for N D mrs -> stands_for N (2 * D) (shr_1 mrs).
Proof.
  intros HD (Hm & Hb & Hl). destruct mrs as [m r s].
  cbn [shr_m] in Hm, Hb, Hl. unfold locate in Hl.
  unfold stands_for, locate.
  destruct (Z.eqb_spec N (m * D)) as [He | He].
  - (* exact *)
    assert (r = false /\ s = false) as [-> ->]
      by (destruct r, s; cbn in Hl; try discriminate; auto).
    destruct m as [| [p | p |] |]; cbn [shr_1 shr_m orb loc_of_shr_record];
      try lia.
    + split; [lia |]. split; [lia |].
      destruct (Z.eqb_spec N (0 * (2 * D))); [reflexivity | lia].
    + split; [lia |]. split; [lia |].
      destruct (Z.eqb_spec N (Zpos p * (2 * D))); [lia |].
      replace (2 * (N - Zpos p * (2 * D)) ?= 2 * D) with Eq
        by (symmetry; apply Z.compare_eq_iff; lia).
      reflexivity.
    + split; [lia |]. split; [lia |].
      destruct (Z.eqb_spec N (Zpos p * (2 * D))); [reflexivity | lia].
    + split; [lia |]. split; [lia |].
      destruct (Z.eqb_spec N (0 * (2 * D))); [lia |].
      replace (2 * (N - 0 * (2 * D)) ?= 2 * D) with Eq
        by (symmetry; apply Z.compare_eq_iff; lia).
      reflexivity.
  - (* inexact: r || s is true *)
    assert (Hrs : orb r s = true).
    { destruct r, s; cbn in Hl; try discriminate; reflexivity. }
    destruct m as [| [p | p |] |]; cbn [shr_1 shr_m]; rewrite ?Hrs;
      cbn [loc_of_shr_record]; try lia.
    + split; [lia |]. split; [lia |].
      destruct (Z.eqb_spec N (0 * (2 * D))); [lia |].
      replace (2 * (N - 0 * (2 * D)) ?= 2 * D) with Lt
        by (symmetry; apply Z.compare_lt_iff; lia).
      reflexivity.
    + split; [lia |]. split; [lia |].
      destruct (Z.eqb_spec N (Zpos p * (2 * D))); [lia |].
      replace (2 * (N - Zpos p * (2 * D)) ?= 2 * D) with Gt
        by (symmetry; apply Z.compare_gt_iff; lia).
      reflexivity.
    + split; [lia |]. split; [lia |].
      destruct (Z.eqb_spec N (Zpos p * (2 * D))); [lia |].
      replace (2 * (N - Zpos p * (2 * D)) ?= 2 * D) with Lt
        by (symmetry; apply Z.compare_lt_iff; lia).
      reflexivity.
    + split; [lia |]. split; [lia |].
      destruct (Z.eqb_spec N (0 * (2 * D))); [lia |].
      replace (2 * (N - 0 * (2 * D)) ?= 2 * D) with Gt
        by (symmetry; apply Z.compare_gt_iff; lia).
      reflexivity.
Qed.

Lemma pow2_xO (p : positive) : 2 ^ Zpos p~0 = 2 ^ Zpos p * 2 ^ Zpos p.
Proof.
  replace (Zpos p~0) with (Zpos p + Zpos p) by lia.
  apply Z.pow_add_r; lia.
Qed.

Lemma pow2_xI (p : positive) : 2 ^ Zpos p~1 = 2 * (2 ^ Zpos p * 2 ^ Zpos p).
Proof.
  replace (Zpos p~1) with (1 + (Zpos p + Zpos p)) by lia.
  rewrite !Z.pow_add_r by lia. reflexivity.
Qed.

Lemma iter_shr_1_stands_for (p : positive) :
  forall (N D : Z) (mrs : shr_record),
    0 < D -> stands_for N D mrs ->
    stands_for N (D * 2 ^ Zpos p) (iter_pos shr_1 p mrs).
Proof.
  induction p as [p IH | p IH |]; intros N D mrs HD Hs; cbn [iter_pos];
    try assert (Hp : 0 < 2 ^ Zpos p) by (apply Z.pow_pos_nonneg; lia).
  - rewrite pow2_xI.
    replace (D * (2 * (2 ^ Zpos p * 2 ^ Zpos p)))
      with (2 * D * 2 ^ Zpos p * 2 ^ Zpos p) by ring.
    apply IH; [nia |]. apply IH; [lia |].
    apply shr_1_stands_for; assumption.
  - rewrite pow2_xO.
    replace (D * (2 ^ Zpos p * 2 ^ Zpos p))
      with (D * 2 ^ Zpos p * 2 ^ Zpos p) by ring.
    apply IH; [nia |]. apply IH; [lia |]. exact Hs.
  - replace (D * 2 ^ 1) with (2 * D) by (change (2 ^ 1) with 2; ring).
    apply shr_1_stands_for; assumption.
Qed.

(** The integer part of a record that stands for [N / D] is the
    quotient, and rounding it by its two bits is [rne]. *)
Lemma stands_for_quotient (N D : Z) (mrs : shr_record) :
  0 < D -> stands_for N D mrs -> shr_m mrs = N / D.
Proof.
  intros HD (Hm & Hb & _). apply (Z.div_unique N D _ (N - shr_m mrs * D)); lia.
Qed.

Lemma stands_for_rne (N D : Z) (mrs : shr_record) :
  0 < D -> stands_for N D mrs ->
  round_nearest_even (shr_m mrs) (loc_of_shr_record mrs) = rne N D.
Proof.
  intros HD Hs. pose proof (stands_for_quotient N D mrs HD Hs) as Hq.
  destruct Hs as (_ & _ & Hl). unfold rne. rewrite Hl, Hq. reflexivity.
Qed.

Lemma shr_record_of_loc_stands_for (N D m : Z) :
  0 <= m -> m * D <= N < (m + 1) * D ->
  stands_for N D (shr_record_of_loc m (locate N D m)).
Proof.
  intros Hm Hb. unfold stands_for.
  assert (Hsm : forall l, shr_m (shr_record_of_loc m l) = m)
    by (intros [| []]; reflexivity).
  rewrite Hsm. split; [exact Hm |]. split; [exact Hb |].
  destruct (locate N D m) as [| []]; reflexivity.
Qed.

Lemma rne_spec (N D : Z) :
  0 < D ->
  (2 * (N mod D) < D -> rne N D = N / D) /\
  (2 * (N mod D) > D -> rne N D = N / D + 1) /\
  (2 * (N mod D) = D ->
   rne N D = if Z.even (N / D) then N / D else N / D + 1).
Proof.
  intros HD. pose proof (Z.div_mod N D ltac:(lia)) as Hdm.
  pose proof (Z.mod_pos_bound N D HD) as Hr.
  unfold rne, locate.
  replace (N - N / D * D) with (N mod D) by lia.
  destruct (Z.eqb_spec N (N / D * D)) as [He | He].
  - assert (N mod D = 0) by lia.
    cbn [round_nearest_even]. repeat split; intros; lia.
  - destruct (Z.compare_spec (2 * (N mod D)) D) as [Hc | Hc | Hc];
      cbn [round_nearest_even]; repeat split; intros; try lia; reflexivity.
Qed.

Lemma rne_monotone (N D N' D' : Z) :
  0 < D -> 0 < D' -> N * D' <= N' * D -> rne N D <= rne N' D'.
Proof.
  intros HD HD' Hle.
  pose proof (Z.div_mod N D ltac:(lia)) as Hdm.
  pose proof (Z.mod_pos_bound N D HD) as Hr.
  pose proof (Z.div_mod N' D' ltac:(lia)) as Hdm'.
  pose proof (Z.mod_pos_bound N' D' HD') as Hr'.
  destruct (rne_spec N D HD) as (Hlt & Hgt & Heq).
  destruct (rne_spec N' D' HD') as (Hlt' & Hgt' & Heq').
  set (q := N / D) in *. set (r := N mod D) in *.
  set (q' := N' / D') in *. set (r' := N' mod D') in *.
  assert (Hq : q <= q').
  { destruct (Z.le_gt_cases q q') as [Hc | Hc]; [exact Hc | exfalso].
    assert (H1 : N' * D < (q' + 1) * D' * D)
      by (apply Z.mul_lt_mono_pos_r; lia).
    assert (H2 : q * D * D' <= N * D')
      by (apply Z.mul_le_mono_nonneg_r; lia).
    assert (H3 : (q' + 1) * (D' * D) <= q * (D' * D))
      by (apply Z.mul_le_mono_nonneg_r; nia).
    lia. }
  assert (Hn : q <= rne N D <= q + 1).
  { destruct (Z.lt_total (2 * r) D) as [H1 | [H1 | H1]].
    - rewrite (Hlt H1). lia.
    - rewrite (Heq H1). destruct (Z.even q); lia.
    - rewrite (Hgt ltac:(lia)). lia. }
  assert (Hn' : q' <= rne N' D' <= q' + 1).
  { destruct (Z.lt_total (2 * r') D') as [H1 | [H1 | H1]].
    - rewrite (Hlt' H1). lia.
    - rewrite (Heq' H1). destruct (Z.even q'); lia.
    - rewrite (Hgt' ltac:(lia)). lia. }
  destruct (Z.eq_dec q q') as [Hqq | Hqq]; [| lia].
  assert (Hrr : r * D' <= r' * D).
  { assert (N * D' = D * q * D' + r * D') by (rewrite Hdm at 1; ring).
    assert (N' * D = D' * q' * D + r' * D) by (rewrite Hdm' at 1; ring).
    rewrite Hqq in *. lia. }
  destruct (Z.lt_total (2 * r) D) as [H1 | [H1 | H1]].
  - rewrite (Hlt H1). lia.
  - rewrite (Heq H1).
    destruct (Z.lt_total (2 * r') D') as [H2 | [H2 | H2]].
    + exfalso. nia.
    + rewrite (Heq' H2), <- Hqq. lia.
    + rewrite (Hgt' ltac:(lia)). destruct (Z.even q); lia.
  - rewrite (Hgt ltac:(lia)).
    destruct (Z.lt_total (2 * r') D') as [H2 | [H2 | H2]].
    + exfalso. nia.
    + exfalso. nia.
    + rewrite (Hgt' ltac:(lia)). lia.
Qed.

Lemma rne_bounds (N D : Z) : 0 < D -> N / D <= rne N D <= N / D + 1.
Proof.
  intros HD. destruct (rne_spec N D HD) as (Hlt & Hgt & Heq).
  destruct (Z.lt_total (2 * (N mod D)) D) as [H1 | [H1 | H1]].
  - rewrite (Hlt H1). lia.
  - rewrite (Heq H1). destruct (Z.even (N / D)); lia.
  - rewrite (Hgt ltac:(lia)). lia.
Qed.

Lemma digits2_pos_unique (p : positive) (d : Z) :
  2 ^ (d - 1) <= Zpos p < 2 ^ d -> Zpos (digits2_pos p) = d.
Proof.
  intros [Hl Hu].
  pose proof (digits2_pos_lower p) as Hl'.
  pose proof (digits2_pos_upper p) as Hu'.
  assert (Hd : 0 < d).
  { destruct (Z.lt_trichotomy d 0) as [H | [H | H]]; [| | exact H].
    - rewrite (Z.pow_neg_r 2 d H) in Hu. lia.
    - subst d. cbn in Hu. lia. }
  destruct (Z.lt_trichotomy (Zpos (digits2_pos p)) d) as [H | [H | H]];
    [| exact H |].
  - assert (2 ^ Zpos (digits2_pos p) <= 2 ^ (d - 1))
      by (apply Z.pow_le_mono_r; lia).
    lia.
  - assert (2 ^ d <= 2 ^ (Zpos (digits2_pos p) - 1))
      by (apply Z.pow_le_mono_r; lia).
    lia.
Qed.

(** Rounding in the normal range.  When the triple [(m0, e0, l0)]
    stands for [N / D] and [m0] has [53 + j] bits, the result is
    [N / (D * 2^j)] rounded to the nearest integer, a tie to the even
    one, with the exponent [e0 + j]; a result of [2^53] is written
    [2^52] with the next exponent. *)
Lemma binary_round_aux_normal (N D : Z) (m0 : positive) (e0 j : Z)
      (l0 : location) :
  0 < D ->
  stands_for N D (shr_record_of_loc (Zpos m0) l0) ->
  Zpos (digits2_pos m0) = 53 + j -> 0 <= j ->
  -1074 <= e0 -> e0 + j + 1 <= 971 ->
  let n := rne N (D * 2 ^ j) in
  2 ^ 52 <= n <= 2 ^ 53 /\
  binary_round_aux prec emax false (Zpos m0) e0 l0 =
    if n <? 2 ^ 53 then S754_finite false (Z.to_pos n) (e0 + j)
    else S754_finite false (Z.to_pos (2 ^ 52)) (e0 + j + 1).
Proof.
  intros HD Hs Hd Hj He Hmax n.
  assert (Hpj : 0 < 2 ^ j) by (apply Z.pow_pos_nonneg; lia).
  assert (Hm0 : shr_m (shr_record_of_loc (Zpos m0) l0) = Zpos m0)
    by (destruct l0 as [| []]; reflexivity).
  pose proof (stands_for_quotient N D _ HD Hs) as Hq. rewrite Hm0 in Hq.
  (* first shift *)
  assert (Hshift :
            exists mrs',
              shr_fexp prec emax (Zpos m0) e0 l0 = (mrs', e0 + j) /\
              stands_for N (D * 2 ^ j) mrs').
  { unfold shr_fexp, shr. cbn [Zdigits2]. rewrite Hd.
    replace (fexp prec emax (53 + j + e0) - e0) with j
      by (unfold fexp, SpecFloat.emin; change prec with 53;
          change emax with 1024; lia).
    destruct j as [| pj | pj]; try lia.
    - eexists. split; [rewrite Z.add_0_r; reflexivity |].
      rewrite Z.mul_1_r. exact Hs.
    - eexists. split; [reflexivity |].
      apply iter_shr_1_stands_for; assumption. }
  destruct Hshift as (mrs' & Hsh & Hs').
  assert (HD' : 0 < D * 2 ^ j) by nia.
  pose proof (stands_for_quotient N _ mrs' HD' Hs') as Hq'.
  pose proof (stands_for_rne N _ mrs' HD' Hs') as Hrne. fold n in Hrne.
  (* the truncated mantissa has 53 bits *)
  assert (Hmag : 2 ^ 52 <= shr_m mrs' < 2 ^ 53).
  { rewrite Hq', <- Z.div_div by lia. rewrite <- Hq.
    pose proof (digits2_pos_lower m0) as Hl.
    pose proof (digits2_pos_upper m0) as Hu.
    rewrite Hd in Hl, Hu.
    replace (53 + j - 1) with (52 + j) in Hl by lia.
    rewrite Z.pow_add_r in Hl, Hu by lia.
    split.
    - apply Z.div_le_lower_bound; lia.
    - apply Z.div_lt_upper_bound; lia. }
  pose proof (rne_bounds N (D * 2 ^ j) HD') as Hb. fold n in Hb.
  rewrite <- Hq' in Hb.
  assert (Hn : 2 ^ 52 <= n <= 2 ^ 53) by lia.
  split; [exact Hn |].
  unfold binary_round_aux. rewrite Hsh, Hrne.
  destruct (Z.ltb_spec n (2 ^ 53)) as [Hlt | Hge].
  - (* no carry *)
    destruct n as [| pn | pn] eqn:En; try lia.
    assert (Hdn : Zpos (digits2_pos pn) = 53)
      by (apply digits2_pos_unique; change (53 - 1) with 52; lia).
    unfold shr_fexp, shr. cbn [Zdigits2]. rewrite Hdn.
    replace (fexp prec emax (53 + (e0 + j)) - (e0 + j)) with 0
      by (unfold fexp, SpecFloat.emin; change prec with 53;
          change emax with 1024; lia).
    cbn [shr_record_of_loc shr_m Z.to_pos].
    replace (e0 + j <=? emax - prec) with true
      by (symmetry; apply Z.leb_le; change prec with 53;
          change emax with 1024; lia).
    reflexivity.
  - (* carry: n = 2^53 *)
    assert (En : n = 2 ^ 53) by lia. rewrite En.
    unfold shr_fexp, shr.
    change (Zdigits2 (2 ^ 53)) with 54.
    replace (fexp prec emax (54 + (e0 + j)) - (e0 + j)) with 1
      by (unfold fexp, SpecFloat.emin; change prec with 53;
          change emax with 1024; lia).
    cbn [shr_record_of_loc iter_pos].
    change (shr_m (shr_1 {| shr_m := 2 ^ 53; shr_r := false; shr_s := false |}))
      with (2 ^ 52).
    change (2 ^ 52) with (Zpos (Z.to_pos (2 ^ 52))) at 1. cbv iota.
    replace (e0 + j + 1 <=? emax - prec) with true
      by (symmetry; apply Z.leb_le; change prec with 53;
          change emax with 1024; lia).
    reflexivity.
Qed.

Lemma rne_scale (N D c : Z) :
  0 < D -> 0 < c -> rne (N * c) (D * c) = rne N D.
Proof.
  intros HD Hc.
  assert (Hq : N * c / (D * c) = N / D)
    by (apply Z.div_mul_cancel_r; lia).
  assert (Hr : (N * c) mod (D * c) = N mod D * c)
    by (apply Z.mul_mod_distr_r; lia).
  destruct (rne_spec N D HD) as (Hlt & Hgt & Heq).
  destruct (rne_spec (N * c) (D * c) ltac:(nia)) as (Hlt' & Hgt' & Heq').
  rewrite Hq, Hr in *.
  destruct (Z.lt_total (2 * (N mod D)) D) as [H1 | [H1 | H1]].
  - rewrite (Hlt H1). apply Hlt'. nia.
  - rewrite (Heq H1). apply Heq'. nia.
  - rewrite (Hgt ltac:(lia)). apply Hgt'. nia.
Qed.

(** The order of two numbers in canonical form: by the exponents, then
    by the mantissas. *)
Lemma pack_leb (n e n' e' : Z) :
  2 ^ 52 <= n <= 2 ^ 53 -> 2 ^ 52 <= n' <= 2 ^ 53 ->
  e < e' \/ (e = e' /\ n <= n') ->
  SFleb (pack n e) (pack n' e') = true.
Proof.
  intros Hn Hn' Hord. unfold pack, SFleb.
  destruct (Z.ltb_spec n (2 ^ 53)) as [H1 | H1];
    destruct (Z.ltb_spec n' (2 ^ 53)) as [H2 | H2]; cbn [SFcompare].
  - destruct (Z.compare_spec e e') as [He | He | He]; try reflexivity;
      [| lia].
    change (Pos.compare_cont Eq (Z.to_pos n) (Z.to_pos n'))
      with (Pos.compare (Z.to_pos n) (Z.to_pos n')).
    destruct (Pos.compare_spec (Z.to_pos n) (Z.to_pos n')) as [Hc | Hc | Hc];
      try reflexivity.
    pose proof (Z2Pos.id n ltac:(lia)). pose proof (Z2Pos.id n' ltac:(lia)).
    lia.
  - destruct (Z.compare_spec e (e' + 1)) as [He | He | He]; try reflexivity;
      lia.
  - destruct (Z.compare_spec (e + 1) e') as [He | He | He]; try reflexivity;
      [| lia].
    change (Pos.compare_cont Eq (Z.to_pos (2 ^ 52)) (Z.to_pos n'))
      with (Pos.compare (Z.to_pos (2 ^ 52)) (Z.to_pos n')).
    destruct (Pos.compare_spec (Z.to_pos (2 ^ 52)) (Z.to_pos n'))
      as [Hc | Hc | Hc]; try reflexivity.
    pose proof (Z2Pos.id (2 ^ 52) ltac:(lia)).
    pose proof (Z2Pos.id n' ltac:(lia)). lia.
  - destruct (Z.compare_spec (e + 1) (e' + 1)) as [He | He | He];
      try reflexivity; lia.
Qed.

(** Rounding is monotone: same scale. *)
Lemma rounded_monotone (N D N' D' eb : Z) (f f' : spec_float) :
  0 < D -> 0 < D' ->
  rounded N D eb f -> rounded N' D' eb f' ->
  N * D' <= N' * D ->
  SFleb f f' = true.
Proof.
  intros HD HD' (j & Hj & Hmag & ->) (j' & Hj' & Hmag' & ->) Hle.
  assert (Hp : 0 < 2 ^ j) by (apply Z.pow_pos_nonneg; lia).
  assert (Hp' : 0 < 2 ^ j') by (apply Z.pow_pos_nonneg; lia).
  assert (Hb : forall N D j, 0 < D -> 0 <= j ->
                 2 ^ (52 + j) * D <= N < 2 ^ (53 + j) * D ->
                 2 ^ 52 <= rne N (D * 2 ^ j) <= 2 ^ 53).
  { clear. intros N D j HD Hj Hmag.
    assert (Hp : 0 < 2 ^ j) by (apply Z.pow_pos_nonneg; lia).
    pose proof (rne_bounds N (D * 2 ^ j) ltac:(nia)) as Hb.
    rewrite !Z.pow_add_r in Hmag by lia.
    assert (2 ^ 52 <= N / (D * 2 ^ j))
      by (apply Z.div_le_lower_bound; nia).
    assert (N / (D * 2 ^ j) < 2 ^ 53)
      by (apply Z.div_lt_upper_bound; nia).
    lia. }
  apply pack_leb; [apply Hb; assumption | apply Hb; assumption |].
  destruct (Z.lt_trichotomy j j') as [Hlt | [Heq | Hgt]].
  - left. lia.
  - right. split; [lia |]. subst j'.
    apply rne_monotone; [nia | nia |].
    replace (N * (D' * 2 ^ j)) with (N * D' * 2 ^ j) by ring.
    replace (N' * (D * 2 ^ j)) with (N' * D * 2 ^ j) by ring.
    apply Z.mul_le_mono_nonneg_r; lia.
  - exfalso.
    assert (H1 : 2 ^ (53 + j') <= 2 ^ (52 + j))
      by (apply Z.pow_le_mono_r; lia).
    assert (0 < 2 ^ (53 + j')) by (apply Z.pow_pos_nonneg; lia).
    assert (H2 : 2 ^ (53 + j') * (D * D') <= 2 ^ (52 + j) * (D * D'))
      by (apply Z.mul_le_mono_nonneg_r; nia).
    assert (H3 : N' * D < 2 ^ (53 + j') * D' * D)
      by (apply Z.mul_lt_mono_pos_r; lia).
    assert (H4 : 2 ^ (52 + j) * D * D' <= N * D')
      by (apply Z.mul_le_mono_nonneg_r; lia).
    lia.
Qed.

(** The same rounding, on a finer scale. *)
Lemma rounded_rescale (N D eb t : Z) (f : spec_float) :
  0 < D -> 0 <= t -> rounded N D eb f -> rounded (N * 2 ^ t) D (eb - t) f.
Proof.
  intros HD Ht (j & Hj & Hmag & ->).
  assert (Hpt : 0 < 2 ^ t) by (apply Z.pow_pos_nonneg; lia).
  assert (Hpj : 0 < 2 ^ j) by (apply Z.pow_pos_nonneg; lia).
  exists (j + t). split; [lia |]. split.
  - replace (52 + (j + t)) with (52 + j + t) by lia.
    replace (53 + (j + t)) with (53 + j + t) by lia.
    rewrite (Z.pow_add_r 2 (52 + j) t), (Z.pow_add_r 2 (53 + j) t) by lia.
    nia.
  - replace (eb - t + (j + t)) with (eb + j) by lia.
    rewrite (Z.pow_add_r 2 j t) by lia.
    replace (D * (2 ^ j * 2 ^ t)) with (D * 2 ^ j * 2 ^ t) by ring.
    rewrite rne_scale by nia. reflexivity.
Qed.

(** Rounding is monotone: any two scales. *)
Lemma rounded_monotone_scales (N D eb N' D' eb' : Z) (f f' : spec_float) :
  0 < D -> 0 < D' ->
  rounded N D eb f -> rounded N' D' eb' f' ->
  N * 2 ^ (eb - Z.min eb eb') * D' <= N' * 2 ^ (eb' - Z.min eb eb') * D ->
  SFleb f f' = true.
Proof.
  intros HD HD' Hr Hr' Hle.
  apply (rounded_rescale N D eb (eb - Z.min eb eb') f HD ltac:(lia)) in Hr.
  apply (rounded_rescale N' D' eb' (eb' - Z.min eb eb') f' HD' ltac:(lia))
    in Hr'.
  replace (eb - (eb - Z.min eb eb')) with (Z.min eb eb') in Hr by lia.
  replace (eb' - (eb' - Z.min eb eb')) with (Z.min eb eb') in Hr' by lia.
  exact (rounded_monotone _ _ _ _ _ _ _ HD HD' Hr Hr' Hle).
Qed.

(** Rounding in the normal range, as [rounded]. *)
Lemma binary_round_aux_rounded (N D : Z) (m0 : positive) (e0 j : Z)
      (l0 : location) :
  0 < D ->
  stands_for N D (shr_record_of_loc (Zpos m0) l0) ->
  Zpos (digits2_pos m0) = 53 + j -> 0 <= j ->
  -1074 <= e0 -> e0 + j + 1 <= 971 ->
  rounded N D e0 (binary_round_aux prec emax false (Zpos m0) e0 l0).
Proof.
  intros HD Hs Hd Hj He Hmax.
  destruct (binary_round_aux_normal N D m0 e0 j l0 HD Hs Hd Hj He Hmax)
    as [_ Heq].
  exists j. split; [exact Hj |]. split; [| exact Heq].
  assert (Hm0 : shr_m (shr_record_of_loc (Zpos m0) l0) = Zpos m0)
    by (destruct l0 as [| []]; reflexivity).
  destruct Hs as (_ & Hb & _). rewrite Hm0 in Hb.
  pose proof (digits2_pos_lower m0) as Hl.
  pose proof (digits2_pos_upper m0) as Hu.
  rewrite Hd in Hl, Hu. replace (53 + j - 1) with (52 + j) in Hl by lia.
  nia.
Qed.

Lemma new_location_locate (N D q r : Z) :
  0 < D -> 0 <= r < D -> N = D * q + r ->
  new_location D r = locate N D q.
Proof.
  intros HD Hr HN. unfold new_location, locate.
  replace (N - q * D) with r by lia.
  destruct (Z.even D) eqn:Hev;
    unfold new_location_even, new_location_odd;
    destruct (Z.eqb_spec r 0) as [H0 | H0];
    destruct (Z.eqb_spec N (q * D)) as [H1 | H1]; try lia; try reflexivity.
  assert (Hodd : Z.odd D = true) by (rewrite <- Z.negb_even, Hev; reflexivity).
  apply Z.odd_spec in Hodd. destruct Hodd as (c & Hc).
  destruct (Z.compare_spec (2 * r + 1) D) as [E | E | E];
    destruct (Z.compare_spec (2 * r) D) as [E' | E' | E'];
    try reflexivity; lia.
Qed.

Lemma digits_at_least (p : positive) (d : Z) :
  2 ^ d <= Zpos p -> d < Zpos (digits2_pos p).
Proof.
  intros Hp. pose proof (digits2_pos_upper p) as Hu.
  apply Z.nle_gt. intros Hle.
  assert (2 ^ Zpos (digits2_pos p) <= 2 ^ d) by (apply Z.pow_le_mono_r; lia).
  lia.
Qed.

Lemma digits_at_most (p : positive) (d : Z) :
  0 <= d -> Zpos p < 2 ^ d -> Zpos (digits2_pos p) <= d.
Proof.
  intros Hd Hp. pose proof (digits2_pos_lower p) as Hl.
  apply Z.nlt_ge. intros Hlt.
  assert (2 ^ d <= 2 ^ (Zpos (digits2_pos p) - 1))
    by (apply Z.pow_le_mono_r; lia).
  lia.
Qed.

(** The quotient of two numbers of 53 bits. *)
Lemma SFdiv_rounded (ma mb : positive) (ea eb : Z) :
  Zpos (digits2_pos ma) = 53 -> Zpos (digits2_pos mb) = 53 ->
  -52 <= ea <= 0 -> -52 <= eb <= 0 ->
  rounded (Zpos ma * 2 ^ 53) (Zpos mb) (ea - eb - 53)
    (SF64div (S754_finite false ma ea) (S754_finite false mb eb)).
Proof.
  intros Hda Hdb Hea Heb.
  pose proof (digits2_pos_lower ma) as Hla.
  pose proof (digits2_pos_upper ma) as Hua.
  pose proof (digits2_pos_lower mb) as Hlb.
  pose proof (digits2_pos_upper mb) as Hub.
  rewrite Hda in Hla, Hua. rewrite Hdb in Hlb, Hub.
  change (53 - 1) with 52 in Hla, Hlb.
  unfold SF64div, SFdiv, SFdiv_core_binary. cbn [Zdigits2 xorb].
  rewrite Hda, Hdb.
  replace (Z.min (fexp prec emax (53 + ea - (53 + eb))) (ea - eb))
    with (ea - eb - 53)
    by (unfold fexp, SpecFloat.emin; change prec with 53;
        change emax with 1024; lia).
  replace (ea - eb - (ea - eb - 53)) with 53 by lia. cbv iota.
  rewrite Z.shiftl_mul_pow2 by lia.
  pose proof (Z.div_eucl_eq (Zpos ma * 2 ^ 53) (Zpos mb) ltac:(lia)) as Hdm.
  pose proof (Z.mod_pos_bound (Zpos ma * 2 ^ 53) (Zpos mb) ltac:(lia)) as Hr.
  unfold Z.modulo in Hr.
  destruct (Z.div_eucl (Zpos ma * 2 ^ 53) (Zpos mb)) as [q r].
  assert (Hq : 2 ^ 52 <= q < 2 ^ 54).
  { split.
    - apply Z.nlt_ge. intros Hlt.
      assert (Zpos mb * (q + 1) <= Zpos mb * 2 ^ 52)
        by (apply Z.mul_le_mono_nonneg_l; lia).
      assert (Zpos mb * 2 ^ 52 <= 2 ^ 53 * 2 ^ 52)
        by (apply Z.mul_le_mono_nonneg_r; lia).
      assert (2 ^ 52 * 2 ^ 53 <= Zpos ma * 2 ^ 53)
        by (apply Z.mul_le_mono_nonneg_r; lia).
      lia.
    - apply Z.nle_gt. intros Hge.
      assert (2 ^ 52 * 2 ^ 54 <= Zpos mb * 2 ^ 54)
        by (apply Z.mul_le_mono_nonneg_r; lia).
      assert (Zpos mb * 2 ^ 54 <= Zpos mb * q)
        by (apply Z.mul_le_mono_nonneg_l; lia).
      assert (Zpos ma * 2 ^ 53 < 2 ^ 53 * 2 ^ 53)
        by (apply Z.mul_lt_mono_pos_r; lia).
      lia. }
  destruct q as [| pq | pq]; try lia.
  pose proof (digits_at_least pq 52 ltac:(lia)) as Hd1.
  pose proof (digits_at_most pq 54 ltac:(lia) ltac:(lia)) as Hd2.
  apply (binary_round_aux_rounded _ _ pq _ (Zpos (digits2_pos pq) - 53));
    try lia.
  rewrite (new_location_locate (Zpos ma * 2 ^ 53) (Zpos mb) (Zpos pq) r
             ltac:(lia) Hr Hdm).
  apply shr_record_of_loc_stands_for; lia.
Qed.

(** The product by 100 of a number of 53 bits: the mantissa of 100 is
    [25 * 2^48]. *)
Lemma SFmul_100_rounded (m : positive) (e : Z) :
  Zpos (digits2_pos m) = 53 -> -1000 <= e <= 900 ->
  rounded (Zpos m * 7036874417766400) 1 (e - 46)
    (SF64mul (S754_finite false m e) (Prim2SF 100)).
Proof.
  intros Hd He.
  pose proof (digits2_pos_lower m) as Hl.
  pose proof (digits2_pos_upper m) as Hu.
  rewrite Hd in Hl, Hu. change (53 - 1) with 52 in Hl.
  replace (Prim2SF 100) with (S754_finite false 7036874417766400 (-46))
    by (vm_compute; reflexivity).
  unfold SF64mul, SFmul. cbn [xorb].
  assert (Hp : 2 ^ 104 <= Zpos (m * 7036874417766400) < 2 ^ 106).
  { rewrite Pos2Z.inj_mul. lia. }
  pose proof (digits_at_least (m * 7036874417766400) 104 ltac:(lia)) as Hd1.
  pose proof (digits_at_most (m * 7036874417766400) 106 ltac:(lia)
                ltac:(lia)) as Hd2.
  replace (e + -46) with (e - 46) by lia.
  apply (binary_round_aux_rounded _ _ _ _
           (Zpos (digits2_pos (m * 7036874417766400)) - 53)); try lia.
  replace loc_Exact
    with (locate (Zpos m * 7036874417766400) 1
            (Zpos (m * 7036874417766400))).
  - apply shr_record_of_loc_stands_for; lia.
  - unfold locate. rewrite Pos2Z.inj_mul, Z.mul_1_r, Z.eqb_refl. reflexivity.
Qed.

Lemma pack_finite (n e : Z) :
  2 ^ 52 <= n <= 2 ^ 53 ->
  exists (m : positive) (e' : Z),
    pack n e = S754_finite false m e' /\
    Zpos (digits2_pos m) = 53 /\ e <= e' <= e + 1.
Proof.
  intros Hn. unfold pack. destruct (Z.ltb_spec n (2 ^ 53)) as [Hlt | Hge].
  - exists (Z.to_pos n), e. split; [reflexivity |]. split; [| lia].
    apply digits2_pos_unique. rewrite Z2Pos.id by lia.
    change (53 - 1) with 52. lia.
  - exists (Z.to_pos (2 ^ 52)), (e + 1). split; [reflexivity |].
    split; [reflexivity | lia].
Qed.

Lemma rounded_finite (N D eb : Z) (f : spec_float) :
  0 < D -> rounded N D eb f ->
  exists (j : Z) (m : positive) (e : Z),
    0 <= j /\ 2 ^ (52 + j) * D <= N < 2 ^ (53 + j) * D /\
    f = S754_finite false m e /\
    Zpos (digits2_pos m) = 53 /\ eb + j <= e <= eb + j + 1.
Proof.
  intros HD (j & Hj & Hmag & ->).
  assert (Hp : 0 < 2 ^ j) by (apply Z.pow_pos_nonneg; lia).
  assert (Hn : 2 ^ 52 <= rne N (D * 2 ^ j) <= 2 ^ 53).
  { pose proof (rne_bounds N (D * 2 ^ j) ltac:(nia)) as Hb.
    rewrite !Z.pow_add_r in Hmag by lia.
    assert (2 ^ 52 <= N / (D * 2 ^ j))
      by (apply Z.div_le_lower_bound; nia).
    assert (N / (D * 2 ^ j) < 2 ^ 53)
      by (apply Z.div_lt_upper_bound; nia).
    lia. }
  destruct (pack_finite _ (eb + j) Hn) as (m & e & Hf & Hd & He).
  exists j, m, e. auto.
Qed.

(** The order of two positive numbers of 53 bits. *)
Lemma SFleb_finite (m m' : positive) (e e' : Z) :
  SFleb (S754_finite false m e) (S754_finite false m' e') = true ->
  e < e' \/ (e = e' /\ Zpos m <= Zpos m').
Proof.
  unfold SFleb. cbn [SFcompare].
  destruct (Z.compare_spec e e') as [He | He | He].
  - change (Pos.compare_cont Eq m m') with (Pos.compare m m').
    destruct (Pos.compare_spec m m') as [Hc | Hc | Hc]; intros Hle;
      try discriminate; right; split; lia.
  - intros _. left. exact He.
  - discriminate.
Qed.

Lemma of_positive_facts (p : positive) :
  Zpos p < 2 ^ 53 ->
  Zpos (digits2_pos (aligned p)) = 53 /\
  -52 <= Zpos (digits2_pos p) - 53 <= 0 /\
  Zpos (aligned p) = Zpos p * 2 ^ (53 - Zpos (digits2_pos p)).
Proof.
  intros Hp.
  pose proof (digits_at_most p 53 ltac:(lia) Hp) as Hd.
  split; [apply aligned_digits; exact Hd |].
  split; [lia |]. apply aligned_value. exact Hd.
Qed.

(** Quotients of integers below [2^53] are rounded in the order of the
    fractions. *)
Lemma quotient_monotone (a b c d : positive) :
  Zpos a < 2 ^ 53 -> Zpos b < 2 ^ 53 -> Zpos c < 2 ^ 53 -> Zpos d < 2 ^ 53 ->
  Zpos a * Zpos d <= Zpos c * Zpos b ->
  SFleb (SF64div (of_positive a) (of_positive b))
        (SF64div (of_positive c) (of_positive d)) = true.
Proof.
  intros Ha Hb Hc Hd Hle.
  destruct (of_positive_facts a Ha) as (Hda & Hea & Hva).
  destruct (of_positive_facts b Hb) as (Hdb & Heb & Hvb).
  destruct (of_positive_facts c Hc) as (Hdc & Hec & Hvc).
  destruct (of_positive_facts d Hd) as (Hdd & Hed & Hvd).
  pose proof (SFdiv_rounded _ _ _ _ Hda Hdb Hea Heb) as Hx.
  pose proof (SFdiv_rounded _ _ _ _ Hdc Hdd Hec Hed) as Hy.
  refine (rounded_monotone_scales _ _ _ _ _ _ _ _ _ _ Hx Hy _); try lia.
  rewrite Hva, Hvb, Hvc, Hvd.
  set (ua := 53 - Zpos (digits2_pos a)) in *.
  set (ub := 53 - Zpos (digits2_pos b)) in *.
  set (uc := 53 - Zpos (digits2_pos c)) in *.
  set (ud := 53 - Zpos (digits2_pos d)) in *.
  replace (Zpos (digits2_pos a) - 53) with (- ua) by (subst ua; lia).
  replace (Zpos (digits2_pos b) - 53) with (- ub) by (subst ub; lia).
  replace (Zpos (digits2_pos c) - 53) with (- uc) by (subst uc; lia).
  replace (Zpos (digits2_pos d) - 53) with (- ud) by (subst ud; lia).
  set (ex := - ua - - ub - 53). set (ey := - uc - - ud - 53).
  set (mn := Z.min ex ey).
  assert (Hk : ua + (ex - mn) + ud = uc + (ey - mn) + ub)
    by (subst ex ey; lia).
  assert (Hpow : 2 ^ ua * 2 ^ (ex - mn) * 2 ^ ud =
                 2 ^ uc * 2 ^ (ey - mn) * 2 ^ ub).
  { rewrite <- !Z.pow_add_r by (subst mn ua ub uc ud; lia).
    f_equal. exact Hk. }
  assert (Hpos : 0 < 2 ^ ua * 2 ^ (ex - mn) * 2 ^ ud).
  { rewrite <- !Z.pow_add_r by (subst mn ua ub uc ud; lia).
    apply Z.pow_pos_nonneg; subst mn ua ub uc ud; lia. }
  replace (Zpos a * 2 ^ ua * 2 ^ 53 * 2 ^ (ex - mn) * (Zpos d * 2 ^ ud))
    with (Zpos a * Zpos d * 2 ^ 53 * (2 ^ ua * 2 ^ (ex - mn) * 2 ^ ud))
    by ring.
  replace (Zpos c * 2 ^ uc * 2 ^ 53 * 2 ^ (ey - mn) * (Zpos b * 2 ^ ub))
    with (Zpos c * Zpos b * 2 ^ 53 * (2 ^ uc * 2 ^ (ey - mn) * 2 ^ ub))
    by ring.
  rewrite <- Hpow.
  apply Z.mul_le_mono_nonneg_r; [lia |].
  apply Z.mul_le_mono_nonneg_r; [lia | exact Hle].
Qed.

(** The products by 100 of two numbers of 53 bits are rounded in the
    order of the numbers. *)
Lemma product_monotone (m m' : positive) (e e' : Z) :
  Zpos (digits2_pos m) = 53 -> Zpos (digits2_pos m') = 53 ->
  -1000 <= e <= 900 -> -1000 <= e' <= 900 ->
  SFleb (S754_finite false m e) (S754_finite false m' e') = true ->
  SFleb (SF64mul (S754_finite false m e) (Prim2SF 100))
        (SF64mul (S754_finite false m' e') (Prim2SF 100)) = true.
Proof.
  intros Hd Hd' He He' Hle.
  pose proof (digits2_pos_lower m) as Hl.
  pose proof (digits2_pos_upper m) as Hu.
  pose proof (digits2_pos_lower m') as Hl'.
  pose proof (digits2_pos_upper m') as Hu'.
  rewrite Hd in Hl, Hu. rewrite Hd' in Hl', Hu'.
  change (53 - 1) with 52 in Hl, Hl'.
  refine (rounded_monotone_scales _ _ _ _ _ _ _ _ _ _
            (SFmul_100_rounded m e Hd He) (SFmul_100_rounded m' e' Hd' He')
            _); try lia.
  rewrite !Z.mul_1_r.
  destruct (SFleb_finite _ _ _ _ Hle) as [Hlt | [Heq Hm]].
  - replace (Z.min (e - 46) (e' - 46)) with (e - 46) by lia.
    replace (e - 46 - (e - 46)) with 0 by lia.
    replace (e' - 46 - (e - 46)) with (1 + (e' - e - 1)) by lia.
    rewrite Z.pow_add_r by lia. change (2 ^ 0) with 1. change (2 ^ 1) with 2.
    assert (0 < 2 ^ (e' - e - 1)) by (apply Z.pow_pos_nonneg; lia).
    nia.
  - subst e'. replace (Z.min (e - 46) (e - 46)) with (e - 46) by lia.
    replace (e - 46 - (e - 46)) with 0 by lia. change (2 ^ 0) with 1. nia.
Qed.

(** The quotient of [a] by [b >= a]: a number of 53 bits with an
    exponent between -105 and -51. *)
Lemma quotient_finite (a b : positive) :
  Zpos a < 2 ^ 53 -> Zpos b < 2 ^ 53 -> Zpos a <= Zpos b ->
  exists (m : positive) (e : Z),
    SF64div (of_positive a) (of_positive b) = S754_finite false m e /\
    Zpos (digits2_pos m) = 53 /\ -105 <= e <= -51.
Proof.
  intros Ha Hb Hab.
  destruct (of_positive_facts a Ha) as (Hda & Hea & Hva).
  destruct (of_positive_facts b Hb) as (Hdb & Heb & Hvb).
  pose proof (SFdiv_rounded _ _ _ _ Hda Hdb Hea Heb) as Hx.
  destruct (rounded_finite (Zpos (aligned a) * 2 ^ 53) (Zpos (aligned b)) _ _
              ltac:(lia) Hx)
    as (j & m & e & Hj & [Hmag _] & Hf & Hd & He).
  exists m, e. split; [exact Hf |]. split; [exact Hd |].
  rewrite Hva, Hvb in Hmag.
  set (ua := 53 - Zpos (digits2_pos a)) in *.
  set (ub := 53 - Zpos (digits2_pos b)) in *.
  assert (Hle : 52 + j + ub <= ua + 53).
  { apply (Z.pow_le_mono_r_iff 2); [lia | lia |].
    rewrite !Z.pow_add_r by (subst ua ub; lia).
    rewrite Z.pow_add_r in Hmag by lia.
    assert (0 < 2 ^ ua) by (apply Z.pow_pos_nonneg; subst ua; lia).
    assert (0 < 2 ^ ub) by (apply Z.pow_pos_nonneg; subst ub; lia).
    assert (0 < 2 ^ j) by (apply Z.pow_pos_nonneg; lia).
    assert (Hab1 : Zpos a * (2 ^ ua * 2 ^ 53) <= Zpos b * (2 ^ ua * 2 ^ 53))
      by (apply Z.mul_le_mono_nonneg_r; nia).
    assert (Hab2 : Zpos b * (2 ^ 52 * 2 ^ j * 2 ^ ub) <=
                   Zpos b * (2 ^ ua * 2 ^ 53)) by lia.
    apply Z.mul_le_mono_pos_l in Hab2; lia. }
  subst ua ub. lia.
Qed.

Lemma rne_exact (t D : Z) : 0 < D -> rne (t * D) D = t.
Proof.
  intros HD. destruct (rne_spec (t * D) D HD) as (Hlt & _ & _).
  rewrite Z.mod_mul in Hlt by lia. rewrite Hlt by lia.
  apply Z.div_mul. lia.
Qed.

Lemma shl_align_fst (m : positive) (e e' : Z) :
  e' <= e -> Zpos (fst (shl_align m e e')) = Zpos m * 2 ^ (e - e').
Proof.
  intros He. unfold shl_align.
  destruct (e' - e) as [| d | d] eqn:Ed; cbn [fst].
  - replace (e - e') with 0 by lia. change (2 ^ 0) with 1. lia.
  - lia.
  - rewrite Zpos_iter_xO. f_equal. f_equal. lia.
Qed.

(** The sum of two positive integers is exact below [2^53]. *)
Lemma SFadd_of_positive (a b : positive) :
  Zpos (a + b) < 2 ^ 53 ->
  SF64add (of_positive a) (of_positive b) = of_positive (a + b).
Proof.
  intros Hs. rewrite Pos2Z.inj_add in Hs.
  destruct (of_positive_facts a ltac:(lia)) as (Hda & Hea & Hva).
  destruct (of_positive_facts b ltac:(lia)) as (Hdb & Heb & Hvb).
  destruct (of_positive_facts (a + b) ltac:(lia)) as (Hds & Hes & Hvs).
  pose proof (digits2_pos_lower a) as Hla.
  pose proof (digits2_pos_lower b) as Hlb.
  pose proof (digits2_pos_upper (a + b)) as Hus.
  pose proof (digits2_pos_lower (a + b)) as Hls.
  set (da := Zpos (digits2_pos a)) in *.
  set (db := Zpos (digits2_pos b)) in *.
  set (ds := Zpos (digits2_pos (a + b))) in *.
  assert (Hdas : da <= ds).
  { apply Z.nlt_ge. intros Hlt.
    assert (2 ^ ds <= 2 ^ (da - 1)) by (apply Z.pow_le_mono_r; lia). lia. }
  assert (Hdbs : db <= ds).
  { apply Z.nlt_ge. intros Hlt.
    assert (2 ^ ds <= 2 ^ (db - 1)) by (apply Z.pow_le_mono_r; lia). lia. }
  unfold of_positive at 1 2. fold da db. unfold SF64add, SFadd.
  cbn [cond_Zopp].
  set (ez := Z.min (da - 53) (db - 53)).
  rewrite (shl_align_fst (aligned a) (da - 53) ez ltac:(subst ez; lia)).
  rewrite (shl_align_fst (aligned b) (db - 53) ez ltac:(subst ez; lia)).
  rewrite Hva, Hvb.
  (* the sum of the mantissas is (a + b) * 2^(-ez) *)
  assert (Hsum : Zpos a * 2 ^ (53 - da) * 2 ^ (da - 53 - ez) +
                 Zpos b * 2 ^ (53 - db) * 2 ^ (db - 53 - ez) =
                 Zpos (aligned (a + b)) * 2 ^ (ds - 53 - ez)).
  { rewrite Hvs, Pos2Z.inj_add.
    rewrite <- !Z.mul_assoc, <- !Z.pow_add_r by (subst ez; lia).
    replace (53 - da + (da - 53 - ez)) with (- ez) by lia.
    replace (53 - db + (db - 53 - ez)) with (- ez) by lia.
    replace (53 - ds + (ds - 53 - ez)) with (- ez) by lia.
    ring. }
  rewrite Hsum.
  assert (Hpj : 0 < 2 ^ (ds - 53 - ez))
    by (apply Z.pow_pos_nonneg; subst ez; lia).
  destruct (Zpos (aligned (a + b)) * 2 ^ (ds - 53 - ez)) as [| pM | pM] eqn:EM;
    try lia.
  cbn [binary_normalize]. unfold binary_round.
  assert (HdM : Zpos (digits2_pos pM) = 53 + (ds - 53 - ez)).
  { apply digits2_pos_unique. rewrite <- EM.
    pose proof (digits2_pos_lower (aligned (a + b))) as Hl.
    pose proof (digits2_pos_upper (aligned (a + b))) as Hu.
    rewrite Hds in Hl, Hu. change (53 - 1) with 52 in Hl.
    replace (53 + (ds - 53 - ez) - 1) with (52 + (ds - 53 - ez)) by lia.
    rewrite !Z.pow_add_r by (subst ez; lia). nia. }
  rewrite HdM.
  replace (fexp prec emax (53 + (ds - 53 - ez) + ez)) with (ds - 53)
    by (unfold fexp, SpecFloat.emin; change prec with 53;
        change emax with 1024; lia).
  assert (Hal : shl_align pM ez (ds - 53) = (pM, ez)).
  { unfold shl_align. destruct (ds - 53 - ez) as [| d | d] eqn:Ed;
      try reflexivity. subst ez. lia. }
  rewrite Hal.
  destruct (binary_round_aux_normal (Zpos pM) 1 pM ez (ds - 53 - ez) loc_Exact)
    as [_ Hround]; try (subst ez; lia).
  { replace loc_Exact with (locate (Zpos pM) 1 (Zpos pM))
      by (unfold locate; rewrite Z.mul_1_r, Z.eqb_refl; reflexivity).
    apply shr_record_of_loc_stands_for; lia. }
  rewrite Hround. cbn zeta. rewrite Z.mul_1_l, <- EM.
  rewrite (rne_exact _ _ Hpj).
  pose proof (digits2_pos_upper (aligned (a + b))) as Hu.
  rewrite Hds in Hu.
  replace (Zpos (aligned (a + b)) <? 2 ^ 53) with true
    by (symmetry; apply Z.ltb_lt; exact Hu).
  unfold of_positive. fold ds. cbn [Z.to_pos]. f_equal. lia.
Qed.

(** The order of [SFcompare] is transitive: it is the lexicographic
    order of the sign, the exponent and the mantissa. *)
Lemma SFcompare_trans (x y z : spec_float) (c1 c2 : comparison) :
  SFcompare x y = Some c1 -> SFcompare y z = Some c2 ->
  c1 <> Gt -> c2 <> Gt ->
  exists c3 : comparison,
    SFcompare x z = Some c3 /\ c3 <> Gt /\
    (c1 = Lt \/ c2 = Lt -> c3 = Lt).
Proof.
  intros H1 H2 Hc1 Hc2.
  destruct x as [[] | [] | | [] mx ex], y as [[] | [] | | [] my ey];
    cbn [SFcompare] in H1; try discriminate H1;
    injection H1 as H1; subst c1; try (contradiction Hc1; reflexivity);
    destruct z as [[] | [] | | [] mz ez];
    cbn [SFcompare] in H2 |- *; try discriminate H2;
    injection H2 as H2; subst c2; try (contradiction Hc2; reflexivity);
    try (eexists; split; [reflexivity |]; split;
         [discriminate | intros [Hc | Hc]; (reflexivity || discriminate Hc)]);
    change (Pos.compare_cont Eq mx my) with (mx ?= my)%positive in *;
    change (Pos.compare_cont Eq my mz) with (my ?= mz)%positive in *;
    change (Pos.compare_cont Eq mx mz) with (mx ?= mz)%positive in *;
    eexists; (split; [reflexivity |]);
    destruct (Z.compare_spec ex ey), (Z.compare_spec ey ez),
      (Z.compare_spec ex ez); try lia;
    cbn [CompOpp] in *; try (contradiction Hc1; reflexivity);
    try (contradiction Hc2; reflexivity);
    try (split; [discriminate | intros _; reflexivity]);
    destruct (Pos.compare_spec mx my), (Pos.compare_spec my mz),
      (Pos.compare_spec mx mz); try lia;
    cbn [CompOpp] in *; try (contradiction Hc1; reflexivity);
    try (contradiction Hc2; reflexivity);
    (split; [discriminate |];
     intros [Hc | Hc]; (reflexivity || discriminate Hc)).
Qed.

End Rounding.

Section Operations.
Local Open Scope float_scope.

Lemma finite_exponent (x : float) (s : bool) (m : positive) (e : Z) :
  Prim2SF x = S754_finite s m e -> ((-1074) <= e)%Z.
Proof.
  intros Hx. apply (valid_exponent s m). rewrite <- Hx. apply Prim2SF_valid.
Qed.

(** [x + y] is [-0] only when both [x] and [y] are. *)
Lemma add_neg_zero (x y : float) :
  is_neg_zero (x + y) -> is_neg_zero x /\ is_neg_zero y.
Proof.
  unfold is_neg_zero. rewrite add_spec.
  destruct (Prim2SF x) as [[] | [] | | sx mx ex] eqn:Ex;
    destruct (Prim2SF y) as [[] | [] | | sy my ey] eqn:Ey;
    try (unfold SF64add, SFadd;
         (discriminate || (intros _; split; reflexivity))).
  intros Hz.
  destruct (SFadd_finite sx sy mx my ex ey
              (finite_exponent _ _ _ _ Ex) (finite_exponent _ _ _ _ Ey))
    as [E | [[(m & e & E) | E] | [(m & e & E) | E]]];
    cbn zeta in E; rewrite E in Hz; discriminate.
Qed.

(** [x + 0] is [x], except that [-0 + 0] is [+0]. *)
Lemma add_zero_r (x : float) : ~ is_neg_zero x -> x + 0 = x.
Proof.
  unfold is_neg_zero. intros Hx. apply Prim2SF_inj. rewrite add_spec.
  change (Prim2SF 0) with (S754_zero false).
  destruct (Prim2SF x) as [[] | [] | | s m e]; try reflexivity.
  contradiction Hx. reflexivity.
Qed.

Lemma div_diag (x : float) : finite_nonzero x -> x / x = 1.
Proof.
  intros (s & m & e & Hx). apply Prim2SF_inj.
  rewrite div_spec, Hx. apply SFdiv_diag.
Qed.

(** [0 < x]: [x] is a positive finite number or plus infinity. *)
Lemma ltb_zero (x : float) :
  (0 <? x) = true <->
  (exists m e, Prim2SF x = S754_finite false m e) \/ x = infinity.
Proof.
  rewrite ltb_spec. change (Prim2SF 0) with (S754_zero false).
  split.
  - intros Hlt. destruct (Prim2SF x) as [[] | [] | | [] m e] eqn:Ex;
      try discriminate.
    + right. apply Prim2SF_inj. exact Ex.
    + left. eauto.
  - intros [(m & e & Ex) | Ex]; [rewrite Ex | subst x]; reflexivity.
Qed.

Lemma add_pos (x y : float) :
  (0 <? x) = true -> (0 <? y) = true -> (0 <? x + y) = true.
Proof.
  rewrite !ltb_zero.
  intros [(mx & ex & Ex) | Ex] [(my & ey & Ey) | Ey].
  - destruct (SFadd_finite_pos mx my ex ey
                (finite_exponent _ _ _ _ Ex) (finite_exponent _ _ _ _ Ey))
      as [(m & e & E) | E].
    + left. exists m, e. rewrite add_spec, Ex, Ey. exact E.
    + right. apply Prim2SF_inj. rewrite add_spec, Ex, Ey. exact E.
  - right. apply Prim2SF_inj. rewrite add_spec, Ex. subst y. reflexivity.
  - right. apply Prim2SF_inj. rewrite add_spec, Ey. subst x. reflexivity.
  - right. subst. reflexivity.
Qed.

(** The comparison of the specification, read both ways. *)
Lemma SFcompare_antisym (x y : spec_float) :
  SFcompare y x = option_map CompOpp (SFcompare x y).
Proof.
  destruct x as [[] | [] | | [] mx ex], y as [[] | [] | | [] my ey];
    try reflexivity; cbn [SFcompare option_map];
    rewrite (Z.compare_antisym ey ex);
    destruct (ey ?= ex)%Z; cbn [CompOpp]; try reflexivity;
    rewrite (Pos.compare_cont_antisym mx my Eq); cbn [CompOpp];
    try rewrite CompOpp_involutive; reflexivity.
Qed.

(** [x <= y] rules out [y < x]. *)
Lemma leb_not_gt (x y : float) : (x <=? y) = true -> (y <? x) = false.
Proof.
  rewrite leb_spec, ltb_spec. unfold SFleb, SFltb.
  rewrite (SFcompare_antisym (Prim2SF x) (Prim2SF y)).
  destruct (SFcompare (Prim2SF x) (Prim2SF y)) as [[] |]; cbn; congruence.
Qed.

Lemma ltb_irrefl (x : float) : (x <? x) = false.
Proof.
  rewrite ltb_spec. unfold SFltb.
  pose proof (SFcompare_antisym (Prim2SF x) (Prim2SF x)) as Ha.
  destruct (SFcompare (Prim2SF x) (Prim2SF x)) as [[] |]; cbn in Ha;
    congruence.
Qed.

Lemma eqb_zero_not_pos (x : float) : (x =? 0) = true -> (0 <? x) = false.
Proof.
  rewrite eqb_spec, ltb_spec. change (Prim2SF 0) with (S754_zero false).
  destruct (Prim2SF x) as [[] | [] | | [] m e]; cbn; congruence.
Qed.

Lemma zero_not_neg_zero : ~ is_neg_zero 0.
Proof.
  unfold is_neg_zero. change (Prim2SF 0) with (S754_zero false). discriminate.
Qed.

Lemma SFcompare_refl (x : spec_float) :
  x <> S754_nan -> SFcompare x x = Some Eq.
Proof.
  destruct x as [[] | [] | | [] m e]; intros Hx; try reflexivity;
    try contradiction; cbn [SFcompare];
    rewrite Z.compare_refl, Pos.compare_cont_refl; reflexivity.
Qed.

(** The Numbers that ToBoolean takes to false: [0], [-0] and NaN. *)
Lemma falsy_number (x : float) :
  (is_zero x || is_nan x) = true <-> x = 0 \/ x = neg_zero \/ x = nan.
Proof.
  unfold is_zero, is_nan. rewrite !eqb_spec.
  change (Prim2SF zero) with (S754_zero false).
  split.
  - intros Hf. destruct (Prim2SF x) as [[] | [] | | [] m e] eqn:Ex;
      try (cbn in Hf; discriminate).
    + right. left. apply Prim2SF_inj. exact Ex.
    + left. apply Prim2SF_inj. exact Ex.
    + right. right. apply Prim2SF_inj. exact Ex.
    + unfold SFeqb in Hf. rewrite SFcompare_refl in Hf by discriminate.
      cbn in Hf. discriminate.
    + unfold SFeqb in Hf. rewrite SFcompare_refl in Hf by discriminate.
      cbn in Hf. discriminate.
  - intros [-> | [-> | ->]]; reflexivity.
Qed.

(** A length of at most 1000 is not above 1000. *)
Lemma length_within_1000 (n : nat) :
  (n <= 1000)%nat -> (1000 <? Z2F (Z.of_nat n)) = false.
Proof.
  intros Hn.
  assert (Hall : forallb (fun k => negb (1000 <? Z2F (Z.of_nat k)))
                         (seq 0 1001) = true) by (vm_compute; reflexivity).
  rewrite forallb_forall in Hall.
  apply negb_true_iff, Hall, in_seq. lia.
Qed.

(** A threshold that 0 meets is met by 100. *)
Lemma leb_zero_hundred (t : float) :
  (t <=? 0) = true -> (t <=? 100) = true.
Proof.
  rewrite !leb_spec. change (Prim2SF 0) with (S754_zero false).
  replace (Prim2SF 100) with (S754_finite false 7036874417766400 (-46))
    by (vm_compute; reflexivity).
  destruct (Prim2SF t) as [[] | [] | | [] m e]; intros Hle;
    try reflexivity; discriminate Hle.
Qed.

(** Plus infinity absorbs a positive Number. *)
Lemma infinity_add_pos (y : float) :
  (0 <? y) = true -> infinity + y = infinity.
Proof.
  rewrite ltb_zero. intros [(m & e & Ey) | ->]; [| reflexivity].
  apply Prim2SF_inj. rewrite add_spec, Ey. reflexivity.
Qed.

(** A positive finite Number has a mantissa. *)
Lemma finite_pos (x : float) :
  is_finite x = true -> (0 <? x) = true -> finite_nonzero x.
Proof.
  intros Hf Hx. apply ltb_zero in Hx. destruct Hx as [(m & e & Ex) | ->].
  - exists false, m, e. exact Ex.
  - vm_compute in Hf. discriminate.
Qed.

Lemma Z2F_small (p : positive) :
  (Zpos p < 2 ^ 53)%Z ->
  Prim2SF (Z2F (Zpos p)) =
  S754_finite false (aligned p) (Zpos (digits2_pos p) - 53).
Proof.
  intros Hp.
  assert (Hd : (Zpos (digits2_pos p) <= 53)%Z).
  { pose proof (digits2_pos_lower p) as Hl.
    apply Z.nlt_ge. intros Hlt.
    assert (2 ^ 53 <= 2 ^ (Zpos (digits2_pos p) - 1))%Z
      by (apply Z.pow_le_mono_r; lia).
    lia. }
  unfold Z2F. rewrite (binary_normalize_small p Hd).
  apply Prim2SF_SF2Prim. apply small_valid. exact Hd.
Qed.

(** The length of a string one character longer is above the length,
    as Numbers, up to 2^53. *)
Lemma Z2F_lt (a b : Z) :
  (0 <= a < b)%Z -> (b < 2 ^ 53)%Z -> (Z2F a <? Z2F b) = true.
Proof.
  intros Hab Hb. rewrite ltb_spec.
  destruct b as [| q | q]; try lia.
  rewrite (Z2F_small q Hb).
  destruct a as [| p | p]; try lia.
  - reflexivity.
  - rewrite (Z2F_small p ltac:(lia)). apply SFltb_small.
    + lia.
    + pose proof (digits2_pos_lower q) as Hl.
      apply Z.nlt_ge. intros Hlt.
      assert (2 ^ 53 <= 2 ^ (Zpos (digits2_pos q) - 1))%Z
        by (apply Z.pow_le_mono_r; lia).
      lia.
Qed.

Lemma ltb_leb (x y : float) : (x <? y) = true -> (x <=? y) = true.
Proof.
  rewrite ltb_spec, leb_spec. unfold SFltb, SFleb.
  destruct (SFcompare (Prim2SF x) (Prim2SF y)) as [[] |]; congruence.
Qed.

Lemma Z2F_zero : Z2F 0 = 0.
Proof. reflexivity. Qed.

Lemma Z2F_positive (p : positive) :
  (Zpos p < 2 ^ 53)%Z -> Prim2SF (Z2F (Zpos p)) = of_positive p.
Proof. apply Z2F_small. Qed.

(** Integers below [2^53] keep their order, the large one. *)
Lemma Z2F_le (a b : Z) :
  (0 <= a <= b)%Z -> (b < 2 ^ 53)%Z -> (Z2F a <=? Z2F b) = true.
Proof.
  intros Hab Hb. destruct (Z.eq_dec a b) as [-> | Hne].
  - rewrite leb_spec. unfold SFleb.
    destruct b as [| p | p]; try lia; [reflexivity |].
    rewrite Z2F_positive by lia. unfold of_positive.
    rewrite SFcompare_refl by discriminate. reflexivity.
  - apply ltb_leb, Z2F_lt; lia.
Qed.

(** [Math.round] on a positive number of 53 bits below [2^52]. *)
Lemma Math_round_small (x : float) (m k : positive) :
  Prim2SF x = S754_finite false m (Zneg k) ->
  Math_round x = Z2F ((2 * Zpos m + 2 ^ Zpos k) / 2 ^ (Zpos k + 1)).
Proof.
  intros Hx. unfold Math_round. rewrite Hx. rewrite andb_false_r.
  reflexivity.
Qed.

(** [Math.round] is monotone on the positive numbers of 53 bits below
    [2^52]. *)
Lemma Math_round_monotone (x y : float) (m m' : positive) (e e' : Z) :
  Prim2SF x = S754_finite false m e ->
  Prim2SF y = S754_finite false m' e' ->
  (Zpos (digits2_pos m) = 53)%Z -> (Zpos (digits2_pos m') = 53)%Z ->
  (e < 0)%Z -> (e' < 0)%Z ->
  (x <=? y) = true ->
  (Math_round x <=? Math_round y) = true.
Proof.
  intros Hx Hy Hd Hd' He He' Hle.
  pose proof (digits2_pos_lower m) as Hl.
  pose proof (digits2_pos_upper m) as Hu.
  pose proof (digits2_pos_lower m') as Hl'.
  pose proof (digits2_pos_upper m') as Hu'.
  rewrite Hd in Hl, Hu. rewrite Hd' in Hl', Hu'.
  change (53 - 1)%Z with 52%Z in Hl, Hl'.
  rewrite leb_spec, Hx, Hy in Hle.
  apply SFleb_finite in Hle.
  destruct e as [| k | k]; try lia. destruct e' as [| k' | k']; try lia.
  rewrite (Math_round_small x m k Hx), (Math_round_small y m' k' Hy).
  assert (Hpk : (0 < 2 ^ Zpos k)%Z) by (apply Z.pow_pos_nonneg; lia).
  assert (Hpk' : (0 < 2 ^ Zpos k')%Z) by (apply Z.pow_pos_nonneg; lia).
  assert (Hk1 : (2 ^ (Zpos k + 1) = 2 * 2 ^ Zpos k)%Z)
    by (rewrite Z.pow_add_r by lia; change (2 ^ 1)%Z with 2%Z; ring).
  assert (Hk1' : (2 ^ (Zpos k' + 1) = 2 * 2 ^ Zpos k')%Z)
    by (rewrite Z.pow_add_r by lia; change (2 ^ 1)%Z with 2%Z; ring).
  assert (H2k : (2 <= 2 ^ Zpos k)%Z).
  { change 2%Z with (2 ^ 1)%Z at 1. apply Z.pow_le_mono_r; lia. }
  assert (H2k' : (2 <= 2 ^ Zpos k')%Z).
  { change 2%Z with (2 ^ 1)%Z at 1. apply Z.pow_le_mono_r; lia. }
  apply Z2F_le.
  - split.
    + apply Z.div_pos; lia.
    + destruct Hle as [Hlt | [Heq Hm]].
      * (* e < e': k' < k *)
        assert (Hkk : (Zpos k = Zpos k' + (Zpos k - Zpos k'))%Z) by lia.
        assert (Hpd : (0 < 2 ^ (Zpos k - Zpos k'))%Z)
          by (apply Z.pow_pos_nonneg; lia).
        assert (H2d : (2 <= 2 ^ (Zpos k - Zpos k'))%Z).
        { change 2%Z with (2 ^ 1)%Z at 1. apply Z.pow_le_mono_r; lia. }
        assert (Hsplit : (2 ^ Zpos k = 2 ^ Zpos k' * 2 ^ (Zpos k - Zpos k'))%Z)
          by (rewrite <- Z.pow_add_r by lia; f_equal; lia).
        rewrite <- (Z.div_mul_cancel_r (2 * Zpos m' + 2 ^ Zpos k')
                      (2 ^ (Zpos k' + 1)) (2 ^ (Zpos k - Zpos k')))
          by lia.
        replace (2 ^ (Zpos k' + 1) * 2 ^ (Zpos k - Zpos k'))%Z
          with (2 ^ (Zpos k + 1))%Z by (rewrite Hk1, Hk1', Hsplit; ring).
        apply Z.div_le_mono; [lia |].
        rewrite Z.mul_add_distr_r, <- Hsplit. nia.
      * injection Heq as ->. apply Z.div_le_mono; lia.
  - apply Z.div_lt_upper_bound; [lia |]. rewrite Hk1'. nia.
Qed.

(** Adding integers is exact below [2^53]. *)
Lemma Z2F_add (a b : Z) :
  (0 <= a)%Z -> (0 <= b)%Z -> (a + b < 2 ^ 53)%Z ->
  Z2F a + Z2F b = Z2F (a + b).
Proof.
  intros Ha Hb Hs. apply Prim2SF_inj. rewrite add_spec.
  destruct a as [| pa | pa]; try lia; destruct b as [| pb | pb]; try lia.
  - reflexivity.
  - rewrite Z2F_zero. change (Prim2SF 0) with (S754_zero false).
    cbn [Z.add]. rewrite Z2F_positive by lia. reflexivity.
  - rewrite Z2F_zero. change (Prim2SF 0) with (S754_zero false).
    cbn [Z.add]. rewrite Z2F_positive by lia. reflexivity.
  - cbn [Z.add]. rewrite !Z2F_positive by lia.
    apply SFadd_of_positive. lia.
Qed.

(** The percentage of two integers below [2^53], as line 70 computes
    it: monotone in the fraction. *)
Lemma percent_monotone (a b c d : positive) :
  (Zpos a <= Zpos b < 2 ^ 53)%Z -> (Zpos c <= Zpos d < 2 ^ 53)%Z ->
  (Zpos a * Zpos d <= Zpos c * Zpos b)%Z ->
  (Math_round (Z2F (Zpos a) / Z2F (Zpos b) * 100) <=?
   Math_round (Z2F (Zpos c) / Z2F (Zpos d) * 100)) = true.
Proof.
  intros Hab Hcd Hle.
  destruct (quotient_finite a b ltac:(lia) ltac:(lia) ltac:(lia))
    as (m1 & e1 & Hq1 & Hd1 & He1).
  destruct (quotient_finite c d ltac:(lia) ltac:(lia) ltac:(lia))
    as (m2 & e2 & Hq2 & Hd2 & He2).
  pose proof (quotient_monotone a b c d ltac:(lia) ltac:(lia) ltac:(lia)
                ltac:(lia) Hle) as Hqle.
  rewrite Hq1, Hq2 in Hqle.
  pose proof (product_monotone m1 m2 e1 e2 Hd1 Hd2 ltac:(lia) ltac:(lia) Hqle)
    as Hple.
  assert (Hprod : forall (m : positive) (e : Z),
             (Zpos (digits2_pos m) = 53)%Z -> (-105 <= e <= -51)%Z ->
             exists (m3 : positive) (e3 : Z),
               SF64mul (S754_finite false m e) (Prim2SF 100) =
               S754_finite false m3 e3 /\
               (Zpos (digits2_pos m3) = 53)%Z /\ (e3 < 0)%Z).
  { intros m e Hd He.
    pose proof (digits2_pos_upper m) as Hu. rewrite Hd in Hu.
    destruct (rounded_finite (Zpos m * 7036874417766400) 1 _ _ ltac:(lia)
                (SFmul_100_rounded m e Hd ltac:(lia)))
      as (j & m3 & e3 & Hj & [Hmag _] & Hf & Hd3 & He3).
    exists m3, e3. split; [exact Hf |]. split; [exact Hd3 |].
    assert (Hj53 : (52 + j < 106)%Z).
    { apply (Z.pow_lt_mono_r_iff 2); [lia | lia |]. lia. }
    lia. }
  destruct (Hprod m1 e1 Hd1 He1) as (m3 & e3 & Hp1 & Hd3 & He3).
  destruct (Hprod m2 e2 Hd2 He2) as (m4 & e4 & Hp2 & Hd4 & He4).
  assert (Hx : Prim2SF (Z2F (Zpos a) / Z2F (Zpos b) * 100) =
               S754_finite false m3 e3).
  { rewrite mul_spec, div_spec, !Z2F_positive by lia.
    rewrite Hq1. exact Hp1. }
  assert (Hy : Prim2SF (Z2F (Zpos c) / Z2F (Zpos d) * 100) =
               S754_finite false m4 e4).
  { rewrite mul_spec, div_spec, !Z2F_positive by lia.
    rewrite Hq2. exact Hp2. }
  apply (Math_round_monotone _ _ m3 m4 e3 e4 Hx Hy Hd3 Hd4 He3 He4).
  rewrite leb_spec, Hx, Hy, <- Hp1, <- Hp2. exact Hple.
Qed.

(** A Number with a finite representation is finite. *)
Lemma finite_is_finite (x : float) (s : bool) (m : positive) (e : Z) :
  Prim2SF x = S754_finite s m e -> is_finite x = true.
Proof.
  intros Ex. unfold is_finite, is_nan, is_infinity.
  rewrite !eqb_spec, abs_spec, Ex. cbn [SFabs].
  unfold SFeqb. rewrite SFcompare_refl by discriminate.
  reflexivity.
Qed.

Lemma Z2F_finite (z : Z) :
  (0 <= z < 2 ^ 53)%Z -> is_finite (Z2F z) = true.
Proof.
  intros Hz. destruct z as [| p | p]; try lia; [reflexivity |].
  apply (finite_is_finite _ false (aligned p) (Zpos (digits2_pos p) - 53)).
  apply Z2F_positive. lia.
Qed.

(** The product by 100 of a quotient of integers below [2^53], the
    smaller over the larger: a positive number of 53 bits below
    [2^52]. *)
Lemma percent_finite (a b : positive) :
  (Zpos a <= Zpos b < 2 ^ 53)%Z ->
  exists (m : positive) (e : Z),
    Prim2SF (Z2F (Zpos a) / Z2F (Zpos b) * 100) = S754_finite false m e /\
    (Zpos (digits2_pos m) = 53)%Z /\ (e < 0)%Z.
Proof.
  intros Hab.
  destruct (quotient_finite a b ltac:(lia) ltac:(lia) ltac:(lia))
    as (m1 & e1 & Hq1 & Hd1 & He1).
  pose proof (digits2_pos_upper m1) as Hu. rewrite Hd1 in Hu.
  destruct (rounded_finite (Zpos m1 * 7036874417766400) 1 _ _ ltac:(lia)
              (SFmul_100_rounded m1 e1 Hd1 ltac:(lia)))
    as (j & m3 & e3 & Hj & [Hmag _] & Hf & Hd3 & He3).
  exists m3, e3. split; [| split; [exact Hd3 |]].
  - rewrite mul_spec, div_spec, !Z2F_positive by lia.
    rewrite Hq1. exact Hf.
  - assert (Hj53 : (52 + j < 106)%Z).
    { apply (Z.pow_lt_mono_r_iff 2); [lia | lia |]. lia. }
    lia.
Qed.

(** The percentage of line 70 is not negative. *)
Lemma percent_nonneg (a b : positive) :
  (Zpos a <= Zpos b < 2 ^ 53)%Z ->
  (0 <=? Math_round (Z2F (Zpos a) / Z2F (Zpos b) * 100)) = true.
Proof.
  intros Hab. destruct (percent_finite a b Hab) as (m & e & Hx & Hd & He).
  destruct e as [| k | k]; try lia.
  rewrite (Math_round_small _ m k Hx).
  pose proof (digits2_pos_upper m) as Hu. rewrite Hd in Hu.
  assert (Hpk : (0 < 2 ^ Zpos k)%Z) by (apply Z.pow_pos_nonneg; lia).
  assert (Hk1 : (2 ^ (Zpos k + 1) = 2 * 2 ^ Zpos k)%Z)
    by (rewrite Z.pow_add_r by lia; change (2 ^ 1)%Z with 2%Z; ring).
  assert (H2k : (2 <= 2 ^ Zpos k)%Z).
  { change 2%Z with (2 ^ 1)%Z at 1. apply Z.pow_le_mono_r; lia. }
  rewrite <- Z2F_zero. apply Z2F_le.
  - split; [lia |]. apply Z.div_pos; lia.
  - apply Z.div_lt_upper_bound; [lia |]. rewrite Hk1. nia.
Qed.

(** Nothing earned: the percentage is 0. *)
Lemma percent_zero (b : positive) :
  (Zpos b < 2 ^ 53)%Z ->
  Math_round (Z2F 0 / Z2F (Zpos b) * 100) = 0.
Proof.
  intros Hb.
  assert (Hq : Z2F 0 / Z2F (Zpos b) = 0).
  { apply Prim2SF_inj. rewrite div_spec, Z2F_positive by lia. reflexivity. }
  rewrite Hq. reflexivity.
Qed.

(** Line 70 on integer sums: [E] earned out of [T], and [k] more
    earned out of [k] more. *)
Lemma percent_le (E T k : Z) :
  (0 <= E <= T)%Z -> (0 < k)%Z -> (T + k < 2 ^ 53)%Z ->
  ((if 0 <? Z2F T then Math_round (Z2F E / Z2F T * 100) else 0) <=?
   Math_round (Z2F (E + k) / Z2F (T + k) * 100)) = true.
Proof.
  intros HE Hk HT.
  destruct (E + k)%Z as [| c | c] eqn:Ec; try lia.
  destruct (T + k)%Z as [| d | d] eqn:Ed; try lia.
  destruct T as [| b | b]; try lia.
  - change (0 <? Z2F 0) with false. cbn iota. apply percent_nonneg. lia.
  - pose proof (Z2F_lt 0 (Zpos b) ltac:(lia) ltac:(lia)) as Hlt.
    rewrite Z2F_zero in Hlt. rewrite Hlt.
    destruct E as [| a | a]; try lia.
    + rewrite percent_zero by lia. apply percent_nonneg. lia.
    + apply percent_monotone; try lia. nia.
Qed.

Lemma leb_trans (x y z : float) :
  (x <=? y) = true -> (y <=? z) = true -> (x <=? z) = true.
Proof.
  rewrite !leb_spec. unfold SFleb. intros Hxy Hyz.
  destruct (SFcompare (Prim2SF x) (Prim2SF y)) as [c1 |] eqn:E1;
    [| discriminate].
  destruct (SFcompare (Prim2SF y) (Prim2SF z)) as [c2 |] eqn:E2;
    [| discriminate].
  destruct (SFcompare_trans _ _ _ c1 c2 E1 E2) as (c3 & -> & Hc3 & _).
  - destruct c1; congruence.
  - destruct c2; congruence.
  - destruct c3; congruence.
Qed.

Lemma ltb_leb_trans (x y z : float) :
  (x <? y) = true -> (y <=? z) = true -> (x <? z) = true.
Proof.
  rewrite leb_spec, !ltb_spec. unfold SFleb, SFltb. intros Hxy Hyz.
  destruct (SFcompare (Prim2SF x) (Prim2SF y)) as [c1 |] eqn:E1;
    [| discriminate].
  destruct (SFcompare (Prim2SF y) (Prim2SF z)) as [c2 |] eqn:E2;
    [| discriminate].
  destruct (SFcompare_trans _ _ _ c1 c2 E1 E2) as (c3 & -> & _ & Hlt).
  - destruct c1; congruence.
  - destruct c2; congruence.
  - rewrite Hlt; [reflexivity |]. left. destruct c1; congruence.
Qed.

(** The order of the integers below [2^53] is the order of their
    Numbers. *)
Lemma Z2F_le_inv (a b : Z) :
  (0 <= a < 2 ^ 53)%Z -> (0 <= b < 2 ^ 53)%Z ->
  (Z2F a <=? Z2F b) = true -> (a <= b)%Z.
Proof.
  intros Ha Hb Hle. apply Z.nlt_ge. intros Hlt.
  apply leb_not_gt in Hle.
  rewrite (Z2F_lt b a) in Hle by lia. discriminate.
Qed.

Lemma Z2F_inj (a b : Z) :
  (0 <= a < 2 ^ 53)%Z -> (0 <= b < 2 ^ 53)%Z -> Z2F a = Z2F b -> a = b.
Proof.
  intros Ha Hb Hab.
  assert (a <= b)%Z
    by (apply Z2F_le_inv; try assumption; rewrite Hab; apply Z2F_le; lia).
  assert (b <= a)%Z
    by (apply Z2F_le_inv; try assumption; rewrite Hab; apply Z2F_le; lia).
  lia.
Qed.

(** The percentage of line 70 is an integer. *)
Lemma percent_integer (a b : positive) :
  (Zpos a <= Zpos b < 2 ^ 53)%Z ->
  exists s : Z,
    (0 <= s < 2 ^ 53)%Z /\
    Math_round (Z2F (Zpos a) / Z2F (Zpos b) * 100) = Z2F s.
Proof.
  intros Hab. destruct (percent_finite a b Hab) as (m & e & Hx & Hd & He).
  destruct e as [| k | k]; try lia.
  rewrite (Math_round_small _ m k Hx).
  pose proof (digits2_pos_upper m) as Hu. rewrite Hd in Hu.
  assert (Hpk : (0 < 2 ^ Zpos k)%Z) by (apply Z.pow_pos_nonneg; lia).
  assert (Hk1 : (2 ^ (Zpos k + 1) = 2 * 2 ^ Zpos k)%Z)
    by (rewrite Z.pow_add_r by lia; change (2 ^ 1)%Z with 2%Z; ring).
  assert (H2k : (2 <= 2 ^ Zpos k)%Z).
  { change 2%Z with (2 ^ 1)%Z at 1. apply Z.pow_le_mono_r; lia. }
  eexists. split; [| reflexivity]. split.
  - apply Z.div_pos; lia.
  - apply Z.div_lt_upper_bound; [lia |]. rewrite Hk1. nia.
Qed.

(** A whole number of hundredths is its own percentage. *)
Lemma hundredths (n : Z) :
  (1 <= n <= 100)%Z -> Math_round (Z2F n / Z2F 100 * 100) = Z2F n.
Proof.
  intros Hn.
  assert (Hall : forall k : nat,
             (k < 100)%nat ->
             Math_round (Z2F (Z.of_nat (S k)) / Z2F 100 * 100) =
             Z2F (Z.of_nat (S k))).
  { intros k Hk.
    do 100 (destruct k as [| k]; [vm_compute; reflexivity |]). lia. }
  replace n with (Z.of_nat (S (Z.to_nat (n - 1)))) by lia.
  apply Hall. lia.
Qed.

(** The score of line 70 on integer sums is an integer between 0 and
    100 that differs from the exact percentage by less than 1. *)
Lemma percent_accuracy (E T : Z) :
  (0 <= E <= T)%Z -> (0 < T < 2 ^ 53)%Z ->
  exists s : Z,
    LintAI.percent E T = Z2F s /\ (0 <= s <= 100)%Z /\
    ((s - 1) * T < 100 * E < (s + 1) * T)%Z.
Proof.
  intros HE HT. unfold LintAI.percent.
  pose proof (Z2F_lt 0 T ltac:(lia) ltac:(lia)) as Hpos.
  rewrite Z2F_zero in Hpos. rewrite Hpos.
  destruct T as [| b | b]; try lia.
  destruct E as [| a | a]; try lia.
  - exists 0%Z. rewrite percent_zero by lia. split; [reflexivity |]. lia.
  - destruct (percent_integer a b ltac:(lia)) as (s & Hs & Es).
    exists s. split; [exact Es |].
    (* the integers [lo] and [hi] around the exact percentage *)
    set (lo := (100 * Zpos a / Zpos b)%Z).
    set (hi := ((100 * Zpos a + Zpos b - 1) / Zpos b)%Z).
    assert (Hlo : (lo * Zpos b <= 100 * Zpos a < (lo + 1) * Zpos b)%Z).
    { subst lo. pose proof (Z.div_mod (100 * Zpos a) (Zpos b) ltac:(lia)).
      pose proof (Z.mod_pos_bound (100 * Zpos a) (Zpos b) ltac:(lia)). nia. }
    assert (Hhi : ((hi - 1) * Zpos b < 100 * Zpos a <= hi * Zpos b)%Z).
    { subst hi.
      pose proof (Z.div_mod (100 * Zpos a + Zpos b - 1) (Zpos b) ltac:(lia)).
      pose proof (Z.mod_pos_bound (100 * Zpos a + Zpos b - 1) (Zpos b)
                    ltac:(lia)).
      nia. }
    assert (Hlo100 : (0 <= lo <= 100)%Z) by nia.
    assert (Hhi100 : (1 <= hi <= 100)%Z) by nia.
    assert (Hls : (lo <= s)%Z).
    { destruct (Z.eq_dec lo 0) as [-> | Hne]; [lia |].
      destruct lo as [| l | l] eqn:El; try lia.
      apply Z2F_le_inv; [lia | lia |]. rewrite <- Es.
      rewrite <- (hundredths (Zpos l)) by lia.
      apply percent_monotone; lia. }
    assert (Hsh : (s <= hi)%Z).
    { destruct hi as [| h | h] eqn:Eh; try lia.
      apply Z2F_le_inv; [lia | lia |]. rewrite <- Es.
      rewrite <- (hundredths (Zpos h)) by lia.
      apply percent_monotone; lia. }
    split; [lia |]. nia.
Qed.

(** Equal fractions have the same score. *)
Lemma percent_ratio (E T E' T' : Z) :
  (0 <= E <= T)%Z -> (0 < T < 2 ^ 53)%Z ->
  (0 <= E' <= T')%Z -> (0 < T' < 2 ^ 53)%Z ->
  (E * T' = E' * T)%Z ->
  LintAI.percent E T = LintAI.percent E' T'.
Proof.
  intros HE HT HE' HT' Heq. unfold LintAI.percent.
  pose proof (Z2F_lt 0 T ltac:(lia) ltac:(lia)) as Hpos.
  pose proof (Z2F_lt 0 T' ltac:(lia) ltac:(lia)) as Hpos'.
  rewrite Z2F_zero in Hpos, Hpos'. rewrite Hpos, Hpos'.
  destruct T as [| b | b]; try lia. destruct T' as [| d | d]; try lia.
  destruct E as [| a | a]; try lia.
  - assert (E' = 0)%Z as -> by nia. rewrite !percent_zero by lia.
    reflexivity.
  - destruct E' as [| c | c]; try lia.
    destruct (percent_integer a b ltac:(lia)) as (s & Hs & Es).
    destruct (percent_integer c d ltac:(lia)) as (s' & Hs' & Es').
    pose proof (percent_monotone a b c d ltac:(lia) ltac:(lia) ltac:(lia))
      as H1.
    pose proof (percent_monotone c d a b ltac:(lia) ltac:(lia) ltac:(lia))
      as H2.
    rewrite Es, Es' in *.
    apply Z2F_le_inv in H1; [| lia | lia].
    apply Z2F_le_inv in H2; [| lia | lia].
    f_equal. lia.
Qed.

(** A Number below 0: what [x || 70] keeps and [<= 0] accepts. *)
Lemma negative_threshold (p : float) :
  ((if negb (is_zero p || is_nan p) then p else 70) <=? 0) = (p <? 0).
Proof.
  assert (Hcond : (is_zero p || is_nan p) =
                  match Prim2SF p with
                  | S754_zero _ | S754_nan => true
                  | _ => false
                  end).
  { unfold is_zero, is_nan. rewrite !eqb_spec.
    change (Prim2SF zero) with (S754_zero false).
    destruct (Prim2SF p) as [[] | [] | | [] m e]; try reflexivity;
      unfold SFeqb; rewrite SFcompare_refl by discriminate; reflexivity. }
  rewrite Hcond, ltb_spec.
  change (Prim2SF 0) with (S754_zero false).
  destruct (Prim2SF p) as [[] | [] | | [] m e] eqn:Ep; cbn [negb];
    try reflexivity; rewrite leb_spec, Ep; reflexivity.
Qed.

(** Line 70 on integer sums is monotone in the fraction. *)
Lemma percent_mono (E T E' T' : Z) :
  (0 <= E <= T)%Z -> (0 < T < 2 ^ 53)%Z ->
  (0 <= E' <= T')%Z -> (0 < T' < 2 ^ 53)%Z ->
  (E * T' <= E' * T)%Z ->
  (LintAI.percent E T <=? LintAI.percent E' T') = true.
Proof.
  intros HE HT HE' HT' Hle. unfold LintAI.percent.
  pose proof (Z2F_lt 0 T ltac:(lia) ltac:(lia)) as Hpos.
  pose proof (Z2F_lt 0 T' ltac:(lia) ltac:(lia)) as Hpos'.
  rewrite Z2F_zero in Hpos, Hpos'. rewrite Hpos, Hpos'.
  destruct T as [| b | b]; try lia. destruct T' as [| d | d]; try lia.
  destruct E' as [| c | c]; try lia.
  - assert (E = 0)%Z as -> by nia. rewrite !percent_zero by lia.
    reflexivity.
  - destruct E as [| a | a]; try lia.
    + rewrite percent_zero by lia. apply percent_nonneg. lia.
    + apply percent_monotone; lia.
Qed.

(** Nothing out of a positive total is 0. *)
Lemma zero_percent (t : float) :
  (0 <? t) = true -> Math_round (0 / t * 100) = 0.
Proof.
  intros Ht. apply ltb_zero in Ht.
  assert (Hq : 0 / t = 0).
  { destruct Ht as [(m & e & Et) | ->]; [| reflexivity].
    apply Prim2SF_inj. rewrite div_spec, Et. reflexivity. }
  rewrite Hq. reflexivity.
Qed.

(** ** Line 70 against rounding a half up

    The score of [E] out of [T], for a total up to [2^45], between the
    scores of the fractions just below and just above each half. *)
Lemma below_half (k : Z) :
  (0 <= k <= 99)%Z ->
  LintAI.percent ((2 * k + 1) * 2 ^ 45 - 1) (200 * 2 ^ 45) = Z2F k.
Proof.
  intros Hk.
  assert (Hall : forall n : nat,
             (n < 100)%nat ->
             LintAI.percent ((2 * Z.of_nat n + 1) * 2 ^ 45 - 1)
               (200 * 2 ^ 45) = Z2F (Z.of_nat n)).
  { intros n Hn.
    do 100 (destruct n as [| n]; [vm_compute; reflexivity |]). lia. }
  replace k with (Z.of_nat (Z.to_nat k)) by lia. apply Hall. lia.
Qed.

Lemma above_half (k : Z) :
  (0 <= k <= 99)%Z ->
  LintAI.percent ((2 * k + 1) * 2 ^ 45 + 1) (200 * 2 ^ 45) = Z2F (k + 1).
Proof.
  intros Hk.
  assert (Hall : forall n : nat,
             (n < 100)%nat ->
             LintAI.percent ((2 * Z.of_nat n + 1) * 2 ^ 45 + 1)
               (200 * 2 ^ 45) = Z2F (Z.of_nat n + 1)).
  { intros n Hn.
    do 100 (destruct n as [| n]; [vm_compute; reflexivity |]). lia. }
  replace k with (Z.of_nat (Z.to_nat k)) by lia. apply Hall. lia.
Qed.

(** On a half, line 70 gives the integer below for [14.5], [28.5],
    [56.5] and [57.5], and the integer above for the others. *)
Lemma on_half (k : Z) :
  (0 <= k <= 99)%Z ->
  LintAI.percent (2 * k + 1) 200 =
  Z2F (if existsb (Z.eqb k) LintAI.low_ties then k else k + 1).
Proof.
  intros Hk.
  assert (Hall : forall n : nat,
             (n < 100)%nat ->
             LintAI.percent (2 * Z.of_nat n + 1) 200 =
             Z2F (if existsb (Z.eqb (Z.of_nat n)) LintAI.low_ties
                  then Z.of_nat n else Z.of_nat n + 1)).
  { intros n Hn.
    do 100 (destruct n as [| n]; [vm_compute; reflexivity |]). lia. }
  replace k with (Z.of_nat (Z.to_nat k)) by lia. apply Hall. lia.
Qed.

(** Line 70 on integer sums up to [2^45] rounds the exact percentage
    to the nearest integer, a half going up, except on the four halves
    that binary64 rounds down. *)
Lemma percent_half_up (E T : Z) :
  (0 <= E <= T)%Z -> (0 < T <= 2 ^ 45)%Z ->
  LintAI.percent E T =
  Z2F (LintAI.half_up E T - if LintAI.low_tie E T then 1 else 0).
Proof.
  intros HE HT.
  destruct (percent_accuracy E T HE ltac:(lia)) as (s & Es & Hs & Hnear).
  rewrite Es. f_equal.
  unfold LintAI.half_up, LintAI.low_tie.
  set (k := (100 * E / T)%Z).
  assert (Hk : (k * T <= 100 * E < (k + 1) * T)%Z).
  { subst k. pose proof (Z.div_mod (100 * E) T ltac:(lia)).
    pose proof (Z.mod_pos_bound (100 * E) T ltac:(lia)). nia. }
  assert (Hk100 : (0 <= k <= 100)%Z) by nia.
  assert (Hks : (k <= s <= k + 1)%Z) by nia.
  assert (Hbig : (200 * 2 ^ 45 < 2 ^ 53)%Z) by (vm_compute; reflexivity).
  assert (Hpow : (0 < 2 ^ 45)%Z) by (vm_compute; reflexivity).
  destruct (Z.compare_spec (200 * E) ((2 * k + 1) * T)) as [Heq | Hlt | Hgt].
  - (* on the half *)
    rewrite (proj2 (Z.eqb_eq _ _) Heq). cbn [andb].
    assert (Hk99 : (0 <= k <= 99)%Z) by nia.
    assert (Hup : ((200 * E + T) / (2 * T) = k + 1)%Z).
    { symmetry. apply Z.div_unique with (r := 0%Z); lia. }
    rewrite Hup.
    pose proof (percent_ratio E T (2 * k + 1) 200 HE ltac:(lia)
                  ltac:(lia) ltac:(lia) ltac:(lia)) as Hratio.
    rewrite Es, (on_half k Hk99) in Hratio.
    apply Z2F_inj in Hratio; [| lia |].
    + rewrite Hratio. destruct (existsb (Z.eqb k) LintAI.low_ties); lia.
    + destruct (existsb (Z.eqb k) LintAI.low_ties); lia.
  - (* below the half *)
    assert (Hne : (200 * E =? (2 * k + 1) * T)%Z = false)
      by (apply Z.eqb_neq; lia).
    rewrite Hne. cbn [andb].
    assert (Hdown : ((200 * E + T) / (2 * T) = k)%Z).
    { symmetry.
      apply Z.div_unique with (r := (200 * E + T - 2 * T * k)%Z); lia. }
    rewrite Hdown, Z.sub_0_r.
    destruct (Z.eq_dec k 100) as [-> | Hk99]; [lia |].
    assert (Hle : (s <= k)%Z).
    { apply Z2F_le_inv; [lia | lia |].
      rewrite <- Es, <- (below_half k ltac:(lia)).
      apply percent_mono; lia. }
    lia.
  - (* above the half *)
    assert (Hne : (200 * E =? (2 * k + 1) * T)%Z = false)
      by (apply Z.eqb_neq; lia).
    rewrite Hne. cbn [andb].
    assert (Hk99 : (0 <= k <= 99)%Z) by nia.
    assert (Hup : ((200 * E + T) / (2 * T) = k + 1)%Z).
    { symmetry.
      apply Z.div_unique with (r := (200 * E + T - 2 * T * (k + 1))%Z);
        lia. }
    rewrite Hup, Z.sub_0_r.
    assert (Hge : (k + 1 <= s)%Z).
    { apply Z2F_le_inv; [lia | lia |].
      rewrite <- Es, <- (above_half k Hk99).
      apply percent_mono; lia. }
    lia.
Qed.

(** A positive integer below [2^53] is truthy. *)
Lemma Z2F_truthy (p : positive) :
  (Zpos p < 2 ^ 53)%Z ->
  (is_zero (Z2F (Zpos p)) || is_nan (Z2F (Zpos p))) = false.
Proof.
  intros Hp. apply not_true_is_false. intros Hf.
  apply falsy_number in Hf.
  pose proof (Z2F_positive p Hp) as Hrep. unfold of_positive in Hrep.
  destruct Hf as [Hf | [Hf | Hf]]; rewrite Hf in Hrep; vm_compute in Hrep;
    discriminate.
Qed.

End Operations.

End Binary64.

(** * The loop and the validation *)

Module Loop.
Import JS LintAI.

Section Loop.
Context {H : Host}.

Lemma bind_normal {A B : Type} (c : completion A) (k : A -> completion B)
      (b : B) :
  bind c k = Normal b -> exists a, c = Normal a /\ k a = Normal b.
Proof.
  destruct c as [a | e]; cbn [bind]; intros Hb; [eauto | discriminate].
Qed.

Lemma bind_normal_or_throw (z : completion string) (k : string -> string)
      (e : error) :
  (let* x := z in Normal (k x)) = Throw e -> z = Throw e.
Proof. destruct z; cbn [bind]; [discriminate | auto]. Qed.

(** ** Conversions *)

Lemma primitive_converts (v : value) :
  primitive v = true -> ToPrimitive v = Normal v.
Proof. destruct v; cbn; congruence. Qed.

Lemma ToPrimitive_primitive (v p : value) :
  ToPrimitive v = Normal p -> primitive p = true.
Proof.
  destruct v; cbn [ToPrimitive]; intros Hp;
    try (injection Hp as <-; reflexivity);
    apply bind_normal in Hp; destruct Hp as (s & _ & Hp);
    injection Hp as <-; reflexivity.
Qed.

Lemma ToString_primitive (p : value) :
  primitive p = true -> exists s, ToString p = Normal s.
Proof.
  destruct p as [| | [] | x | s | l | f]; cbn; intros Hp;
    try discriminate; eauto.
Qed.

Lemma ToNumber_primitive (p : value) :
  primitive p = true -> ToNumber p = Normal (number_of p).
Proof.
  destruct p as [| | [] | x | s | l | f]; cbn; intros Hp;
    try discriminate; reflexivity.
Qed.

Lemma number_of_num (x : float) : number_of (VNum x) = x.
Proof. reflexivity. Qed.

Lemma added_num (a b : float) : added (VNum a) (VNum b) = VNum (a + b).
Proof. reflexivity. Qed.

Lemma js_add_added (a b c : value) : js_add a b = Normal c -> added a b = c.
Proof. unfold added. intros ->. reflexivity. Qed.

(** A sum that completes is a primitive, and its right side
    converts. *)
Lemma js_add_normal (a b c : value) :
  js_add a b = Normal c -> primitive c = true /\ converts b.
Proof.
  unfold js_add. intros Hc.
  apply bind_normal in Hc. destruct Hc as (pa & Hpa & Hc).
  apply bind_normal in Hc. destruct Hc as (pb & Hpb & Hc).
  split; [| exists pb; exact Hpb].
  destruct (stringish pa || stringish pb).
  - apply bind_normal in Hc. destruct Hc as (sa & _ & Hc).
    apply bind_normal in Hc. destruct Hc as (sb & _ & Hc).
    injection Hc as <-. reflexivity.
  - apply bind_normal in Hc. destruct Hc as (x & _ & Hc).
    apply bind_normal in Hc. destruct Hc as (y & _ & Hc).
    injection Hc as <-. reflexivity.
Qed.

(** On a primitive, a sum completes when its right side converts. *)
Lemma added_converts (a b : value) :
  primitive a = true -> converts b -> js_add a b = Normal (added a b).
Proof.
  intros Ha (pb & Hpb).
  assert (Hc : exists c, js_add a b = Normal c).
  { unfold js_add. rewrite (primitive_converts a Ha), Hpb. cbn [bind].
    pose proof (ToPrimitive_primitive _ _ Hpb) as Hb.
    destruct (stringish a || stringish pb).
    - destruct (ToString_primitive a Ha) as (sa & ->).
      destruct (ToString_primitive pb Hb) as (sb & ->). cbn [bind]. eauto.
    - rewrite (ToNumber_primitive a Ha), (ToNumber_primitive pb Hb).
      cbn [bind]. eauto. }
  destruct Hc as (c & Hc). rewrite Hc, (js_add_added _ _ _ Hc). reflexivity.
Qed.

Lemma converts_num (x : float) : converts (VNum x).
Proof. exists (VNum x). reflexivity. Qed.

(** ** The loop *)

Lemma loop_body_push (output : string) (st : Vars) (assertion : value) :
  loop_body output st assertion =
  let* r := evaluate output assertion in push st r.
Proof.
  unfold loop_body, evaluate, push.
  destruct (weight_of assertion) as [w | e]; [| reflexivity].
  destruct (simple_checks output assertion) as [[p m] | e]; [| reflexivity].
  destruct (prop assertion "name") as [n | e]; reflexivity.
Qed.

(** [push] completes, on a primitive score, when the weight of a
    result that passed converts; [pushed] is what it gives. *)
Lemma push_normal (st st' : Vars) (r : AssertionResult.t) :
  push st r = Normal st' ->
  st' = pushed st r /\ primitive (score st') = true /\
  (AssertionResult.passed r = true -> converts (AssertionResult.weight r)).
Proof.
  unfold push. intros Hp.
  apply bind_normal in Hp. destruct Hp as (c & Hc & Hp).
  injection Hp as <-. unfold pushed. rewrite (js_add_added _ _ _ Hc).
  destruct (js_add_normal _ _ _ Hc) as [Hprim Hconv].
  split; [reflexivity |]. split; [exact Hprim |].
  intros Hpass. rewrite Hpass in Hconv. exact Hconv.
Qed.

Lemma push_pushed (st : Vars) (r : AssertionResult.t) :
  primitive (score st) = true ->
  (AssertionResult.passed r = true -> converts (AssertionResult.weight r)) ->
  push st r = Normal (pushed st r).
Proof.
  intros Hprim Hconv. unfold push, pushed.
  rewrite (added_converts _ _ Hprim); [reflexivity |].
  destruct (AssertionResult.passed r); [auto | apply converts_num].
Qed.

(** The loop completes exactly when every assertion evaluates and the
    weight of every result that passed converts; then it has pushed
    the results in order. *)
Lemma for_of_normal (output : string) (assertions : list value) :
  forall st st' : Vars,
    primitive (score st) = true ->
    (for_of output st assertions = Normal st' <->
     exists rs : list AssertionResult.t,
       evaluate_all output assertions = Normal rs /\
       Forall (fun r => AssertionResult.passed r = true ->
                        converts (AssertionResult.weight r)) rs /\
       st' = fold_left pushed rs st).
Proof.
  induction assertions as [| a rest IH]; intros st st' Hprim.
  - cbn [for_of evaluate_all]. split.
    + intros Hst. injection Hst as <-. exists []. repeat split. constructor.
    + intros (rs & Hrs & _ & ->). injection Hrs as <-. reflexivity.
  - cbn [for_of evaluate_all]. rewrite loop_body_push. split.
    + intros Hfor.
      apply bind_normal in Hfor. destruct Hfor as (st1 & Hst1 & Hfor).
      apply bind_normal in Hst1. destruct Hst1 as (r & Hr & Hpush).
      destruct (push_normal _ _ _ Hpush) as (-> & Hprim1 & Hconv).
      apply (IH _ _ Hprim1) in Hfor.
      destruct Hfor as (rs & Hrs & Hall & ->).
      exists (r :: rs). rewrite Hr, Hrs. cbn [bind fold_left].
      split; [reflexivity |]. split; [constructor; assumption | reflexivity].
    + intros (rs & Hrs & Hall & ->).
      apply bind_normal in Hrs. destruct Hrs as (r & Hr & Hrs).
      apply bind_normal in Hrs. destruct Hrs as (rs' & Hrs' & Hrs).
      injection Hrs as <-. inversion Hall as [| r' rs'' Hconv Hall']; subst.
      rewrite Hr. cbn [bind]. rewrite (push_pushed _ _ Hprim Hconv).
      cbn [bind fold_left].
      assert (Hprim1 : primitive (score (pushed st r)) = true).
      { destruct (push_normal _ _ _ (push_pushed _ _ Hprim Hconv))
          as (_ & Hp & _). exact Hp. }
      apply (IH _ _ Hprim1). exists rs'. auto.
Qed.

Lemma results_fold (rs : list AssertionResult.t) :
  forall st : Vars,
    results (fold_left pushed rs st) = (results st ++ rs)%list.
Proof.
  induction rs as [| r rs IH]; intros st; cbn [fold_left].
  - symmetry. apply app_nil_r.
  - rewrite IH. cbn [pushed results]. rewrite <- app_assoc. reflexivity.
Qed.

Lemma failedCount_fold (rs : list AssertionResult.t) :
  forall st : Vars,
    failedCount (fold_left pushed rs st) =
    (failedCount st + List.length (failed rs))%nat.
Proof.
  induction rs as [| r rs IH]; intros st; cbn [fold_left].
  - cbn. lia.
  - rewrite IH. unfold failed. cbn [pushed failedCount filter].
    destruct (AssertionResult.passed r); cbn [negb List.length]; lia.
Qed.

Lemma score_fold (rs : list AssertionResult.t) :
  forall st : Vars,
    score (fold_left pushed rs st) =
    fold_left
      (fun s r =>
         added s (if AssertionResult.passed r then AssertionResult.weight r
                  else VNum 0))
      rs (score st).
Proof.
  induction rs as [| r rs IH]; intros st; cbn [fold_left]; [reflexivity |].
  rewrite IH. reflexivity.
Qed.

Lemma evaluate_weight (output : string) (a : value) (r : AssertionResult.t) :
  evaluate output a = Normal r ->
  weight_of a = Normal (AssertionResult.weight r).
Proof.
  unfold evaluate. intros Hr.
  destruct (weight_of a) as [w | e]; [| discriminate]. cbn [bind] in Hr.
  destruct (simple_checks output a) as [c | e]; [| discriminate].
  cbn [bind] in Hr.
  destruct (prop a "name") as [n | e]; [| discriminate].
  injection Hr as <-. reflexivity.
Qed.

(** [reduce] completes, on a primitive, exactly when every weight
    converts, and then adds the weights the loop copied into the
    results. *)
Lemma reduce_normal (output : string) (assertions : list value) :
  forall (rs : list AssertionResult.t) (sum0 total : value),
    evaluate_all output assertions = Normal rs ->
    primitive sum0 = true ->
    (reduce sum0 assertions = Normal total <->
     Forall (fun r => converts (AssertionResult.weight r)) rs /\
     total =
     fold_left (fun s r => added s (AssertionResult.weight r)) rs sum0).
Proof.
  induction assertions as [| a rest IH]; intros rs sum0 total Hrs Hprim.
  - injection Hrs as <-. cbn [reduce fold_left]. split.
    + intros Ht. injection Ht as <-. split; [constructor | reflexivity].
    + intros [_ ->]. reflexivity.
  - cbn [evaluate_all] in Hrs.
    apply bind_normal in Hrs. destruct Hrs as (r & Hr & Hrs).
    apply bind_normal in Hrs. destruct Hrs as (rs' & Hrs' & Hrs).
    injection Hrs as <-.
    cbn [reduce fold_left]. rewrite (evaluate_weight _ _ _ Hr). cbn [bind].
    split.
    + intros Ht. apply bind_normal in Ht. destruct Ht as (c & Hc & Ht).
      destruct (js_add_normal _ _ _ Hc) as [Hpc Hconv].
      rewrite (js_add_added _ _ _ Hc).
      apply (IH rs' c total Hrs' Hpc) in Ht. destruct Ht as [Hall ->].
      split; [constructor; assumption | reflexivity].
    + intros [Hall ->]. inversion Hall as [| r' rs'' Hconv Hall']; subst.
      rewrite (added_converts _ _ Hprim Hconv). cbn [bind].
      destruct (js_add_normal _ _ _ (added_converts _ _ Hprim Hconv))
        as [Hpc _].
      apply (IH rs' _ _ Hrs' Hpc). auto.
Qed.

Lemma reduce_primitive (assertions : list value) :
  forall sum0 total : value,
    primitive sum0 = true -> reduce sum0 assertions = Normal total ->
    primitive total = true.
Proof.
  induction assertions as [| a rest IH]; intros sum0 total Hprim Ht.
  - injection Ht as <-. exact Hprim.
  - cbn [reduce] in Ht.
    apply bind_normal in Ht. destruct Ht as (w & _ & Ht).
    apply bind_normal in Ht. destruct Ht as (c & Hc & Ht).
    destruct (js_add_normal _ _ _ Hc) as [Hpc _].
    exact (IH _ _ Hpc Ht).
Qed.

Lemma fold_pushed_primitive (rs : list AssertionResult.t) :
  forall st : Vars,
    primitive (score st) = true ->
    Forall (fun r => AssertionResult.passed r = true ->
                     converts (AssertionResult.weight r)) rs ->
    primitive (score (fold_left pushed rs st)) = true.
Proof.
  induction rs as [| r rs IH]; intros st Hprim Hall; [exact Hprim |].
  inversion Hall as [| r' rs' Hconv Hall']; subst. cbn [fold_left].
  apply IH; [| exact Hall'].
  destruct (push_normal _ _ _ (push_pushed _ _ Hprim Hconv)) as (_ & Hp & _).
  exact Hp.
Qed.

(** Lines 68-71 on primitives. *)
Lemma calculate_calculated (st : Vars) (total : value) (threshold : float) :
  primitive (score st) = true -> primitive total = true ->
  calculate st total threshold = Normal (calculated st total threshold).
Proof.
  intros Hs Ht. unfold calculate, calculated, gt_num.
  rewrite (ToNumber_primitive _ Ht), (ToNumber_primitive _ Hs). cbn [bind].
  destruct (0 <? number_of total)%float; reflexivity.
Qed.

(** A validation completes exactly when every assertion evaluates and
    every weight converts; what it ends in. *)
Lemma validation_iff (output : string) (config : value) (threshold : float)
      (assertions : list value) (st : Vars) :
  assertions_of config = Normal assertions ->
  (validation output config threshold = Normal st <->
   exists rs : list AssertionResult.t,
     evaluate_all output assertions = Normal rs /\
     Forall (fun r => converts (AssertionResult.weight r)) rs /\
     st = calculated (fold_left pushed rs initial)
            (fold_left (fun s r => added s (AssertionResult.weight r)) rs
               (VNum 0))
            threshold).
Proof.
  intros Ha. unfold validation. rewrite Ha. cbn [bind]. split.
  - intros Hv.
    apply bind_normal in Hv. destruct Hv as (st1 & Hfor & Hv).
    apply bind_normal in Hv. destruct Hv as (total & Hred & Hv).
    apply (for_of_normal output assertions initial st1 eq_refl) in Hfor.
    destruct Hfor as (rs & Hrs & Hall & ->).
    pose proof (reduce_primitive assertions (VNum 0) total eq_refl Hred)
      as Hpt.
    apply (reduce_normal output assertions rs (VNum 0) total Hrs eq_refl)
      in Hred.
    destruct Hred as [Hconv ->].
    rewrite calculate_calculated in Hv;
      [| apply fold_pushed_primitive; [reflexivity | exact Hall]
       | exact Hpt].
    injection Hv as <-. exists rs. auto.
  - intros (rs & Hrs & Hconv & ->).
    assert (Hall : Forall (fun r => AssertionResult.passed r = true ->
                                    converts (AssertionResult.weight r)) rs).
    { revert Hconv. apply Forall_impl. auto. }
    rewrite (proj2 (for_of_normal output assertions initial _ eq_refl)
               (ex_intro _ rs (conj Hrs (conj Hall eq_refl)))).
    cbn [bind].
    pose proof (proj2 (reduce_normal output assertions rs (VNum 0) _ Hrs
                         eq_refl) (conj Hconv eq_refl)) as Hred.
    rewrite Hred. cbn [bind]. apply calculate_calculated.
    + apply fold_pushed_primitive; [reflexivity | exact Hall].
    + exact (reduce_primitive assertions (VNum 0) _ eq_refl Hred).
Qed.

(** What a completed validation is made of. *)
Lemma validation_normal (output : string) (config : value) (threshold : float)
      (st : Vars) :
  validation output config threshold = Normal st ->
  exists (assertions : list value) (rs : list AssertionResult.t),
    assertions_of config = Normal assertions /\
    evaluate_all output assertions = Normal rs /\
    st = calculated (fold_left pushed rs initial)
           (fold_left (fun s r => added s (AssertionResult.weight r)) rs
              (VNum 0))
           threshold.
Proof.
  intros Hv.
  destruct (assertions_of config) as [assertions | e] eqn:Ha;
    [| unfold validation in Hv; rewrite Ha in Hv; discriminate].
  apply (validation_iff _ _ _ _ _ Ha) in Hv.
  destruct Hv as (rs & Hrs & _ & Hst). exists assertions, rs. auto.
Qed.

Lemma validation_converts (output : string) (config : value)
      (threshold : float) (assertions : list value)
      (rs : list AssertionResult.t) (st : Vars) :
  assertions_of config = Normal assertions ->
  evaluate_all output assertions = Normal rs ->
  validation output config threshold = Normal st ->
  Forall (fun r => converts (AssertionResult.weight r)) rs.
Proof.
  intros Ha Hrs Hv. apply (validation_iff _ _ _ _ _ Ha) in Hv.
  destruct Hv as (rs' & Hrs' & Hconv & _). congruence.
Qed.

Lemma validation_complete (output : string) (config : value)
      (threshold : float) (assertions : list value)
      (rs : list AssertionResult.t) :
  assertions_of config = Normal assertions ->
  evaluate_all output assertions = Normal rs ->
  Forall (fun r => converts (AssertionResult.weight r)) rs ->
  validation output config threshold =
  Normal (calculated (fold_left pushed rs initial)
            (fold_left (fun s r => added s (AssertionResult.weight r)) rs
               (VNum 0))
            threshold).
Proof.
  intros Ha Hrs Hconv. apply (validation_iff _ _ _ _ _ Ha).
  exists rs. auto.
Qed.

(** Numbers convert. *)
Lemma numeric_converts (rs : list AssertionResult.t) :
  Forall (fun r => exists x, AssertionResult.weight r = VNum x) rs ->
  Forall (fun r => converts (AssertionResult.weight r)) rs.
Proof.
  apply Forall_impl. intros r (x & ->). apply converts_num.
Qed.

Lemma evaluate_all_weights (output : string) (assertions : list value) :
  forall rs : list AssertionResult.t,
    evaluate_all output assertions = Normal rs ->
    map spec_weight assertions =
    map (fun r => number_of (AssertionResult.weight r)) rs /\
    (Forall numeric_weight assertions ->
     Forall (fun r => exists x, AssertionResult.weight r = VNum x) rs).
Proof.
  induction assertions as [| a rest IH]; intros rs Hrs.
  - injection Hrs as <-. split; [reflexivity | constructor].
  - cbn [evaluate_all] in Hrs.
    apply Loop.bind_normal in Hrs. destruct Hrs as (r & Hr & Hrs).
    apply Loop.bind_normal in Hrs. destruct Hrs as (rs' & Hrs' & Hrs).
    injection Hrs as <-.
    destruct (IH rs' Hrs') as [IH1 IH2].
    pose proof (Loop.evaluate_weight _ _ _ Hr) as Hw.
    split.
    + cbn [map]. rewrite IH1. unfold spec_weight at 1. rewrite Hw. reflexivity.
    + intros Hn. inversion Hn as [| a' rest' (x & Hx) Hrest]; subst.
      constructor; [| exact (IH2 Hrest)].
      exists x. congruence.
Qed.

(** With Numbers for weights, [reduce] is a sum of Numbers. *)
Lemma total_numeric (rs : list AssertionResult.t) :
  Forall (fun r => exists x, AssertionResult.weight r = VNum x) rs ->
  forall a : float,
    fold_left (fun s r => added s (AssertionResult.weight r)) rs (VNum a) =
    VNum (fold_left PrimFloat.add
            (map (fun r => number_of (AssertionResult.weight r)) rs) a).
Proof.
  induction 1 as [| r rs (x & Hx) _ IH]; intros a; [reflexivity |].
  cbn [fold_left map]. rewrite Hx, added_num, number_of_num. apply IH.
Qed.

(** With Numbers for weights, the [score] of the loop is the sum of the
    weights of the results that passed: adding 0 for the others changes
    nothing, because the running sum is never [-0]. *)
Lemma earned_numeric (rs : list AssertionResult.t) :
  Forall (fun r => exists x, AssertionResult.weight r = VNum x) rs ->
  forall a : float,
    ~ is_neg_zero a ->
    fold_left
      (fun s r =>
         added s (if AssertionResult.passed r then AssertionResult.weight r
                  else VNum 0))
      rs (VNum a) =
    VNum (fold_left PrimFloat.add
            (map (fun r => number_of (AssertionResult.weight r))
                 (filter AssertionResult.passed rs)) a).
Proof.
  induction 1 as [| r rs (x & Hx) _ IH]; intros a Ha; [reflexivity |].
  cbn [fold_left filter]. rewrite Hx.
  destruct (AssertionResult.passed r).
  - cbn [map fold_left]. rewrite Hx, added_num, number_of_num.
    apply IH. intros Hz. apply Ha. apply (Binary64.add_neg_zero a x Hz).
  - rewrite added_num, (Binary64.add_zero_r a Ha). apply IH. exact Ha.
Qed.

Lemma startsWith_spec (t : string) :
  forall s : string, startsWith s t = true <-> exists v, s = t ++ v.
Proof.
  induction t as [| c t IH]; intros s.
  - cbn. split; [intros _; exists s; destruct s; reflexivity |].
    destruct s; reflexivity.
  - destruct s as [| d s]; cbn [startsWith].
    + split; [discriminate | intros (v & Hv); discriminate].
    + rewrite andb_true_iff, Ascii.eqb_eq, IH. split.
      * intros (-> & v & ->). exists v. reflexivity.
      * intros (v & Hv). cbn in Hv. injection Hv as -> ->. eauto.
Qed.

(** [s.includes(t)] holds exactly when [t] occurs in [s], character
    for character. *)
Lemma includes_spec (t : string) :
  forall s : string, includes s t = true <-> exists u v, s = u ++ t ++ v.
Proof.
  induction s as [| c s IH].
  - cbn [includes]. rewrite orb_false_r, startsWith_spec. split.
    + intros (v & Hv). exists "", v. exact Hv.
    + intros (u & v & Huv). destruct u as [| d u]; [| discriminate].
      exists v. exact Huv.
  - cbn [includes]. rewrite orb_true_iff, startsWith_spec, IH. split.
    + intros [(v & Hv) | (u & v & Huv)].
      * exists "", v. exact Hv.
      * exists (String c u), v. cbn. rewrite Huv. reflexivity.
    + intros (u & v & Huv). destruct u as [| d u].
      * left. exists v. exact Huv.
      * right. cbn in Huv. injection Huv as -> ->. eauto.
Qed.

Lemma prop_defined (a : value) (k : string) (v : value) :
  prop a k = Normal v -> forall k' : string, exists v', prop a k' = Normal v'.
Proof.
  destruct a; cbn [prop]; intros Hk k'; try discriminate; eauto.
Qed.

Lemma strict_eq_str_neq (ty : value) (lit : string) :
  ty <> VStr lit -> strict_eq_str ty lit = false.
Proof.
  destruct ty as [| | b | x | s | l | f]; cbn [strict_eq_str];
    try reflexivity.
  intros Hne. apply String.eqb_neq. congruence.
Qed.

(** An assertion with a weight whose checks complete has a result. *)
Lemma evaluate_normal (output : string) (a w : value) (p : bool)
      (m : string) :
  weight_of a = Normal w ->
  simple_checks output a = Normal (p, m) ->
  exists n : value,
    prop a "name" = Normal n /\
    evaluate output a =
    Normal {| AssertionResult.name := n;
              AssertionResult.passed := p;
              AssertionResult.message := m;
              AssertionResult.weight := w |}.
Proof.
  intros Hw Hc. unfold evaluate. rewrite Hw, Hc. cbn [bind fst snd].
  unfold weight_of in Hw. apply bind_normal in Hw.
  destruct Hw as (w0 & Hw0 & _).
  destruct (prop_defined a "weight" w0 Hw0 "name") as (n & Hn).
  exists n. rewrite Hn. split; reflexivity.
Qed.

(** Assertions that all pass, with Numbers for weights: the loop
    completes, every result passes and carries a Number. *)
Lemma evaluate_all_passing (output : string) (assertions : list value) :
  Forall numeric_weight assertions ->
  Forall (passes output) assertions ->
  exists rs : list AssertionResult.t,
    evaluate_all output assertions = Normal rs /\
    filter AssertionResult.passed rs = rs /\
    failed rs = [].
Proof.
  induction assertions as [| a rest IH]; intros Hn Hp.
  - exists []. repeat split.
  - inversion Hn as [| a' rest' (x & Hx) Hn']; subst.
    inversion Hp as [| a' rest' (m & Hm) Hp']; subst.
    destruct (IH Hn' Hp') as (rs & Hrs & Hall & Hnone).
    destruct (evaluate_normal output a _ _ _ Hx Hm) as (n & _ & Hr).
    eexists. cbn [evaluate_all]. rewrite Hr, Hrs. cbn [bind].
    split; [reflexivity |]. unfold failed in *.
    cbn [filter AssertionResult.passed negb]. rewrite Hall, Hnone.
    split; reflexivity.
Qed.

(** When no result failed, every assertion passed. *)
Lemma no_failure_passes (output : string) (assertions : list value) :
  forall rs : list AssertionResult.t,
    evaluate_all output assertions = Normal rs ->
    failed rs = [] ->
    Forall (passes output) assertions.
Proof.
  induction assertions as [| a rest IH]; intros rs Hrs Hnone;
    [constructor |].
  cbn [evaluate_all] in Hrs.
  apply bind_normal in Hrs. destruct Hrs as (r & Hr & Hrs).
  apply bind_normal in Hrs. destruct Hrs as (rs' & Hrs' & Hrs).
  injection Hrs as <-.
  unfold failed in Hnone. cbn [filter] in Hnone.
  destruct (AssertionResult.passed r) eqn:Hpass; cbn [negb] in Hnone;
    [| discriminate].
  constructor; [| exact (IH rs' Hrs' Hnone)].
  unfold evaluate in Hr.
  destruct (weight_of a) as [w | e]; [| discriminate]. cbn [bind] in Hr.
  destruct (simple_checks output a) as [[p m] | e] eqn:Hc; [| discriminate].
  cbn [bind] in Hr.
  destruct (prop a "name") as [n | e]; [| discriminate].
  injection Hr as <-. cbn [AssertionResult.passed fst] in Hpass. subst p.
  exists m. exact Hc.
Qed.

(** [run] is the validation at the threshold of line 12, which is 70
    when the input is 0 or not a number. *)
Lemma run_validation (output : string) (config : value)
      (pass_threshold : float) :
  run output config pass_threshold =
  validation output config (threshold_of pass_threshold) /\
  threshold_of 0 = 70%float /\ threshold_of PrimFloat.nan = 70%float.
Proof. repeat split. Qed.

Lemma evaluate_all_app (output : string) (xs ys : list value) :
  evaluate_all output (xs ++ ys) =
  let* rs := evaluate_all output xs in
  let* rs' := evaluate_all output ys in
  Normal (rs ++ rs')%list.
Proof.
  induction xs as [| a xs IH]; cbn [app evaluate_all bind].
  - destruct (evaluate_all output ys); reflexivity.
  - destruct (evaluate output a) as [r | e]; cbn [bind]; [| reflexivity].
    rewrite IH.
    destruct (evaluate_all output xs) as [rs | e]; cbn [bind];
      [| reflexivity].
    destruct (evaluate_all output ys); reflexivity.
Qed.

Lemma total_of_cons (n : positive) (ns : list positive) :
  total_of (n :: ns) = (Zpos n + total_of ns)%Z.
Proof. reflexivity. Qed.

Lemma total_of_nonneg (ns : list positive) : (0 <= total_of ns)%Z.
Proof.
  induction ns as [| n ns IH]; [cbn; lia |]. rewrite total_of_cons. lia.
Qed.

Lemma total_of_app (ns ms : list positive) :
  total_of (ns ++ ms) = (total_of ns + total_of ms)%Z.
Proof.
  induction ns as [| n ns IH]; [reflexivity |].
  cbn [app]. rewrite !total_of_cons. lia.
Qed.

(** Adding positive integers is exact while the sum is below [2^53]. *)
Lemma sum_integers (ns : list positive) :
  forall a : Z,
    (0 <= a)%Z -> (a + total_of ns < 2 ^ 53)%Z ->
    fold_left PrimFloat.add (map (fun n => Z2F (Zpos n)) ns) (Z2F a) =
    Z2F (a + total_of ns).
Proof.
  induction ns as [| n ns IH]; intros a Ha Hs.
  - cbn. f_equal. lia.
  - cbn [map fold_left]. rewrite total_of_cons in Hs |- *.
    pose proof (total_of_nonneg ns) as Hns.
    rewrite Binary64.Z2F_add by lia. rewrite IH by lia. f_equal. lia.
Qed.

(** The results of assertions with integer weights carry them; the
    weights of those that passed are some of them. *)
Lemma integer_results (output : string) (assertions : list value) :
  forall (rs : list AssertionResult.t) (ns : list positive),
    evaluate_all output assertions = Normal rs ->
    Forall2 integer_weight assertions ns ->
    map (fun r => number_of (AssertionResult.weight r)) rs =
      map (fun n => Z2F (Zpos n)) ns /\
    Forall (fun r => exists x, AssertionResult.weight r = VNum x) rs /\
    exists ps : list positive,
      map (fun r => number_of (AssertionResult.weight r))
          (filter AssertionResult.passed rs) =
        map (fun n => Z2F (Zpos n)) ps /\
      (total_of ps <= total_of ns)%Z.
Proof.
  induction assertions as [| a rest IH]; intros rs ns Hrs Hns.
  - injection Hrs as <-. inversion Hns; subst.
    split; [reflexivity |]. split; [constructor |].
    exists []. split; [reflexivity | cbn; lia].
  - inversion Hns as [| a' n rest' ns' Hn Hns']; subst.
    cbn [evaluate_all] in Hrs.
    apply Loop.bind_normal in Hrs. destruct Hrs as (r & Hr & Hrs).
    apply Loop.bind_normal in Hrs. destruct Hrs as (rs' & Hrs' & Hrs).
    injection Hrs as <-.
    destruct (IH rs' ns' Hrs' Hns') as (IH1 & IH2 & ps & IH3 & IH4).
    pose proof (Loop.evaluate_weight _ _ _ Hr) as Hw.
    unfold integer_weight in Hn. rewrite Hn in Hw.
    injection Hw as Hw.
    split; [| split].
    + cbn [map]. rewrite IH1, <- Hw. reflexivity.
    + constructor; [eauto | exact IH2].
    + cbn [filter]. pose proof (total_of_nonneg ns') as Hnn.
      destruct (AssertionResult.passed r).
      * exists (n :: ps). cbn [map]. rewrite IH3, <- Hw.
        split; [reflexivity |]. rewrite !total_of_cons. lia.
      * exists ps. split; [exact IH3 |]. rewrite total_of_cons. lia.
Qed.

Lemma integer_numeric (assertions : list value) (ns : list positive) :
  Forall2 integer_weight assertions ns ->
  Forall numeric_weight assertions /\
  map spec_weight assertions = map (fun n => Z2F (Zpos n)) ns.
Proof.
  induction 1 as [| a n rest ns' Hn _ [IH1 IH2]].
  - split; [constructor | reflexivity].
  - split.
    + constructor; [| exact IH1]. eexists. exact Hn.
    + cbn [map]. rewrite IH2. unfold spec_weight at 1.
      unfold integer_weight in Hn. rewrite Hn. reflexivity.
Qed.

(** What a result says of the assertion it comes from. *)
Lemma evaluate_inv (output : string) (a : value) (r : AssertionResult.t) :
  evaluate output a = Normal r ->
  prop a "name" = Normal (AssertionResult.name r) /\
  weight_of a = Normal (AssertionResult.weight r) /\
  simple_checks output a =
  Normal (AssertionResult.passed r, AssertionResult.message r).
Proof.
  unfold evaluate. intros Hr.
  destruct (weight_of a) as [w | e]; [| discriminate]. cbn [bind] in Hr.
  destruct (simple_checks output a) as [[p m] | e]; [| discriminate].
  cbn [bind] in Hr.
  destruct (prop a "name") as [n | e]; [| discriminate].
  injection Hr as <-. repeat split.
Qed.

(** The loop completes when every assertion evaluates, and then the
    results are the evaluations, in order. *)
Lemma evaluate_all_Forall2 (output : string) (assertions : list value)
      (rs : list AssertionResult.t) :
  evaluate_all output assertions = Normal rs <->
  Forall2 (fun a r => evaluate output a = Normal r) assertions rs.
Proof.
  revert rs. induction assertions as [| a rest IH]; intros rs.
  - cbn [evaluate_all]. split.
    + intros Hrs. injection Hrs as <-. constructor.
    + intros Hf. inversion Hf. reflexivity.
  - cbn [evaluate_all]. split.
    + intros Hrs.
      apply Loop.bind_normal in Hrs. destruct Hrs as (r & Hr & Hrs).
      apply Loop.bind_normal in Hrs. destruct Hrs as (rs' & Hrs' & Hrs).
      injection Hrs as <-. constructor; [exact Hr |]. apply IH. exact Hrs'.
    + intros Hf. inversion Hf as [| a' r rest' rs' Hr Hrest]; subst.
      rewrite Hr. cbn [bind]. apply IH in Hrest. rewrite Hrest. reflexivity.
Qed.

(** The loop throws what the first assertion that throws throws. *)
Lemma evaluate_all_throw (output : string) (assertions : list value)
      (e : error) :
  evaluate_all output assertions = Throw e <->
  exists (pre : list value) (a : value) (post : list value),
    assertions = (pre ++ a :: post)%list /\
    Forall (fun x => exists r, evaluate output x = Normal r) pre /\
    evaluate output a = Throw e.
Proof.
  induction assertions as [| a rest IH].
  - cbn [evaluate_all]. split; [discriminate |].
    intros (pre & a & post & Hl & _). destruct pre; discriminate.
  - cbn [evaluate_all]. split.
    + destruct (evaluate output a) as [r | e'] eqn:Hr; cbn [bind].
      * destruct (evaluate_all output rest) as [rs | e'] eqn:Hrs;
          cbn [bind]; [discriminate |].
        intros He. injection He as ->.
        destruct (proj1 IH eq_refl) as (pre & b & post & -> & Hpre & Hb).
        exists (a :: pre), b, post. split; [reflexivity |].
        split; [| exact Hb]. constructor; [eauto | exact Hpre].
      * intros He. injection He as ->.
        exists [], a, rest. split; [reflexivity |]. split; [constructor |].
        exact Hr.
    + intros (pre & b & post & Hl & Hpre & Hb).
      destruct pre as [| x pre]; cbn [app] in Hl; injection Hl as -> ->.
      * rewrite Hb. reflexivity.
      * inversion Hpre as [| x' pre' (r & Hr) Hpre']; subst.
        rewrite Hr. cbn [bind].
        assert (Hrest : evaluate_all output (pre ++ b :: post)%list = Throw e)
          by (apply IH; exists pre, b, post; auto).
        rewrite Hrest. reflexivity.
Qed.

(** ** What throws *)

(** A conversion throws nothing but a TypeError. *)
Lemma ToString_TypeError :
  forall (v : value) (e : error), ToString v = Throw e -> e = TypeError.
Proof.
  fix IH 1. intros v e.
  destruct v as [| | [] | x | s | items | fields]; cbn [ToString];
    try discriminate.
  - induction items as [| x rest IHrest]; [discriminate |].
    set (elt := match x with
                | VUndefined | VNull => Normal ""
                | _ => ToString x
                end).
    assert (Helt : forall e', elt = Throw e' -> e' = TypeError).
    { subst elt. intros e' He'.
      destruct x eqn:Ex; try discriminate He';
        apply (IH x); rewrite Ex; exact He'. }
    fold elt. destruct elt as [s | e'] eqn:Ee; cbn [bind].
    + destruct rest; [discriminate |].
      intros He. apply bind_normal_or_throw in He. exact (IHrest He).
    + intros He. injection He as <-. apply Helt. reflexivity.
  - destruct (has_key "toString" fields); [| discriminate].
    intros He. injection He as <-. reflexivity.
Qed.

Lemma ToPrimitive_TypeError (v : value) (e : error) :
  ToPrimitive v = Throw e -> e = TypeError.
Proof.
  destruct v; cbn [ToPrimitive]; try discriminate;
    destruct (ToString _) as [s | e'] eqn:Hs; cbn [bind];
    try discriminate; intros He; injection He as <-;
    exact (ToString_TypeError _ _ Hs).
Qed.

Lemma converts_dec (v : value) : converts v \/ ~ converts v.
Proof.
  unfold converts. destruct (ToPrimitive v) as [p | e];
    [left; eauto | right; intros (p & Hp); discriminate].
Qed.

Lemma not_converts (v : value) :
  ~ converts v <-> ToPrimitive v = Throw TypeError.
Proof.
  unfold converts. destruct (ToPrimitive v) as [p | e] eqn:Hp.
  - split; [intros Hn; contradiction Hn; eauto | discriminate].
  - rewrite (ToPrimitive_TypeError _ _ Hp). split; [reflexivity |].
    intros _ (p & Hq). discriminate.
Qed.

(** ToString and ToNumber complete exactly when ToPrimitive does. *)
Lemma ToString_converts (v : value) :
  (exists s, ToString v = Normal s) <-> converts v.
Proof.
  unfold converts, ToPrimitive.
  destruct v as [| | [] | x | s | items | fields];
    try (cbn; split; eauto; fail);
    destruct (ToString _) as [s | e]; cbn [bind];
    split; intros (x & Hx); try discriminate; eauto.
Qed.

Lemma ToNumber_converts (v : value) :
  (exists x, ToNumber v = Normal x) <-> converts v.
Proof.
  unfold converts, ToNumber. destruct (ToPrimitive v) as [p | e] eqn:Hp;
    cbn [bind].
  - split; [eauto |]. intros _.
    pose proof (ToPrimitive_primitive _ _ Hp) as Hq.
    destruct p as [| | [] | x | s | l | f]; try discriminate Hq; eauto.
  - split; intros (x & Hx); discriminate.
Qed.

Lemma js_add_throw (a b : value) (e : error) :
  primitive a = true -> (js_add a b = Throw e <-> ToPrimitive b = Throw e).
Proof.
  intros Ha. destruct (ToPrimitive b) as [pb | e'] eqn:Hb.
  - rewrite (added_converts a b Ha (ex_intro _ pb Hb)). split; discriminate.
  - unfold js_add. rewrite (primitive_converts a Ha), Hb. reflexivity.
Qed.

Lemma push_throw (st : Vars) (r : AssertionResult.t) (e : error) :
  primitive (score st) = true ->
  (push st r = Throw e <->
   AssertionResult.passed r = true /\
   ToPrimitive (AssertionResult.weight r) = Throw e).
Proof.
  intros Hp. unfold push.
  pose proof (js_add_throw (score st)
                (if AssertionResult.passed r then AssertionResult.weight r
                 else VNum 0) e Hp) as Hiff.
  destruct (js_add _ _) as [c | e'] eqn:Hc; cbn [bind].
  - split; [discriminate |]. intros [Hpass Hw]. rewrite Hpass in Hiff.
    apply Hiff in Hw. discriminate.
  - destruct (AssertionResult.passed r).
    + split.
      * intros He. injection He as ->. split; [reflexivity |].
        apply Hiff. reflexivity.
      * intros [_ Hw]. apply Hiff in Hw. injection Hw as ->. reflexivity.
    + assert (Hz : Throw e' = Normal (added (score st) (VNum 0))).
      { rewrite <- Hc. apply (added_converts _ _ Hp), converts_num. }
      discriminate.
Qed.

(** One iteration, on a primitive score. *)
Lemma loop_body_throw (output : string) (st : Vars) (a : value) (e : error) :
  primitive (score st) = true ->
  (loop_body output st a = Throw e <-> iteration_error output a e).
Proof.
  intros Hp. rewrite loop_body_push. unfold iteration_error.
  destruct (evaluate output a) as [r | e'] eqn:Hr; cbn [bind].
  - rewrite (push_throw st r e Hp). split.
    + intros [Hpass Hw]. right. exists r. auto.
    + intros [He | (r' & Hr' & Hpass & Hw)]; [discriminate |].
      injection Hr' as <-. auto.
  - split.
    + intros He. injection He as ->. left. reflexivity.
    + intros [He | (r' & Hr' & _)]; [| discriminate].
      injection He as ->. reflexivity.
Qed.

Lemma loop_body_normal (output : string) (st : Vars) (a : value) :
  primitive (score st) = true ->
  ((exists st', loop_body output st a = Normal st') <-> iterates output a) /\
  (forall st', loop_body output st a = Normal st' ->
               primitive (score st') = true).
Proof.
  intros Hp. rewrite loop_body_push. unfold iterates. split; [split |].
  - intros (st' & Hst).
    apply bind_normal in Hst. destruct Hst as (r & Hr & Hpush).
    destruct (push_normal _ _ _ Hpush) as (_ & _ & Hconv). exists r. auto.
  - intros (r & Hr & Hconv). rewrite Hr. cbn [bind].
    rewrite (push_pushed _ _ Hp Hconv). eauto.
  - intros st' Hst.
    apply bind_normal in Hst. destruct Hst as (r & Hr & Hpush).
    destruct (push_normal _ _ _ Hpush) as (_ & Hprim & _). exact Hprim.
Qed.

(** The loop throws what the first iteration that throws throws. *)
Lemma for_of_throw (output : string) (assertions : list value) :
  forall (st : Vars) (e : error),
    primitive (score st) = true ->
    (for_of output st assertions = Throw e <->
     exists (pre : list value) (a : value) (post : list value),
       assertions = (pre ++ a :: post)%list /\
       Forall (iterates output) pre /\
       iteration_error output a e).
Proof.
  induction assertions as [| a rest IH]; intros st e Hp.
  - cbn [for_of]. split; [discriminate |].
    intros (pre & a & post & Hl & _). destruct pre; discriminate.
  - cbn [for_of].
    destruct (loop_body_normal output st a Hp) as [Hiter Hprim].
    destruct (loop_body output st a) as [st1 | e1] eqn:Hbody; cbn [bind].
    + specialize (Hprim st1 eq_refl).
      assert (Ha : iterates output a) by (apply Hiter; eauto).
      rewrite (IH st1 e Hprim). split.
      * intros (pre & b & post & -> & Hpre & Hb).
        exists (a :: pre), b, post. split; [reflexivity |].
        split; [constructor; assumption | exact Hb].
      * intros (pre & b & post & Hl & Hpre & Hb).
        destruct pre as [| x pre]; cbn [app] in Hl; injection Hl as -> ->.
        -- apply (loop_body_throw output st _ e Hp) in Hb. congruence.
        -- inversion Hpre; subst. exists pre, b, post. auto.
    + split.
      * intros He. injection He as ->.
        exists [], a, rest. split; [reflexivity |]. split; [constructor |].
        apply (loop_body_throw output st a e Hp). exact Hbody.
      * intros (pre & b & post & Hl & Hpre & Hb).
        destruct pre as [| x pre]; cbn [app] in Hl; injection Hl as -> ->.
        -- apply (loop_body_throw output st _ e Hp) in Hb. congruence.
        -- inversion Hpre as [| x' pre' Hx Hpre']; subst.
           apply Hiter in Hx. destruct Hx as (st' & Hst'). discriminate.
Qed.

Lemma js_add_TypeError (a b : value) (e : error) :
  js_add a b = Throw e -> e = TypeError.
Proof.
  unfold js_add. intros Hc.
  destruct (ToPrimitive a) as [pa | ea] eqn:Hpa; cbn [bind] in Hc;
    [| injection Hc as <-; exact (ToPrimitive_TypeError _ _ Hpa)].
  destruct (ToPrimitive b) as [pb | eb] eqn:Hpb; cbn [bind] in Hc;
    [| injection Hc as <-; exact (ToPrimitive_TypeError _ _ Hpb)].
  pose proof (ToPrimitive_primitive _ _ Hpa) as Hqa.
  pose proof (ToPrimitive_primitive _ _ Hpb) as Hqb.
  destruct (stringish pa || stringish pb).
  - destruct (ToString_primitive pa Hqa) as (sa & Hsa).
    destruct (ToString_primitive pb Hqb) as (sb & Hsb).
    rewrite Hsa, Hsb in Hc. discriminate.
  - rewrite (ToNumber_primitive pa Hqa), (ToNumber_primitive pb Hqb) in Hc.
    discriminate.
Qed.

Lemma weight_of_TypeError (a : value) (e : error) :
  weight_of a = Throw e -> e = TypeError.
Proof.
  unfold weight_of. destruct a; cbn; try discriminate;
    intros He; injection He as <-; reflexivity.
Qed.

Lemma reduce_TypeError (assertions : list value) :
  forall (sum0 : value) (e : error),
    reduce sum0 assertions = Throw e -> e = TypeError.
Proof.
  induction assertions as [| a rest IH]; intros sum0 e Hr; [discriminate |].
  cbn [reduce] in Hr.
  destruct (weight_of a) as [w | ew] eqn:Hw; cbn [bind] in Hr;
    [| injection Hr as <-; exact (weight_of_TypeError _ _ Hw)].
  destruct (js_add sum0 w) as [c | ec] eqn:Hc; cbn [bind] in Hr;
    [exact (IH c e Hr) |].
  injection Hr as <-. exact (js_add_TypeError _ _ _ Hc).
Qed.

(** A validation throws what its loop throws, or else a TypeError at
    line 69, when the weight of an assertion that did not pass does not
    convert. *)
Lemma validation_throw (output : string) (config : value) (threshold : float)
      (assertions : list value) (e : error) :
  assertions_of config = Normal assertions ->
  (validation output config threshold = Throw e <->
   for_of output initial assertions = Throw e \/
   (e = TypeError /\
    exists rs : list AssertionResult.t,
      evaluate_all output assertions = Normal rs /\
      Forall (fun r => AssertionResult.passed r = true ->
                       converts (AssertionResult.weight r)) rs /\
      Exists (fun r => ~ converts (AssertionResult.weight r)) rs)).
Proof.
  intros Ha. unfold validation. rewrite Ha. cbn [bind].
  destruct (for_of output initial assertions) as [st1 | e1] eqn:Hfor;
    cbn [bind].
  - apply (for_of_normal output assertions initial st1 eq_refl) in Hfor.
    destruct Hfor as (rs & Hrs & Hall & ->).
    pose proof (reduce_normal output assertions rs (VNum 0)) as Hred.
    destruct (reduce (VNum 0) assertions) as [total | e2] eqn:Hreduce;
      cbn [bind].
    + rewrite calculate_calculated;
        [| apply fold_pushed_primitive; [reflexivity | exact Hall]
         | exact (reduce_primitive assertions (VNum 0) total eq_refl
                    Hreduce)].
      split; [discriminate |].
      intros [He | (_ & rs' & Hrs' & _ & Hex)]; [discriminate |].
      assert (rs' = rs) as -> by congruence.
      destruct (proj1 (Hred total Hrs eq_refl) eq_refl) as [Hconv _].
      apply Exists_exists in Hex. destruct Hex as (r & Hin & Hn).
      rewrite Forall_forall in Hconv. contradiction (Hn (Hconv r Hin)).
    + assert (He2 : e2 = TypeError)
        by exact (reduce_TypeError _ _ _ Hreduce).
      subst e2. split.
      * intros He. injection He as <-. right. split; [reflexivity |].
        exists rs. split; [exact Hrs |]. split; [exact Hall |].
        assert (Hnot : ~ Forall (fun r => converts (AssertionResult.weight r))
                         rs).
        { intros Hconv.
          pose proof (proj2 (Hred _ Hrs eq_refl) (conj Hconv eq_refl)).
          discriminate. }
        clear Hred Hall Hrs Hreduce.
        induction rs as [| r rs IH].
        -- contradiction Hnot. constructor.
        -- destruct (converts_dec (AssertionResult.weight r)) as [Hc | Hc].
           ++ apply Exists_cons_tl. apply IH. intros Hf. apply Hnot.
              constructor; assumption.
           ++ apply Exists_cons_hd. exact Hc.
      * intros [He | (-> & _)]; [discriminate | reflexivity].
  - split.
    + intros He. left. exact He.
    + intros [He | (_ & rs & Hrs & Hall & _)]; [exact He |].
      pose proof (proj2 (for_of_normal output assertions initial
                           (fold_left pushed rs initial) eq_refl)
                    (ex_intro _ rs (conj Hrs (conj Hall eq_refl)))).
      congruence.
Qed.

Lemma warningsCount_fold (rs : list AssertionResult.t) :
  forall st : Vars,
    warningsCount (fold_left pushed rs st) = warningsCount st.
Proof.
  induction rs as [| r rs IH]; intros st; cbn [fold_left]; [reflexivity |].
  rewrite IH. reflexivity.
Qed.

(** The three failure messages differ from [Passed]. *)
Lemma simple_checks_message (output : string) (a : value) (p : bool)
      (m : string) :
  simple_checks output a = Normal (p, m) -> (p = true <-> m = "Passed").
Proof.
  unfold simple_checks.
  destruct (prop a "type") as [ty | e]; [| discriminate]. cbn [bind].
  destruct (prop a "params") as [params | e]; [| discriminate]. cbn [bind].
  destruct (if strict_eq_str ty "MAX_LENGTH" then _ else _)
    as [[] | e]; cbn [bind]; try discriminate.
  { intros Hc. injection Hc as <- <-. split; discriminate. }
  destruct (strict_eq_str ty "CONTAINS_TEXT").
  { destruct (if truthy _ then _ else _) as [[] | e]; cbn [bind];
      try discriminate.
    - destruct (ToString _) as [text | e]; cbn [bind]; try discriminate.
      intros Hc. injection Hc as <- <-. split; discriminate.
    - intros Hc. injection Hc as <- <-. split; reflexivity. }
  destruct (strict_eq_str ty "NO_PATTERN").
  { destruct (if truthy _ then _ else _) as [[] | e]; cbn [bind];
      try discriminate; intros Hc; injection Hc as <- <-;
      split; (reflexivity || discriminate). }
  intros Hc. injection Hc as <- <-. split; reflexivity.
Qed.

Lemma strict_eq_str_true (v : value) (lit : string) :
  strict_eq_str v lit = true -> v = VStr lit.
Proof.
  destruct v; cbn [strict_eq_str]; try discriminate.
  intros He. apply String.eqb_eq in He. congruence.
Qed.

(** The [if] chain, one type at a time: a test that a type settles is
    not made again. *)
Lemma simple_checks_cases (output : string) (a ty params : value) :
  prop a "type" = Normal ty ->
  prop a "params" = Normal params ->
  simple_checks output a =
  if strict_eq_str ty "MAX_LENGTH" then
    let* too_long :=
      num_gt (length_of output)
             (js_or (opt_prop params "max_chars") (VNum 1000)) in
    if too_long
    then Normal (false,
                 "Output too long: " ++ decimal (String.length output)
                   ++ " chars")
    else Normal (true, "Passed")
  else if strict_eq_str ty "CONTAINS_TEXT" then
    if truthy (opt_prop params "text") then
      let* text := ToString (opt_prop params "text") in
      if includes output text then Normal (true, "Passed")
      else Normal (false,
                   "Missing required text: " ++ dquote ++ text ++ dquote)
    else Normal (true, "Passed")
  else if strict_eq_str ty "NO_PATTERN" then
    if truthy (opt_prop params "pattern") then
      let* source := ToString (opt_prop params "pattern") in
      match RegExp_test_i source output with
      | None => Throw SyntaxError
      | Some true => Normal (false, "Output contains forbidden pattern")
      | Some false => Normal (true, "Passed")
      end
    else Normal (true, "Passed")
  else Normal (true, "Passed").
Proof.
  intros Hty Hpa. unfold simple_checks. rewrite Hty, Hpa. cbn [bind].
  destruct (strict_eq_str ty "MAX_LENGTH") eqn:Em.
  { apply strict_eq_str_true in Em. subst ty.
    destruct (num_gt _ _) as [[] | e]; reflexivity. }
  cbn [bind].
  destruct (strict_eq_str ty "CONTAINS_TEXT").
  { destruct (truthy (opt_prop params "text")); [| reflexivity].
    destruct (ToString (opt_prop params "text")) as [text | e] eqn:Et;
      cbn [bind]; [| reflexivity].
    destruct (includes output text); cbn [negb bind]; [reflexivity |].
    reflexivity. }
  destruct (strict_eq_str ty "NO_PATTERN"); [| reflexivity].
  destruct (truthy (opt_prop params "pattern")); [| reflexivity].
  destruct (ToString (opt_prop params "pattern")) as [source | e];
    cbn [bind]; [| reflexivity].
  destruct (RegExp_test_i source output) as [[] |]; reflexivity.
Qed.

Lemma ToNumber_throw (v : value) (e : error) :
  ToNumber v = Throw e <-> e = TypeError /\ ~ converts v.
Proof.
  pose proof (ToNumber_converts v) as Hiff. split.
  - intros He. split.
    + unfold ToNumber in He.
      destruct (ToPrimitive v) as [p | e'] eqn:Hp; cbn [bind] in He.
      * destruct (proj2 Hiff (ex_intro _ p Hp)) as (x & Hx).
        unfold ToNumber in Hx. rewrite Hp in Hx. cbn [bind] in Hx.
        congruence.
      * injection He as <-. exact (ToPrimitive_TypeError _ _ Hp).
    + intros Hc. apply Hiff in Hc. destruct Hc as (x & Hx). congruence.
  - intros [-> Hn]. destruct (ToNumber v) as [x | e'] eqn:Hx.
    + contradiction Hn. apply Hiff. eauto.
    + f_equal. unfold ToNumber in Hx.
      destruct (ToPrimitive v) as [p | e''] eqn:Hp; cbn [bind] in Hx.
      * contradiction Hn. exists p. exact Hp.
      * injection Hx as <-. exact (ToPrimitive_TypeError _ _ Hp).
Qed.

Lemma ToString_throw (v : value) (e : error) :
  ToString v = Throw e <-> e = TypeError /\ ~ converts v.
Proof.
  pose proof (ToString_converts v) as Hiff. split.
  - intros He. split; [exact (ToString_TypeError _ _ He) |].
    intros Hc. apply Hiff in Hc. destruct Hc as (x & Hx). congruence.
  - intros [-> Hn]. destruct (ToString v) as [x | e'] eqn:Hx.
    + contradiction Hn. apply Hiff. eauto.
    + f_equal. exact (ToString_TypeError _ _ Hx).
Qed.

(** When the checks of an object throw: a limit, a text or a pattern
    that does not convert (TypeError), or a pattern that is no regular
    expression (SyntaxError). *)
Lemma simple_checks_throw (output : string) (fields : list (string * value))
      (e : error) :
  let ty := lookup "type" fields in
  let params := lookup "params" fields in
  simple_checks output (VObj fields) = Throw e <->
  (ty = VStr "MAX_LENGTH" /\ e = TypeError /\
   ~ converts (js_or (opt_prop params "max_chars") (VNum 1000))) \/
  (ty = VStr "CONTAINS_TEXT" /\ e = TypeError /\
   truthy (opt_prop params "text") = true /\
   ~ converts (opt_prop params "text")) \/
  (ty = VStr "NO_PATTERN" /\
   truthy (opt_prop params "pattern") = true /\
   ((e = TypeError /\ ~ converts (opt_prop params "pattern")) \/
    (e = SyntaxError /\
     exists source : string,
       ToString (opt_prop params "pattern") = Normal source /\
       RegExp_test_i source output = None))).
Proof.
  intros ty params.
  rewrite (simple_checks_cases output (VObj fields) ty params eq_refl eq_refl).
  destruct (strict_eq_str ty "MAX_LENGTH") eqn:Em.
  { apply strict_eq_str_true in Em. rewrite Em. unfold num_gt.
    pose proof (ToNumber_throw
                  (js_or (opt_prop params "max_chars") (VNum 1000)) e)
      as Hthrow.
    destruct (ToNumber _) as [y | e'] eqn:Hy; cbn [bind].
    - split.
      + destruct (y <? length_of output)%float; discriminate.
      + intros [(_ & He & Hn) | [(Hc & _) | (Hc & _)]];
          try discriminate Hc.
        discriminate (proj2 Hthrow (conj He Hn)).
    - split.
      + intros He. injection He as ->. left.
        destruct (proj1 Hthrow eq_refl). auto.
      + intros [(_ & He & Hn) | [(Hc & _) | (Hc & _)]];
          try discriminate Hc.
        pose proof (proj2 Hthrow (conj He Hn)) as Heq.
        injection Heq as ->. reflexivity. }
  destruct (strict_eq_str ty "CONTAINS_TEXT") eqn:Ec.
  { apply strict_eq_str_true in Ec. rewrite Ec.
    pose proof (ToString_throw (opt_prop params "text") e) as Hthrow.
    destruct (truthy (opt_prop params "text")) eqn:Et.
    - destruct (ToString _) as [text | e'] eqn:Hs; cbn [bind].
      + split.
        * destruct (includes output text); discriminate.
        * intros [(Hc & _) | [(_ & He & _ & Hn) | (Hc & _)]];
            try discriminate Hc.
          discriminate (proj2 Hthrow (conj He Hn)).
      + split.
        * intros He. injection He as ->. right. left.
          destruct (proj1 Hthrow eq_refl). auto.
        * intros [(Hc & _) | [(_ & He & _ & Hn) | (Hc & _)]];
            try discriminate Hc.
          pose proof (proj2 Hthrow (conj He Hn)) as Heq.
          injection Heq as ->. reflexivity.
    - split; [discriminate |].
      intros [(Hc & _) | [(_ & _ & Hc & _) | (Hc & _)]];
        discriminate Hc. }
  destruct (strict_eq_str ty "NO_PATTERN") eqn:En.
  { apply strict_eq_str_true in En. rewrite En.
    pose proof (ToString_throw (opt_prop params "pattern") e) as Hthrow.
    destruct (truthy (opt_prop params "pattern")) eqn:Et.
    - destruct (ToString _) as [source | e'] eqn:Hs; cbn [bind].
      + destruct (RegExp_test_i source output) as [[] |] eqn:Hr; split;
          try discriminate.
        * intros [(Hc & _) | [(Hc & _) | (_ & _ & Hcase)]];
            try discriminate Hc.
          destruct Hcase as [(He & Hn) | (_ & s' & Hs' & Hr')].
          -- discriminate (proj2 Hthrow (conj He Hn)).
          -- injection Hs' as <-. congruence.
        * intros [(Hc & _) | [(Hc & _) | (_ & _ & Hcase)]];
            try discriminate Hc.
          destruct Hcase as [(He & Hn) | (_ & s' & Hs' & Hr')].
          -- discriminate (proj2 Hthrow (conj He Hn)).
          -- injection Hs' as <-. congruence.
        * intros He. injection He as <-. right. right.
          split; [reflexivity |]. split; [reflexivity |]. right.
          split; [reflexivity |]. exists source. auto.
        * intros [(Hc & _) | [(Hc & _) | (_ & _ & Hcase)]];
            try discriminate Hc.
          destruct Hcase as [(He & Hn) | (-> & _)]; [| reflexivity].
          discriminate (proj2 Hthrow (conj He Hn)).
      + split.
        * intros He. injection He as ->. right. right.
          split; [reflexivity |]. split; [reflexivity |]. left.
          destruct (proj1 Hthrow eq_refl). auto.
        * intros [(Hc & _) | [(Hc & _) | (_ & _ & Hcase)]];
            try discriminate Hc.
          destruct Hcase as [(He & Hn) | (_ & s' & Hs' & _)];
            [| discriminate Hs'].
          pose proof (proj2 Hthrow (conj He Hn)) as Heq.
          injection Heq as ->. reflexivity.
    - split; [discriminate |].
      intros [(Hc & _) | [(Hc & _) | (_ & Hc & _)]]; discriminate Hc. }
  split; [discriminate |].
  intros [(Hc & _) | [(Hc & _) | (Hc & _)]]; rewrite Hc in *;
    discriminate.
Qed.

(** The results of assertions with integer weights carry them. *)
Lemma results_integer (output : string) (assertions : list value)
      (rs : list AssertionResult.t) (ns : list positive) :
  Forall2 (fun a r => evaluate output a = Normal r) assertions rs ->
  Forall2 integer_weight assertions ns ->
  Forall2 (fun r n => AssertionResult.weight r = VNum (Z2F (Zpos n))) rs ns.
Proof.
  intros Hrs. revert ns.
  induction Hrs as [| a r rest rs' Hr _ IH]; intros ns Hns;
    inversion Hns as [| a' n rest' ns' Hn Hns']; subst; constructor.
  - apply Loop.evaluate_weight in Hr. unfold integer_weight in Hn.
    congruence.
  - apply IH. exact Hns'.
Qed.

Lemma earned_integers (rs : list AssertionResult.t) (ns : list positive) :
  Forall2 (fun r n => AssertionResult.weight r = VNum (Z2F (Zpos n))) rs ns ->
  map (fun r => number_of (AssertionResult.weight r))
      (filter AssertionResult.passed rs) =
  map (fun n => Z2F (Zpos n))
      (map snd (filter (fun p => AssertionResult.passed (fst p))
                  (combine rs ns))) /\
  map (fun r => number_of (AssertionResult.weight r)) rs =
  map (fun n => Z2F (Zpos n)) ns /\
  Forall (fun r => exists x, AssertionResult.weight r = VNum x) rs /\
  (0 <= earned_of rs ns <= total_of ns)%Z.
Proof.
  unfold earned_of.
  induction 1 as [| r n rs' ns' Hw _ (IH1 & IH2 & IH3 & IH4)].
  - cbn. repeat split; try constructor; lia.
  - cbn [combine filter fst map]. rewrite IH2, Hw. rewrite ?number_of_num.
    pose proof (Loop.total_of_nonneg ns') as Hnn.
    rewrite Loop.total_of_cons.
    destruct (AssertionResult.passed r); cbn [map snd].
    + rewrite IH1, Hw. rewrite ?number_of_num. rewrite Loop.total_of_cons.
      repeat split; try lia. constructor; [eauto | exact IH3].
    + rewrite IH1. repeat split; try lia. constructor; [eauto | exact IH3].
Qed.

(** With integer weights whose total is below [2^53], the score is
    line 70 on the exact sums. *)
Lemma integer_score (output : string) (config : value) (threshold : float)
      (assertions : list value) (ns : list positive) (st : Vars) :
  assertions_of config = Normal assertions ->
  Forall2 integer_weight assertions ns ->
  (total_of ns < 2 ^ 53)%Z ->
  validation output config threshold = Normal st ->
  score st = VNum (percent (earned_of (results st) ns) (total_of ns)) /\
  (0 <= earned_of (results st) ns <= total_of ns)%Z.
Proof.
  intros Ha Hns Hlt Hv.
  destruct (Loop.validation_normal _ _ _ _ Hv)
    as (assertions0 & rs & Ha0 & Hrs & Hst).
  assert (assertions0 = assertions) as -> by congruence.
  pose proof (results_integer output assertions rs ns
                (proj1 (evaluate_all_Forall2 _ _ _) Hrs) Hns) as Hw.
  destruct (earned_integers rs ns Hw) as (Hearned & Hmap & Hnum & HE).
  pose proof (Loop.total_of_nonneg ns) as Hnn.
  pose proof (Loop.sum_integers ns 0 ltac:(lia) ltac:(lia)) as Htotal.
  pose proof (Loop.sum_integers
                (map snd (filter (fun p => AssertionResult.passed (fst p))
                            (combine rs ns))) 0 ltac:(lia)
                ltac:(unfold earned_of in HE; lia)) as Hsum.
  rewrite Binary64.Z2F_zero in Htotal, Hsum. cbn [Z.add] in Htotal, Hsum.
  assert (Hres : results st = rs).
  { rewrite Hst. unfold calculated. cbn [results].
    rewrite Loop.results_fold. reflexivity. }
  rewrite Hres. split; [| exact HE].
  rewrite Hst. unfold calculated. cbn [score].
  rewrite Loop.score_fold. cbn [initial score].
  rewrite (Loop.total_numeric rs Hnum),
    (Loop.earned_numeric rs Hnum _ Binary64.zero_not_neg_zero).
  rewrite Hmap, Hearned, Htotal, Hsum.
  rewrite ?number_of_num. reflexivity.
Qed.

Lemma Forall2_Forall_r {A B : Type} (R : A -> B -> Prop) (P : B -> Prop)
      (xs : list A) (ys : list B) :
  (forall x y, R x y -> P y) -> Forall2 R xs ys -> Forall P ys.
Proof. intros HR. induction 1; constructor; eauto. Qed.

Lemma Forall_Forall2_ex {A B : Type} (R : A -> B -> Prop) (xs : list A) :
  Forall (fun x => exists y, R x y) xs <-> exists ys, Forall2 R xs ys.
Proof.
  split.
  - induction 1 as [| x xs' (y & Hy) _ (ys & IH)].
    + exists []. constructor.
    + exists (y :: ys). constructor; assumption.
  - intros (ys & Hf). induction Hf; constructor; eauto.
Qed.

Lemma failed_passed_length (rs : list AssertionResult.t) :
  (List.length (failed rs) + List.length (filter AssertionResult.passed rs) =
   List.length rs)%nat.
Proof.
  unfold failed. induction rs as [| r rs IH]; [reflexivity |].
  cbn [filter]. destruct (AssertionResult.passed r); cbn [negb List.length];
    lia.
Qed.

(** The state a completed validation ends in, field by field. *)
Lemma validation_fields (output : string) (config : value)
      (threshold : float) (assertions : list value) (st : Vars) :
  assertions_of config = Normal assertions ->
  validation output config threshold = Normal st ->
  exists (rs : list AssertionResult.t) (s : float),
    Forall2 (fun a r => evaluate output a = Normal r) assertions rs /\
    results st = rs /\
    failedCount st = List.length (failed rs) /\
    warningsCount st = 0%nat /\
    score st = VNum s /\
    passed st = ((threshold <=? s)%float && (failedCount st =? 0)%nat) /\
    forall threshold' : float,
      validation output config threshold' =
      Normal {| score := VNum s;
                passed := (threshold' <=? s)%float
                          && (failedCount st =? 0)%nat;
                failedCount := failedCount st;
                warningsCount := 0;
                results := rs |}.
Proof.
  intros Ha Hv.
  destruct (Loop.validation_normal _ _ _ _ Hv)
    as (assertions0 & rs & Ha0 & Hrs & Hst).
  assert (assertions0 = assertions) as -> by congruence.
  exists rs. eexists.
  split; [apply Loop.evaluate_all_Forall2; exact Hrs |].
  rewrite Hst. unfold calculated.
  cbn [results failedCount warningsCount score passed].
  rewrite Loop.results_fold, Loop.failedCount_fold, Loop.warningsCount_fold.
  cbn [initial results failedCount warningsCount app Nat.add].
  repeat (split; [reflexivity |]).
  intros threshold'.
  rewrite (Loop.validation_complete _ _ threshold' _ _ Ha Hrs
             (Loop.validation_converts _ _ _ _ _ _ Ha Hrs Hv)).
  unfold calculated.
  rewrite Loop.results_fold, Loop.failedCount_fold, Loop.warningsCount_fold.
  reflexivity.
Qed.

(** Without a failed result every result passed, with the message
    [Passed]. *)
Lemma no_failure_results (output : string) (assertions : list value)
      (rs : list AssertionResult.t) :
  Forall2 (fun a r => evaluate output a = Normal r) assertions rs ->
  failed rs = [] ->
  Forall (fun r => AssertionResult.passed r = true /\
                   AssertionResult.message r = "Passed") rs.
Proof.
  unfold failed.
  induction 1 as [| a r rest rs' Hr _ IH]; intros Hnone; constructor;
    cbn [filter] in Hnone;
    destruct (AssertionResult.passed r) eqn:Hpass; try discriminate.
  - split; [reflexivity |].
    apply Loop.evaluate_inv in Hr. destruct Hr as (_ & _ & Hc).
    rewrite Hpass in Hc.
    apply (Loop.simple_checks_message _ _ _ _ Hc). reflexivity.
  - apply IH. exact Hnone.
Qed.

Lemma total_of_perm (ns ns' : list positive) :
  Permutation ns ns' -> total_of ns = total_of ns'.
Proof.
  induction 1 as [| n ns ns' _ IH | n m ns | ns ns' ns'' _ IH1 _ IH2].
  - reflexivity.
  - rewrite !Loop.total_of_cons, IH. reflexivity.
  - rewrite !Loop.total_of_cons. lia.
  - congruence.
Qed.

Lemma total_of_pos (ns : list positive) : ns <> [] -> (0 < total_of ns)%Z.
Proof.
  destruct ns as [| n ns]; [congruence |]. intros _.
  rewrite Loop.total_of_cons. pose proof (Loop.total_of_nonneg ns). lia.
Qed.

Lemma filter_perm {A : Type} (f : A -> bool) (l l' : list A) :
  Permutation l l' -> Permutation (filter f l) (filter f l').
Proof.
  induction 1 as [| x l l' _ IH | x y l | l l' l'' _ IH1 _ IH2].
  - constructor.
  - cbn [filter]. destruct (f x); [constructor |]; exact IH.
  - cbn [filter]. destruct (f x), (f y);
      try apply Permutation_refl. apply perm_swap.
  - exact (Permutation_trans IH1 IH2).
Qed.

Lemma combine_fst_snd {A B : Type} (l : list (A * B)) :
  combine (map fst l) (map snd l) = l.
Proof.
  induction l as [| [a b] l IH]; [reflexivity |].
  cbn [map combine fst snd]. rewrite IH. reflexivity.
Qed.

Lemma Forall2_combine {A B C : Type} (R : A -> B -> Prop) (S : A -> C -> Prop)
      (xs : list A) (ys : list B) (zs : list C) :
  Forall2 R xs ys -> Forall2 S xs zs ->
  Forall2 (fun x p => R x (fst p) /\ S x (snd p)) xs (combine ys zs) /\
  map fst (combine ys zs) = ys /\ map snd (combine ys zs) = zs.
Proof.
  intros HR. revert zs.
  induction HR as [| x y xs' ys' Hxy _ IH]; intros zs HS;
    inversion HS as [| x' z xs'' zs' Hxz HS']; subst.
  - repeat split. constructor.
  - destruct (IH zs' HS') as (IH1 & IH2 & IH3).
    cbn [combine map fst snd]. rewrite IH2, IH3.
    repeat split. constructor; [split; assumption | exact IH1].
Qed.

(** An assertion has one evaluation. *)
Lemma evaluate_functional (output : string) (assertions : list value)
      (rs rs' : list AssertionResult.t) :
  Forall2 (fun a r => evaluate output a = Normal r) assertions rs ->
  Forall2 (fun a r => evaluate output a = Normal r) assertions rs' ->
  rs = rs'.
Proof.
  intros Hrs Hrs'. apply Loop.evaluate_all_Forall2 in Hrs, Hrs'. congruence.
Qed.

(** Reordering assertions with integer weights reorders the results
    and the weights together: the totals are the same. *)
Lemma permuted_integers (output : string) (assertions assertions' : list value)
      (rs : list AssertionResult.t) (ns : list positive) :
  Permutation assertions assertions' ->
  Forall2 (fun a r => evaluate output a = Normal r) assertions rs ->
  Forall2 integer_weight assertions ns ->
  exists (rs' : list AssertionResult.t) (ns' : list positive),
    Forall2 (fun a r => evaluate output a = Normal r) assertions' rs' /\
    Forall2 integer_weight assertions' ns' /\
    total_of ns' = total_of ns /\
    earned_of rs' ns' = earned_of rs ns.
Proof.
  intros Hperm Hrs Hns.
  destruct (Forall2_combine _ _ _ _ _ Hrs Hns) as (Hboth & Hfst & Hsnd).
  destruct (Permutation_Forall2 Hperm Hboth) as (l' & Hl' & Hboth').
  exists (map fst l'), (map snd l'). split; [| split; [| split]].
  - clear Hl' Hperm. induction Hboth' as [| a p xs ps [Hr _] _ IH];
      cbn [map]; constructor; assumption.
  - clear Hl' Hperm. induction Hboth' as [| a p xs ps [_ Hn] _ IH];
      cbn [map]; constructor; assumption.
  - rewrite <- Hsnd. symmetry. apply total_of_perm, Permutation_map.
    exact Hl'.
  - unfold earned_of. rewrite combine_fst_snd. symmetry.
    apply total_of_perm, Permutation_map, filter_perm. exact Hl'.
Qed.

Lemma append_assoc (a b c : string) : (a ++ b) ++ c = a ++ (b ++ c).
Proof.
  induction a as [| x a IH]; [reflexivity |]. cbn. rewrite IH. reflexivity.
Qed.

(** The checks of a [MAX_LENGTH] assertion. *)
Lemma max_length_passes (output : string) (a : value) :
  prop a "type" = Normal (VStr "MAX_LENGTH") ->
  exists params : value,
    prop a "params" = Normal params /\
    (passes output a <->
     num_gt (length_of output)
            (js_or (opt_prop params "max_chars") (VNum 1000)) =
     Normal false).
Proof.
  intros Hty.
  destruct (Loop.prop_defined a "type" _ Hty "params") as (params & Hpa).
  exists params. split; [exact Hpa |].
  unfold passes. rewrite (simple_checks_cases output a _ _ Hty Hpa).
  change (strict_eq_str (VStr "MAX_LENGTH") "MAX_LENGTH") with true.
  cbv iota.
  destruct (num_gt _ _) as [[] | e]; cbn [bind]; split.
  - intros (m & Hm). discriminate.
  - discriminate.
  - reflexivity.
  - intros _. eexists. reflexivity.
  - intros (m & Hm). discriminate.
  - discriminate.
Qed.

(** The checks of a [CONTAINS_TEXT] assertion. *)
Lemma contains_text_passes (output : string) (a : value) :
  prop a "type" = Normal (VStr "CONTAINS_TEXT") ->
  exists params : value,
    prop a "params" = Normal params /\
    (passes output a <->
     truthy (opt_prop params "text") = false \/
     exists text : string,
       ToString (opt_prop params "text") = Normal text /\
       includes output text = true).
Proof.
  intros Hty.
  destruct (Loop.prop_defined a "type" _ Hty "params") as (params & Hpa).
  exists params. split; [exact Hpa |].
  unfold passes. rewrite (simple_checks_cases output a _ _ Hty Hpa).
  change (strict_eq_str (VStr "CONTAINS_TEXT") "MAX_LENGTH") with false.
  change (strict_eq_str (VStr "CONTAINS_TEXT") "CONTAINS_TEXT") with true.
  cbv iota.
  destruct (truthy (opt_prop params "text")).
  - destruct (ToString (opt_prop params "text")) as [text | e];
      cbn [bind].
    + destruct (includes output text) eqn:Hin; split.
      * intros _. right. exists text. auto.
      * intros _. eexists. reflexivity.
      * intros (m & Hm). discriminate.
      * intros [Hf | (s & Hs & Hi)]; [discriminate |].
        injection Hs as <-. congruence.
    + split.
      * intros (m & Hm). discriminate.
      * intros [Hf | (s & Hs & _)]; discriminate.
  - split; [auto |]. intros _. eexists. reflexivity.
Qed.

Lemma earned_of_app (rs : list AssertionResult.t) (ns : list positive)
      (r : AssertionResult.t) (n : positive) :
  List.length rs = List.length ns ->
  earned_of (rs ++ [r]) (ns ++ [n]) =
  (earned_of rs ns + if AssertionResult.passed r then Zpos n else 0)%Z.
Proof.
  unfold earned_of. revert ns.
  induction rs as [| r0 rs IH]; intros [| n0 ns] Hlen;
    try discriminate Hlen.
  - cbn. destruct (AssertionResult.passed r); reflexivity.
  - cbn [app combine filter fst].
    injection Hlen as Hlen. specialize (IH ns Hlen).
    destruct (AssertionResult.passed r0); cbn [map snd].
    + rewrite !Loop.total_of_cons, IH. lia.
    + exact IH.
Qed.

(** The score when no result passed. *)
Lemma nothing_earned (rs : list AssertionResult.t) :
  Forall (fun r => exists x, AssertionResult.weight r = VNum x) rs ->
  filter AssertionResult.passed rs = [] ->
  score (calculated (fold_left pushed rs initial)
           (fold_left (fun s r => added s (AssertionResult.weight r)) rs
              (VNum 0)) 0) = VNum 0.
Proof.
  intros Hnum Hnone. unfold calculated. cbn [score].
  rewrite Loop.score_fold. cbn [initial score].
  rewrite (Loop.total_numeric rs Hnum),
    (Loop.earned_numeric rs Hnum _ Binary64.zero_not_neg_zero), Hnone.
  cbn [map fold_left]. rewrite ?number_of_num.
  destruct (0 <? _)%float eqn:Hpos; [| reflexivity].
  rewrite (Binary64.zero_percent _ Hpos). reflexivity.
Qed.

(** The weights the configuration writes are the weights line 35
    reads, when they are positive integers below [2^53] or omitted. *)
Lemma configured_integer (a : value) (n : positive) :
  configured_weight a n -> (Zpos n < 2 ^ 53)%Z -> integer_weight a n.
Proof.
  unfold configured_weight, integer_weight, weight_of.
  intros [Hw | [Hw ->]] Hn; rewrite Hw; cbn [bind]; [| reflexivity].
  unfold js_or. cbn [truthy]. rewrite (Binary64.Z2F_truthy n Hn).
  reflexivity.
Qed.

Lemma configured_integers (assertions : list value) (ns : list positive) :
  Forall2 configured_weight assertions ns ->
  (total_of ns < 2 ^ 53)%Z ->
  Forall2 integer_weight assertions ns.
Proof.
  induction 1 as [| a n rest ns' Hn _ IH]; intros Hlt; constructor.
  - apply (configured_integer a n Hn).
    rewrite total_of_cons in Hlt. pose proof (total_of_nonneg ns'). lia.
  - apply IH. rewrite total_of_cons in Hlt. lia.
Qed.

(** A relation along two lists together with a property of the second
    list. *)
Lemma Forall2_with {A B : Type} (R : A -> B -> Prop) (P : B -> Prop)
      (xs : list A) (ys : list B) :
  Forall2 R xs ys /\ Forall P ys <->
  Forall2 (fun x y => R x y /\ P y) xs ys.
Proof.
  split.
  - intros [HR HP]. induction HR as [| x y xs ys Hxy _ IH];
      [constructor |].
    inversion HP; subst. constructor; auto.
  - induction 1 as [| x y xs ys [HR HP] _ [IH1 IH2]]; split; constructor;
      auto.
Qed.

(** Every iteration of the loop completes when every assertion
    evaluates and the weights of those that passed convert. *)
Lemma iterates_all (output : string) (assertions : list value) :
  Forall (iterates output) assertions <->
  exists rs : list AssertionResult.t,
    evaluate_all output assertions = Normal rs /\
    Forall (fun r => AssertionResult.passed r = true ->
                     converts (AssertionResult.weight r)) rs.
Proof.
  unfold iterates. split.
  - intros HF. apply Forall_Forall2_ex in HF. destruct HF as (rs & HF).
    apply Forall2_with in HF. destruct HF as [Hrs HP].
    exists rs. split; [apply evaluate_all_Forall2; exact Hrs | exact HP].
  - intros (rs & Hrs & HP). apply Forall_Forall2_ex. exists rs.
    apply Forall2_with. split; [apply evaluate_all_Forall2; exact Hrs |].
    exact HP.
Qed.

(** A result with a property, and the assertion it evaluates. *)
Lemma Exists_evaluated (output : string) (assertions : list value)
      (rs : list AssertionResult.t) (P : AssertionResult.t -> Prop) :
  evaluate_all output assertions = Normal rs ->
  (Exists P rs <->
   Exists (fun a => exists r, evaluate output a = Normal r /\ P r)
     assertions).
Proof.
  rewrite evaluate_all_Forall2.
  induction 1 as [| a r assertions rs Hr _ IH].
  - split; intros HE; inversion HE.
  - rewrite !Exists_cons, IH. split.
    + intros [HP | HE]; [left; exists r; auto | right; exact HE].
    + intros [(r' & Hr' & HP) | HE]; [left; congruence | right; exact HE].
Qed.

(** An object converts exactly when it has no own [toString]. *)
Lemma converts_object (fields : list (string * value)) :
  converts (VObj fields) <-> has_key "toString" fields = false.
Proof.
  unfold converts, ToPrimitive. cbn [ToString].
  destruct (has_key "toString" fields); cbn [bind]; split.
  - intros (p & Hp). discriminate Hp.
  - discriminate.
  - reflexivity.
  - intros _. eexists. reflexivity.
Qed.

End Loop.

End Loop.

(** * The properties of the specification *)

Module Properties.
Import JS LintAI Samples.

(** C1, the conjunction rule.  For every validation that completes,
    [score] is a Number [s], [failedCount] is the number of results that
    did not pass, and [passed] is true if and only if [s >= threshold]
    and [failedCount] is zero; so when the score meets the threshold but
    some assertion failed, [passed] is false. *)
Theorem conjunction_rule :
  forall (H : Host) (output : string) (config : value) (threshold : float)
         (st : Vars),
    validation output config threshold = Normal st ->
    exists s : float,
      score st = VNum s /\
      failedCount st = List.length (failed (results st)) /\
      (passed st = true <->
       (threshold <=? s)%float = true /\ failedCount st = 0%nat) /\
      ((threshold <=? s)%float = true -> failedCount st <> 0%nat ->
       passed st = false).
Proof.
  intros H output config threshold st Hv.
  apply Loop.validation_normal in Hv.
  destruct Hv as (assertions & rs & _ & _ & ->).
  unfold calculated. cbn [score passed failedCount results].
  eexists. split; [reflexivity |].
  rewrite Loop.failedCount_fold, Loop.results_fold.
  cbn [initial failedCount results app].
  split; [reflexivity |].
  rewrite andb_true_iff, Nat.eqb_eq. split; [reflexivity |].
  intros Hs Hf. apply andb_false_iff. right. apply Nat.eqb_neq. exact Hf.
Qed.

(** On [nine_of_ten] and the output [hello] the score is 90, above the
    threshold 70, one assertion fails, and [passed] is false. *)
Lemma conjunction_rule_witness :
  exists st : Vars,
    validation (H := test_host) "hello" nine_of_ten 70 = Normal st /\
    score st = VNum 90 /\ failedCount st = 1%nat /\ passed st = false.
Proof.
  eexists. split; [vm_compute; reflexivity |].
  destruct (conjunction_rule test_host "hello" nine_of_ten 70 _ eq_refl)
    as (s & Hs & Hf & _ & Hrule).
  split; [reflexivity |]. split; [reflexivity |].
  apply Hrule.
  - injection Hs as <-. vm_compute. reflexivity.
  - rewrite Hf. vm_compute. discriminate.
Defined.

(** C2 as stated fails.  With the weights 23 (passing) and 17
    (failing) the exact percentage is 57.5, which rounds to 58 with a
    half going up; the score is 57, because [23 / 40 * 100] is
    57.49999999999999 in binary64.  With a configured weight of 0 on
    the assertion that passes and 1 on the one that fails, the earned
    weight is 0 of 1 and the formula gives 0; the score is 50, because
    line 35 counts the weight 0 as 1. *)
Lemma score_counterexample :
  (exists st : Vars,
     validation (H := test_host) "hello" twenty_three_of_forty 50 =
       Normal st /\
     map AssertionResult.weight (results st) = [VNum 23; VNum 17] /\
     map AssertionResult.passed (results st) = [true; false] /\
     earned_of (results st) [23; 17]%positive = 23%Z /\
     spec_score 23 40 = 58%Z /\
     score st = VNum 57 /\ score st <> VNum (Z2F 58)) /\
  (exists st : Vars,
     validation (H := test_host) "hello" (config_of zero_and_one) 50 =
       Normal st /\
     map (fun a => prop a "weight") zero_and_one =
       [Normal (VNum 0); Normal (VNum 1)] /\
     map AssertionResult.passed (results st) = [true; false] /\
     spec_score 0 1 = 0%Z /\
     score st = VNum 50 /\ score st <> VNum (Z2F 0)).
Proof.
  split.
  - eexists. split; [vm_compute; reflexivity |].
    split; [reflexivity |]. split; [reflexivity |].
    split; [reflexivity |]. split; [reflexivity |].
    split; [reflexivity |]. intros E.
    apply (f_equal (fun v => match v with
                             | VNum x => PrimFloat.eqb x 57
                             | _ => false
                             end)) in E.
    vm_compute in E. discriminate.
  - eexists. split; [vm_compute; reflexivity |].
    split; [reflexivity |]. split; [reflexivity |].
    split; [reflexivity |]. split; [reflexivity |]. intros E.
    apply (f_equal (fun v => match v with
                             | VNum x => PrimFloat.eqb x 50
                             | _ => false
                             end)) in E.
    vm_compute in E. discriminate.
Qed.

(** C2, amended.  When every configured weight is a positive integer,
    an omitted weight counting 1, and the total weight is at most
    [2^45], the [score] of a completed validation is the exact
    percentage [100 * earnedWeight / totalWeight] rounded to the
    nearest integer, a half going up, and 0 for no assertion at all;
    except that on the halves 14.5, 28.5, 56.5 and 57.5 the score is
    the integer below.  [earnedWeight] is the sum of the weights of the
    assertions that passed and [totalWeight] the sum of all the
    weights. *)
Theorem score_formula :
  forall (H : Host) (output : string) (config : value) (threshold : float)
         (assertions : list value) (ns : list positive) (st : Vars),
    assertions_of config = Normal assertions ->
    Forall2 configured_weight assertions ns ->
    (total_of ns <= 2 ^ 45)%Z ->
    validation output config threshold = Normal st ->
    let earned := earned_of (results st) ns in
    let total := total_of ns in
    (0 <= earned <= total)%Z /\
    score st =
      VNum (Z2F (spec_score earned total
                 - if low_tie earned total then 1 else 0)) /\
    (low_tie earned total = false ->
     score st = VNum (Z2F (spec_score earned total))) /\
    (low_tie earned total = true <->
     (200 * earned = 29 * total \/ 200 * earned = 57 * total \/
      200 * earned = 113 * total \/ 200 * earned = 115 * total)%Z /\
     (0 < total)%Z).
Proof.
  intros H output config threshold assertions ns st Ha Hns Hlt Hv
         earned total.
  assert (Hint : Forall2 integer_weight assertions ns).
  { apply (Loop.configured_integers _ _ Hns).
    assert (2 ^ 45 < 2 ^ 53)%Z by (vm_compute; reflexivity). lia. }
  assert (Hbound : (total_of ns < 2 ^ 53)%Z).
  { assert (2 ^ 45 < 2 ^ 53)%Z by (vm_compute; reflexivity). lia. }
  destruct (Loop.integer_score _ _ _ _ _ _ Ha Hint Hbound Hv) as [Hs HE].
  fold earned total in Hs, HE.
  split; [exact HE |].
  assert (Hscore : score st =
                   VNum (Z2F (spec_score earned total
                              - if low_tie earned total then 1 else 0))).
  { rewrite Hs. f_equal. unfold spec_score.
    destruct (Z.ltb_spec 0 total) as [Hpos | Hzero].
    - apply Binary64.percent_half_up; [exact HE |]. subst total. lia.
    - assert (total = 0%Z) as -> by lia.
      assert (earned = 0%Z) as -> by lia. reflexivity. }
  split; [exact Hscore |].
  split; [intros Hno; rewrite Hscore, Hno, Z.sub_0_r; reflexivity |].
  unfold low_tie, low_ties. cbn [existsb].
  rewrite andb_true_iff, !orb_true_iff, Z.eqb_eq, !Z.eqb_eq.
  set (k := (100 * earned / total)%Z).
  split.
  - intros [Hhalf [Hk | [Hk | [Hk | [Hk | Hk]]]]]; try discriminate Hk;
      rewrite Hk in Hhalf.
    + split; [left; lia |]. destruct (Z.eq_dec total 0) as [Hz | Hz]; [| lia].
      subst k. rewrite Hz, Z.div_0_r in Hk. discriminate.
    + split; [right; left; lia |].
      destruct (Z.eq_dec total 0) as [Hz | Hz]; [| lia].
      subst k. rewrite Hz, Z.div_0_r in Hk. discriminate.
    + split; [right; right; left; lia |].
      destruct (Z.eq_dec total 0) as [Hz | Hz]; [| lia].
      subst k. rewrite Hz, Z.div_0_r in Hk. discriminate.
    + split; [right; right; right; lia |].
      destruct (Z.eq_dec total 0) as [Hz | Hz]; [| lia].
      subst k. rewrite Hz, Z.div_0_r in Hk. discriminate.
  - intros [Hcase Hpos].
    assert (Hdiv : forall c : Z,
               (200 * earned = (2 * c + 1) * total)%Z -> k = c).
    { intros c Hc. subst k. symmetry.
      apply Z.div_unique with (r := (100 * earned - total * c)%Z); lia. }
    destruct Hcase as [Hc | [Hc | [Hc | Hc]]].
    + rewrite (Hdiv 14%Z) by lia. split; [lia | auto].
    + rewrite (Hdiv 28%Z) by lia. split; [lia | auto].
    + rewrite (Hdiv 56%Z) by lia. split; [lia | auto 6].
    + rewrite (Hdiv 57%Z) by lia. split; [lia | auto 6].
Qed.

(** The weights 7 (passing) and 1 (failing): the exact percentage is
    87.5, a half that goes up, and the score is 88. *)
Lemma score_formula_witness :
  exists st : Vars,
    validation (H := test_host) "hello" (config_of seven_of_eight) 50 =
      Normal st /\
    earned_of (results st) [7; 1]%positive = 7%Z /\
    spec_score 7 8 = 88%Z /\
    score st = VNum (Z2F 88).
Proof.
  edestruct (score_formula test_host "hello" (config_of seven_of_eight) 50
               seven_of_eight [7; 1]%positive)
    as (_ & _ & Hexact & _).
  - reflexivity.
  - repeat constructor; left; vm_compute; reflexivity.
  - vm_compute. discriminate.
  - vm_compute. reflexivity.
  - eexists. split; [reflexivity |]. split; [reflexivity |].
    split; [reflexivity |]. apply Hexact. vm_compute. reflexivity.
Defined.

(** The quotient is rounded to binary64 before [Math.round] sees it:
    with the weights 23 (passing) and 17 (failing), [23 / 40 * 100] is
    57.49999999999999 and the score is 57. *)
Example twenty_three_of_forty_scores_57 :
  (23 / 40 * 100 <? 57.5)%float = true /\
  exists st : Vars,
    validation (H := test_host) "hello" twenty_three_of_forty 50 = Normal st /\
    score st = VNum 57.
Proof.
  split; [vm_compute; reflexivity |].
  eexists. split; [vm_compute; reflexivity |]. reflexivity.
Qed.

(** [Math.round] on a tie and next to one. *)
Example Math_round_values :
  Math_round 0.5 = 1%float /\ Math_round 2.5 = 3%float /\
  Math_round (-2.5) = (-2)%float /\ Math_round 87.5 = 88%float /\
  Math_round 0.49999999999999994 = 0%float /\
  Math_round (-0.5) = PrimFloat.neg_zero /\
  Math_round PrimFloat.nan = PrimFloat.nan.
Proof. vm_compute. repeat split. Qed.

(** C3, the empty configuration.  When [assertions] is the empty list,
    or is absent ([||] then puts the empty list), the validation
    completes with score 0, no failure, no result, and [passed] is
    [threshold <= 0]; this for every output and every threshold. *)
Theorem empty_assertions :
  forall (H : Host) (output : string) (fields : list (string * value))
         (threshold : float),
    js_or (lookup "assertions" fields) (VArr []) = VArr [] ->
    validation output (VObj fields) threshold =
    Normal {| score := VNum 0;
              passed := (threshold <=? 0)%float;
              failedCount := 0;
              warningsCount := 0;
              results := [] |}.
Proof.
  intros H output fields threshold Hempty.
  unfold validation, assertions_of. cbn [prop bind]. rewrite Hempty.
  cbn [bind for_of reduce].
  rewrite Loop.calculate_calculated by reflexivity.
  unfold calculated, initial.
  cbn [score failedCount warningsCount results].
  change (0 <? number_of (VNum 0))%float with false. cbv iota.
  rewrite Nat.eqb_refl, andb_true_r. reflexivity.
Qed.

(** An empty list passes at threshold 0; a configuration without
    [assertions] fails at threshold 70. *)
Lemma empty_assertions_witness :
  validation (H := test_host) "any output" (config_of []) 0 =
    Normal {| score := VNum 0; passed := true; failedCount := 0;
              warningsCount := 0; results := [] |} /\
  validation (H := test_host) "any output" (VObj []) 70 =
    Normal {| score := VNum 0; passed := false; failedCount := 0;
              warningsCount := 0; results := [] |}.
Proof.
  split.
  - apply (empty_assertions test_host "any output" _ 0). reflexivity.
  - apply (empty_assertions test_host "any output" [] 70). reflexivity.
Defined.

(** C4 as stated fails.  A configured weight of 0 is replaced by 1:
    the result carries 1 and the score grows by 1.  A weight that is
    not a number, the string [heavy], is kept as it is, not replaced
    by 1. *)
Lemma weight_counterexample :
  (prop zero_weighted "weight" = Normal (VNum 0) /\
   exists (st' : Vars) (r : AssertionResult.t),
     loop_body (H := test_host) "hello" initial zero_weighted = Normal st' /\
     results st' = [r] /\
     AssertionResult.weight r = VNum 1 /\
     AssertionResult.weight r <> VNum 0 /\
     score st' = VNum 1) /\
  (prop heavy_weighted "weight" = Normal (VStr "heavy") /\
   exists (st' : Vars) (r : AssertionResult.t),
     loop_body (H := test_host) "hello" initial heavy_weighted = Normal st' /\
     results st' = [r] /\
     AssertionResult.weight r = VStr "heavy" /\
     AssertionResult.weight r <> VNum 1).
Proof.
  split; (split; [reflexivity |]); eexists; eexists;
    (split; [vm_compute; reflexivity |]); (split; [reflexivity |]);
    (split; [reflexivity |]); cbn [AssertionResult.weight].
  - split; [| reflexivity]. intros E.
    apply (f_equal (fun v => match v with
                             | VNum x => PrimFloat.eqb x 1
                             | _ => false
                             end)) in E.
    vm_compute in E. discriminate.
  - discriminate.
Qed.

(** C4, amended.  In an iteration that completes, the weight copied
    into the result, added to [score] when the assertion passes, and
    added by [reduce], is the configured weight when that value is
    truthy, whatever its type, and 1 when it is falsy; the falsy values
    are [undefined] (the weight is omitted), [null], [false], the empty
    string, [0], [-0] and NaN.  The two additions convert the weight to
    a primitive: the one of [reduce] is the [+] of line 69 on that
    weight, and it throws a TypeError when the weight is an object that
    does not convert, also for an assertion that did not pass. *)
Theorem weight_defaulting :
  forall (H : Host) (output : string) (st st' : Vars) (a : value),
    loop_body output st a = Normal st' ->
    exists (w : value) (r : AssertionResult.t),
      prop a "weight" = Normal w /\
      results st' = (results st ++ [r])%list /\
      js_add (score st)
        (if AssertionResult.passed r then AssertionResult.weight r
         else VNum 0) = Normal (score st') /\
      (forall sum0 : value,
         reduce sum0 [a] = js_add sum0 (AssertionResult.weight r)) /\
      (forall sum0 : value,
         primitive sum0 = true ->
         ~ converts (AssertionResult.weight r) ->
         reduce sum0 [a] = Throw TypeError) /\
      (truthy w = true -> AssertionResult.weight r = w) /\
      (truthy w = false -> AssertionResult.weight r = VNum 1) /\
      (truthy w = false <->
       w = VUndefined \/ w = VNull \/ w = VBool false \/ w = VStr "" \/
       w = VNum 0 \/ w = VNum PrimFloat.neg_zero \/ w = VNum PrimFloat.nan).
Proof.
  intros H output st st' a Hbody.
  rewrite Loop.loop_body_push in Hbody.
  apply Loop.bind_normal in Hbody. destruct Hbody as (r & Hr & Hst).
  unfold push in Hst.
  apply Loop.bind_normal in Hst. destruct Hst as (sc & Hsc & Hst).
  injection Hst as <-.
  pose proof (Loop.evaluate_weight _ _ _ Hr) as Hw.
  assert (Hreduce : forall sum0 : value,
             reduce sum0 [a] = js_add sum0 (AssertionResult.weight r)).
  { intros sum0. cbn [reduce]. rewrite Hw. cbn [bind].
    destruct (js_add sum0 (AssertionResult.weight r)); reflexivity. }
  unfold weight_of in Hw.
  apply Loop.bind_normal in Hw. destruct Hw as (w & Hprop & Hw).
  injection Hw as Hw.
  exists w, r. split; [exact Hprop |]. split; [reflexivity |].
  split; [exact Hsc |]. split; [exact Hreduce |].
  split.
  { intros sum0 Hprim Hn. rewrite Hreduce.
    apply (Loop.js_add_throw _ _ _ Hprim), Loop.not_converts. exact Hn. }
  unfold js_or in Hw.
  split; [intros Ht; rewrite Ht in Hw; congruence |].
  split; [intros Ht; rewrite Ht in Hw; congruence |].
  split.
  - destruct w as [| | [] | x | s | l | f]; cbn [truthy]; intros Ht;
      try discriminate; auto 10.
    + apply negb_false_iff, Binary64.falsy_number in Ht.
      destruct Ht as [-> | [-> | ->]]; auto 10.
    + apply negb_false_iff, String.eqb_eq in Ht. subst s. auto 10.
  - intros [-> | [-> | [-> | [-> | [-> | [-> | ->]]]]]]; reflexivity.
Qed.

(** A weight of 2.5 is used as it is. *)
Lemma weight_defaulting_witness :
  exists st' : Vars,
    loop_body (H := test_host) "hello" initial two_and_a_half = Normal st' /\
    score st' = VNum 2.5 /\
    exists (w : value) (r : AssertionResult.t),
      prop two_and_a_half "weight" = Normal w /\
      results st' = [r] /\ AssertionResult.weight r = w.
Proof.
  eexists. split; [vm_compute; reflexivity |]. split; [reflexivity |].
  destruct (weight_defaulting test_host "hello" initial _ two_and_a_half
              eq_refl)
    as (w & r & Hw & Hres & _ & _ & _ & Htrue & _).
  exists w, r. split; [exact Hw |]. split; [exact Hres |].
  apply Htrue. vm_compute in Hw. injection Hw as <-. vm_compute. reflexivity.
Defined.

(** A weight that does not convert: the iteration of an assertion that
    passes throws at line 65; the iteration of one that fails
    completes, adding 0, and the validation throws at line 69. *)
Example unconvertible_weight :
  ~ converts (H := test_host) unconvertible /\
  loop_body (H := test_host) "hello" initial custom_unconvertible =
    Throw TypeError /\
  (exists st' : Vars,
     loop_body (H := test_host) "hello" initial failing_unconvertible =
       Normal st' /\ score st' = VNum 0) /\
  reduce (H := test_host) (VNum 0) [failing_unconvertible] =
    Throw TypeError /\
  validation (H := test_host) "hello" (config_of [failing_unconvertible]) 50 =
    Throw TypeError.
Proof.
  split; [intros (p & Hp); discriminate |].
  split; [reflexivity |].
  split; [eexists; split; [vm_compute; reflexivity | reflexivity] |].
  split; reflexivity.
Qed.

(** The [if] chain on a [MAX_LENGTH] assertion whose limit, after
    [|| 1000], is the Number [limit]. *)
Lemma max_length_checks {H : Host} (output : string) (a params : value)
      (limit : float) :
  prop a "type" = Normal (VStr "MAX_LENGTH") ->
  prop a "params" = Normal params ->
  js_or (opt_prop params "max_chars") (VNum 1000) = VNum limit ->
  simple_checks output a =
  Normal (if (limit <? length_of output)%float
          then (false,
                "Output too long: " ++ decimal (String.length output)
                  ++ " chars")
          else (true, "Passed")).
Proof.
  intros Htype Hparams Hlimit.
  rewrite (Loop.simple_checks_cases output a _ _ Htype Hparams), Hlimit.
  change (strict_eq_str (VStr "MAX_LENGTH") "MAX_LENGTH") with true.
  cbv iota. unfold num_gt. cbn [ToNumber ToPrimitive bind].
  destruct (limit <? length_of output)%float; reflexivity.
Qed.

(** C5 as stated fails at [max_chars = 0]: the output [a] has length 1,
    above 0, and the assertion passes. *)
Lemma max_length_counterexample :
  opt_prop (VObj [("max_chars", VNum 0)]) "max_chars" = VNum 0 /\
  num_gt (H := test_host) (length_of "a") (VNum 0) = Normal true /\
  simple_checks (H := test_host) "a" at_most_0 = Normal (true, "Passed") /\
  ~ (exists message : string,
       simple_checks (H := test_host) "a" at_most_0 =
       Normal (false, message)).
Proof.
  split; [reflexivity |]. split; [vm_compute; reflexivity |].
  assert (Hpass : simple_checks (H := test_host) "a" at_most_0 =
                  Normal (true, "Passed")) by (vm_compute; reflexivity).
  split; [exact Hpass |].
  intros (message & Hfail). rewrite Hpass in Hfail. discriminate.
Qed.

(** C5, amended.  For a [MAX_LENGTH] assertion whose [max_chars] is a
    Number other than 0 (and other than NaN, which JSON cannot write),
    or is absent, the limit then being 1000: the assertion passes when
    the length of the output is at most the limit, in particular when
    it is the limit, and fails with the message
    [Output too long: {len} chars] when the length is above the limit,
    in particular when the limit is an integer and the length is that
    integer plus one. *)
Theorem max_length_rule :
  forall (H : Host) (output : string) (a params : value) (limit : float),
    prop a "type" = Normal (VStr "MAX_LENGTH") ->
    prop a "params" = Normal params ->
    (opt_prop params "max_chars" = VNum limit /\ truthy (VNum limit) = true) \/
    (opt_prop params "max_chars" = VUndefined /\ limit = 1000%float) ->
    ((length_of output <=? limit)%float = true ->
     simple_checks output a = Normal (true, "Passed")) /\
    (length_of output = limit ->
     simple_checks output a = Normal (true, "Passed")) /\
    ((limit <? length_of output)%float = true ->
     simple_checks output a =
     Normal (false,
             "Output too long: " ++ decimal (String.length output)
               ++ " chars")) /\
    (forall n : nat,
       limit = Z2F (Z.of_nat n) -> String.length output = S n ->
       (Z.of_nat (S n) < 2 ^ 53)%Z ->
       simple_checks output a =
       Normal (false,
               "Output too long: " ++ decimal (S n) ++ " chars")).
Proof.
  intros H output a params limit Htype Hparams Hlimit.
  assert (Hor : js_or (opt_prop params "max_chars") (VNum 1000) = VNum limit).
  { destruct Hlimit as [[-> Ht] | [-> ->]]; [| reflexivity].
    unfold js_or. rewrite Ht. reflexivity. }
  rewrite (max_length_checks output a params limit Htype Hparams Hor).
  split; [| split; [| split]].
  - intros Hle. rewrite (Binary64.leb_not_gt _ _ Hle). reflexivity.
  - intros <-. rewrite Binary64.ltb_irrefl. reflexivity.
  - intros ->. reflexivity.
  - intros n -> Hlen Hn. unfold length_of. rewrite Hlen.
    rewrite (Binary64.Z2F_lt (Z.of_nat n) (Z.of_nat (S n))) by lia.
    reflexivity.
Qed.

(** With [max_chars = 5], [hello] passes and [hello!] fails. *)
Lemma max_length_rule_witness :
  simple_checks (H := test_host) "hello" at_most_5 = Normal (true, "Passed") /\
  simple_checks (H := test_host) "hello!" at_most_5 =
  Normal (false, "Output too long: 6 chars").
Proof.
  split.
  - refine (proj1 (proj2 (max_length_rule test_host "hello" at_most_5
                            (VObj [("max_chars", VNum 5)]) 5
                            eq_refl eq_refl _)) _).
    + left. split; [reflexivity | vm_compute; reflexivity].
    + vm_compute. reflexivity.
  - refine (proj1 (proj2 (proj2 (max_length_rule test_host "hello!" at_most_5
                            (VObj [("max_chars", VNum 5)]) 5
                            eq_refl eq_refl _))) _).
    + left. split; [reflexivity | vm_compute; reflexivity].
    + vm_compute. reflexivity.
Defined.

(** C10, the limit 0.  For a [MAX_LENGTH] assertion whose [max_chars]
    is the Number 0, or whose [params] is missing, the limit in force
    is 1000: the outcome is that of a comparison of the length with
    1000, and every output of at most 1000 characters passes. *)
Theorem zero_limit_is_default :
  forall (H : Host) (output : string) (a params : value),
    prop a "type" = Normal (VStr "MAX_LENGTH") ->
    prop a "params" = Normal params ->
    opt_prop params "max_chars" = VNum 0 \/ params = VUndefined ->
    simple_checks output a =
      Normal (if (1000 <? length_of output)%float
              then (false,
                    "Output too long: " ++ decimal (String.length output)
                      ++ " chars")
              else (true, "Passed")) /\
    ((String.length output <= 1000)%nat ->
     simple_checks output a = Normal (true, "Passed")).
Proof.
  intros H output a params Htype Hparams Hzero.
  assert (Hor : js_or (opt_prop params "max_chars") (VNum 1000) = VNum 1000)
    by (destruct Hzero as [-> | ->]; reflexivity).
  rewrite (max_length_checks output a params 1000 Htype Hparams Hor).
  split; [reflexivity |].
  intros Hlen. unfold length_of.
  rewrite (Binary64.length_within_1000 _ Hlen). reflexivity.
Qed.

(** With [max_chars = 0] the output [hello], of length 5, passes. *)
Lemma zero_limit_is_default_witness :
  simple_checks (H := test_host) "hello" at_most_0 = Normal (true, "Passed").
Proof.
  refine (proj2 (zero_limit_is_default test_host "hello" at_most_0
                   (VObj [("max_chars", VNum 0)]) eq_refl eq_refl _) _).
  - left. reflexivity.
  - vm_compute. lia.
Defined.

(** C6, [CONTAINS_TEXT].  The assertion passes when [text] is absent
    (also with [params] absent), [null] or the empty string; for any
    other string it passes if and only if the output contains that
    string, character for character, and otherwise fails with the
    message [Missing required text: "{text}"]. *)
Theorem contains_text_rule :
  forall (H : Host) (output : string) (a params : value),
    prop a "type" = Normal (VStr "CONTAINS_TEXT") ->
    prop a "params" = Normal params ->
    (opt_prop params "text" = VUndefined \/ opt_prop params "text" = VNull \/
     opt_prop params "text" = VStr "" ->
     simple_checks output a = Normal (true, "Passed")) /\
    (forall text : string,
       opt_prop params "text" = VStr text -> text <> "" ->
       (simple_checks output a = Normal (true, "Passed") <->
        exists u v : string, output = u ++ text ++ v) /\
       (~ (exists u v : string, output = u ++ text ++ v) ->
        simple_checks output a =
        Normal (false, "Missing required text: " ++ dquote ++ text ++ dquote))).
Proof.
  intros H output a params Htype Hparams.
  rewrite (Loop.simple_checks_cases output a _ _ Htype Hparams).
  change (strict_eq_str (VStr "CONTAINS_TEXT") "MAX_LENGTH") with false.
  change (strict_eq_str (VStr "CONTAINS_TEXT") "CONTAINS_TEXT") with true.
  cbv iota. split.
  - intros [-> | [-> | ->]]; reflexivity.
  - intros text -> Htext. cbn [truthy ToString bind].
    assert (Hne : negb (String.eqb text "") = true)
      by (apply negb_true_iff, String.eqb_neq; exact Htext).
    rewrite Hne. rewrite <- Loop.includes_spec.
    destruct (includes output text); split.
    + split; reflexivity.
    + intros Hno. contradiction Hno. reflexivity.
    + split; discriminate.
    + reflexivity.
Qed.

(** [hello world] contains [hello], and [Hello world] does not: the
    comparison is sensitive to case. *)
Lemma contains_text_rule_witness :
  simple_checks (H := test_host) "hello world" needs_hello =
    Normal (true, "Passed") /\
  simple_checks (H := test_host) "Hello world" needs_hello =
    Normal (false, "Missing required text: " ++ dquote ++ "hello" ++ dquote).
Proof.
  split.
  - apply (proj2 (contains_text_rule test_host "hello world" needs_hello
                    (VObj [("text", VStr "hello")]) eq_refl eq_refl)
             "hello" eq_refl).
    + discriminate.
    + exists "", " world". reflexivity.
  - vm_compute. reflexivity.
Defined.

(** C7, [NO_PATTERN].  The assertion passes when [pattern] is absent
    (also with [params] absent), [null] or the empty string.  For any
    other string, when the host makes a regular expression of it, the
    assertion passes if and only if the expression, with the flag [i],
    matches nowhere in the output, and fails with the message
    [Output contains forbidden pattern] otherwise; when the host makes
    none, the check throws a SyntaxError.  On a host that follows the
    literal fragment, the pattern [secret] fails against the output
    [SECRET key]. *)
Theorem no_pattern_rule :
  forall (H : Host) (output : string) (a params : value),
    prop a "type" = Normal (VStr "NO_PATTERN") ->
    prop a "params" = Normal params ->
    (opt_prop params "pattern" = VUndefined \/
     opt_prop params "pattern" = VNull \/
     opt_prop params "pattern" = VStr "" ->
     simple_checks output a = Normal (true, "Passed")) /\
    (forall pattern : string,
       opt_prop params "pattern" = VStr pattern -> pattern <> "" ->
       (forall found : bool,
          RegExp_test_i pattern output = Some found ->
          simple_checks output a =
          Normal (if found then (false, "Output contains forbidden pattern")
                  else (true, "Passed"))) /\
       (RegExp_test_i pattern output = None ->
        simple_checks output a = Throw SyntaxError)) /\
    (literal_law H ->
     opt_prop params "pattern" = VStr "secret" ->
     simple_checks "SECRET key" a =
     Normal (false, "Output contains forbidden pattern")).
Proof.
  intros H output a params Htype Hparams.
  assert (Hchecks :
            forall out : string,
              simple_checks out a =
              if truthy (opt_prop params "pattern") then
                let* source := ToString (opt_prop params "pattern") in
                match RegExp_test_i source out with
                | None => Throw SyntaxError
                | Some true =>
                    Normal (false, "Output contains forbidden pattern")
                | Some false => Normal (true, "Passed")
                end
              else Normal (true, "Passed")).
  { intros out.
    rewrite (Loop.simple_checks_cases out a _ _ Htype Hparams).
    reflexivity. }
  split; [| split].
  - rewrite Hchecks. intros [-> | [-> | ->]]; reflexivity.
  - intros pattern Hp Hne. rewrite Hchecks, Hp.
    cbn [truthy ToString bind].
    assert (Hnz : negb (String.eqb pattern "") = true)
      by (apply negb_true_iff, String.eqb_neq; exact Hne).
    rewrite Hnz. split.
    + intros found ->. destruct found; reflexivity.
    + intros ->. reflexivity.
  - intros Hlaw Hp. rewrite Hchecks, Hp. cbn [truthy ToString bind].
    change (negb (String.eqb "secret" "")) with true. cbv iota.
    rewrite (Hlaw "secret" "SECRET key" eq_refl). reflexivity.
Qed.

(** The test host follows the literal fragment, and on it [secret]
    is found in [SECRET key] and not in [public key]. *)
Lemma no_pattern_rule_witness :
  literal_law test_host /\
  simple_checks (H := test_host) "SECRET key" no_secret =
    Normal (false, "Output contains forbidden pattern") /\
  simple_checks (H := test_host) "public key" no_secret =
    Normal (true, "Passed").
Proof.
  assert (Hlaw : literal_law test_host).
  { intros p s Hp. cbn [RegExp_test_i test_host]. rewrite Hp. reflexivity. }
  split; [exact Hlaw |]. split.
  - exact (proj2 (proj2 (no_pattern_rule test_host "SECRET key" no_secret
                           (VObj [("pattern", VStr "secret")])
                           eq_refl eq_refl))
             Hlaw eq_refl).
  - vm_compute. reflexivity.
Defined.

(** C8 as stated fails.  A [MAX_LENGTH] assertion without [params]
    is checked against the limit 1000, and an output of 1001
    characters fails it. *)
Lemma missing_params_counterexample :
  prop bare_max_length "params" = Normal VUndefined /\
  simple_checks (H := test_host) (replicate 1001 "a") bare_max_length =
    Normal (false, "Output too long: 1001 chars") /\
  exists st : Vars,
    validation (H := test_host) (replicate 1001 "a")
      (config_of [bare_max_length]) 0 = Normal st /\
    failedCount st = 1%nat /\ score st = VNum 0 /\ passed st = false.
Proof.
  split; [reflexivity |]. split; [vm_compute; reflexivity |].
  eexists. split; [vm_compute; reflexivity |]. repeat split.
Qed.

(** C8, amended.  An assertion that is neither [null] nor [undefined]
    passes its checks with the message [Passed], and the checks throw
    nothing, in three cases: its [type] is none of [MAX_LENGTH],
    [CONTAINS_TEXT], [NO_PATTERN]; its [type] is [CONTAINS_TEXT] or
    [NO_PATTERN] and its [params] is missing or [null]; its [type] is
    [MAX_LENGTH], its [params] is missing or [null], and the length of
    the output is not above 1000.  The iteration then pushes a passed
    result and adds the weight to [score], which holds a primitive
    throughout the loop of [run], with [+]: it completes,
    without a failure, when the weight converts to a primitive, as
    every number, string and boolean does, and throws a TypeError when
    the weight is an object that does not convert. *)
Theorem unknown_rules_pass :
  forall (H : Host) (output : string) (st : Vars) (a ty params : value),
    prop a "type" = Normal ty ->
    prop a "params" = Normal params ->
    (ty <> VStr "MAX_LENGTH" /\ ty <> VStr "CONTAINS_TEXT" /\
     ty <> VStr "NO_PATTERN") \/
    ((params = VUndefined \/ params = VNull) /\
     (ty = VStr "CONTAINS_TEXT" \/ ty = VStr "NO_PATTERN")) \/
    ((params = VUndefined \/ params = VNull) /\ ty = VStr "MAX_LENGTH" /\
     (1000 <? length_of output)%float = false) ->
    primitive (score st) = true ->
    simple_checks output a = Normal (true, "Passed") /\
    exists (w : value) (r : AssertionResult.t),
      weight_of a = Normal w /\
      evaluate output a = Normal r /\
      AssertionResult.passed r = true /\
      AssertionResult.message r = "Passed" /\
      AssertionResult.weight r = w /\
      (converts w ->
       exists st' : Vars,
         loop_body output st a = Normal st' /\
         results st' = (results st ++ [r])%list /\
         js_add (score st) w = Normal (score st') /\
         failedCount st' = failedCount st) /\
      (~ converts w -> loop_body output st a = Throw TypeError) /\
      (primitive w = true -> converts w).
Proof.
  intros H output st a ty params Htype Hparams Hcase Hprim.
  assert (Hpass : simple_checks output a = Normal (true, "Passed")).
  { rewrite (Loop.simple_checks_cases output a _ _ Htype Hparams).
    destruct Hcase as [(H1 & H2 & H3) | [(Hp & Ht) | (Hp & -> & Hlen)]].
    - rewrite (Loop.strict_eq_str_neq _ _ H1), (Loop.strict_eq_str_neq _ _ H2),
        (Loop.strict_eq_str_neq _ _ H3). reflexivity.
    - destruct Hp as [-> | ->], Ht as [-> | ->]; reflexivity.
    - destruct Hp as [-> | ->]; cbn [opt_prop];
        change (js_or VUndefined (VNum 1000)) with (VNum 1000);
        unfold num_gt; cbn [ToNumber ToPrimitive bind];
        change (strict_eq_str (VStr "MAX_LENGTH") "MAX_LENGTH") with true;
        cbv iota; rewrite Hlen; reflexivity. }
  split; [exact Hpass |].
  destruct (Loop.prop_defined a "type" ty Htype "weight") as (w0 & Hw0).
  assert (Hw : weight_of a = Normal (js_or w0 (VNum 1)))
    by (unfold weight_of; rewrite Hw0; reflexivity).
  destruct (Loop.evaluate_normal output a _ _ _ Hw Hpass) as (n & _ & Hr).
  eexists _, _. split; [exact Hw |]. split; [exact Hr |].
  cbn [AssertionResult.passed AssertionResult.message AssertionResult.weight].
  split; [reflexivity |]. split; [reflexivity |]. split; [reflexivity |].
  rewrite Loop.loop_body_push, Hr. cbn [bind].
  split; [| split].
  - intros Hconv. eexists. split.
    + apply Loop.push_pushed; [exact Hprim | intros _; exact Hconv].
    + cbn [pushed results score failedCount AssertionResult.passed
             AssertionResult.weight].
      split; [reflexivity |]. split; [| reflexivity].
      apply (Loop.added_converts _ _ Hprim Hconv).
  - intros Hn. apply (Loop.push_throw _ _ _ Hprim).
    split; [reflexivity |]. apply Loop.not_converts. exact Hn.
  - intros Hp. exists (js_or w0 (VNum 1)).
    apply Loop.primitive_converts. exact Hp.
Qed.

(** An assertion of the unknown type [SENTIMENT] and weight 3 passes
    and adds 3 to the score. *)
Lemma unknown_rules_pass_witness :
  simple_checks (H := test_host) "hello" unknown_type =
    Normal (true, "Passed") /\
  exists st' : Vars,
    loop_body (H := test_host) "hello" initial unknown_type = Normal st' /\
    js_add (H := test_host) (VNum 0) (VNum 3) = Normal (score st') /\
    failedCount st' = 0%nat.
Proof.
  edestruct (unknown_rules_pass test_host "hello" initial unknown_type
               (VStr "SENTIMENT") (VObj []) eq_refl eq_refl)
    as (Hpass & w & r & Hw & _ & _ & _ & _ & Hconv & _).
  - left. repeat split; discriminate.
  - reflexivity.
  - split; [exact Hpass |].
    vm_compute in Hw. injection Hw as <-.
    destruct (Hconv (Loop.converts_num _)) as (st' & Hb & _ & Hs & Hf).
    exists st'. split; [exact Hb |]. split; [exact Hs | exact Hf].
Defined.

(** The score of a validation in which every assertion passes and
    every weight is a Number: 100 or 0 according to the sign of the
    total, when the total is finite. *)
Lemma all_pass_validation {H : Host} (output : string) (config : value)
      (threshold : float) (assertions : list value) :
  assertions_of config = Normal assertions ->
  Forall numeric_weight assertions ->
  Forall (passes output) assertions ->
  let total := totalWeight assertions in
  exists st : Vars,
    validation output config threshold = Normal st /\
    failedCount st = 0%nat /\
    score st =
      VNum (if (0 <? total)%float then Math_round (total / total * 100)%float
            else 0%float) /\
    passed st =
      (threshold <=?
         (if (0 <? total)%float then Math_round (total / total * 100)%float
          else 0%float))%float.
Proof.
  intros Ha Hn Hp total.
  destruct (Loop.evaluate_all_passing output assertions Hn Hp)
    as (rs & Hrs & Hall & Hnone).
  destruct (Loop.evaluate_all_weights output assertions rs Hrs) as [Hw Hnum].
  specialize (Hnum Hn).
  eexists.
  split; [exact (Loop.validation_complete _ _ _ _ _ Ha Hrs
                   (Loop.numeric_converts _ Hnum)) |].
  unfold calculated. cbn [score passed failedCount].
  rewrite Loop.failedCount_fold, Loop.score_fold, Hnone.
  cbn [initial failedCount score List.length Nat.add].
  rewrite (Loop.total_numeric rs Hnum),
    (Loop.earned_numeric rs Hnum _ Binary64.zero_not_neg_zero), Hall.
  rewrite ?Loop.number_of_num. subst total.
  unfold totalWeight, sum. rewrite Hw.
  rewrite Nat.eqb_refl, andb_true_r. repeat split.
Qed.

(** C9 as stated fails.  With the weights 7 (passing) and 1 (failing)
    the score is 88, the rounding of 87.5; one more passing assertion
    of weight [1e-15] makes it 87, the sums [7 + 1e-15] and [8 + 1e-15]
    being rounded to binary64.  With the integer weights
    4638707616191696 (passing) and 4368491638549462 (failing) the score
    is 52, and one more passing assertion of weight 1 makes it 51.
    With the weights 3 (passing) and -1 (failing) the score is 150, and
    one more passing assertion of weight 1 makes it 133. *)
Lemma monotonicity_counterexample :
  (passes (H := test_host) "hello" a_little_more /\
   weight_of a_little_more = Normal (VNum 1e-15) /\
   (0 <? 1e-15)%float = true /\
   exists st st' : Vars,
     validation (H := test_host) "hello" (config_of seven_of_eight) 50 =
       Normal st /\
     validation (H := test_host) "hello"
       (config_of (seven_of_eight ++ [a_little_more])) 50 = Normal st' /\
     score st = VNum 88 /\ score st' = VNum 87 /\
     (88 <=? 87)%float = false) /\
  (passes (H := test_host) "hello" one_more /\
   weight_of one_more = Normal (VNum 1) /\
   exists st st' : Vars,
     validation (H := test_host) "hello" (config_of large_weights) 50 =
       Normal st /\
     validation (H := test_host) "hello"
       (config_of (large_weights ++ [one_more])) 50 = Normal st' /\
     score st = VNum 52 /\ score st' = VNum 51 /\
     (52 <=? 51)%float = false) /\
  (exists st st' : Vars,
     validation (H := test_host) "hello" (config_of negative_weight) 50 =
       Normal st /\
     validation (H := test_host) "hello"
       (config_of (negative_weight ++ [one_more])) 50 = Normal st' /\
     score st = VNum 150 /\ score st' = VNum 133 /\
     (150 <=? 133)%float = false).
Proof.
  split; [| split].
  - split; [exists "Passed"; vm_compute; reflexivity |].
    split; [reflexivity |]. split; [vm_compute; reflexivity |].
    eexists. eexists. split; [vm_compute; reflexivity |].
    split; [vm_compute; reflexivity |]. repeat split.
  - split; [exists "Passed"; vm_compute; reflexivity |].
    split; [reflexivity |].
    eexists. eexists. split; [vm_compute; reflexivity |].
    split; [vm_compute; reflexivity |]. repeat split.
  - eexists. eexists. split; [vm_compute; reflexivity |].
    split; [vm_compute; reflexivity |]. repeat split.
Qed.

(** When a validation reports no failed assertion and
    every weight is a Number once defaulted, appending one assertion
    that passes and has a weight above 0 gives a score that is at least
    the score before, provided the new total weight is finite (the sum
    did not overflow): the new validation completes without a failure,
    the new score is 100 or both scores are 0, and a validation that
    passed still passes. *)
Lemma failure_free_appending :
  forall (H : Host) (output : string) (config config' : value)
         (threshold : float) (assertions : list value) (extra : value)
         (w : float) (st : Vars),
    assertions_of config = Normal assertions ->
    assertions_of config' = Normal (assertions ++ [extra])%list ->
    Forall numeric_weight assertions ->
    validation output config threshold = Normal st ->
    failedCount st = 0%nat ->
    passes output extra ->
    weight_of extra = Normal (VNum w) ->
    (0 <? w)%float = true ->
    is_finite (totalWeight (assertions ++ [extra])%list) = true ->
    exists (st' : Vars) (s s' : float),
      validation output config' threshold = Normal st' /\
      score st = VNum s /\ score st' = VNum s' /\
      (s <=? s')%float = true /\
      (s' = 100%float \/ (s' = 0%float /\ s = 0%float)) /\
      failedCount st' = 0%nat /\
      (passed st = true -> passed st' = true).
Proof.
  intros H output config config' threshold assertions extra w st
         Ha Ha' Hn Hv0 Hf0 Hpe Hwe Hw Hfin.
  assert (Hp : Forall (passes output) assertions).
  { destruct (Loop.validation_normal _ _ _ _ Hv0)
      as (assertions0 & rs & Ha0 & Hrs & Hst).
    assert (assertions0 = assertions) as -> by congruence.
    apply (Loop.no_failure_passes output assertions rs Hrs).
    rewrite Hst in Hf0. unfold calculated in Hf0. cbn [failedCount] in Hf0.
    rewrite Loop.failedCount_fold in Hf0. cbn [initial failedCount] in Hf0.
    destruct (failed rs); [reflexivity | discriminate]. }
  assert (Hn' : Forall numeric_weight (assertions ++ [extra])%list).
  { apply Forall_app. split; [exact Hn |]. constructor; [| constructor].
    exists w. exact Hwe. }
  assert (Hp' : Forall (passes output) (assertions ++ [extra])%list).
  { apply Forall_app. split; [exact Hp |]. constructor; [exact Hpe |].
    constructor. }
  destruct (all_pass_validation output config threshold assertions Ha Hn Hp)
    as (st0 & Hv & _ & Hs & Hpass).
  assert (st0 = st) as -> by congruence.
  destruct (all_pass_validation output config' threshold _ Ha' Hn' Hp')
    as (st' & Hv' & Hf' & Hs' & Hpass').
  cbn zeta in Hs, Hs', Hpass, Hpass'.
  assert (Htotal : totalWeight (assertions ++ [extra])%list =
                   (totalWeight assertions + w)%float).
  { unfold totalWeight, sum. rewrite map_app, fold_left_app.
    cbn [map fold_left]. unfold spec_weight at 2. rewrite Hwe. reflexivity. }
  set (total := totalWeight assertions) in *.
  set (total' := totalWeight (assertions ++ [extra])%list) in *.
  assert (Hfull : forall t : float,
             is_finite t = true -> (0 <? t)%float = true ->
             Math_round (t / t * 100)%float = 100%float).
  { intros t Hft Hpt.
    rewrite (Binary64.div_diag t (Binary64.finite_pos t Hft Hpt)).
    vm_compute. reflexivity. }
  assert (Hpos : (0 <? total)%float = true ->
                 (0 <? total')%float = true /\ is_finite total = true).
  { intros Hpt. split.
    - rewrite Htotal. apply Binary64.add_pos; assumption.
    - apply Binary64.ltb_zero in Hpt. destruct Hpt as [(m & e & Et) | Et].
      + unfold is_finite, is_nan, is_infinity.
        rewrite !eqb_spec, abs_spec, Et. cbn [SFabs].
        unfold SFeqb. rewrite Binary64.SFcompare_refl by discriminate.
        reflexivity.
      + rewrite Htotal, Et, (Binary64.infinity_add_pos w Hw) in Hfin.
        vm_compute in Hfin. discriminate. }
  exists st'. eexists. eexists.
  split; [exact Hv' |]. split; [exact Hs |]. split; [exact Hs' |].
  destruct (0 <? total')%float eqn:Hpt'.
  - rewrite (Hfull total' Hfin Hpt') in *.
    destruct (0 <? total)%float eqn:Hpt.
    + destruct (Hpos eq_refl) as [_ Hft]. rewrite (Hfull total Hft Hpt) in *.
      split; [vm_compute; reflexivity |]. split; [left; reflexivity |].
      split; [exact Hf' |]. congruence.
    + split; [vm_compute; reflexivity |]. split; [left; reflexivity |].
      split; [exact Hf' |].
      rewrite Hpass, Hpass'. apply Binary64.leb_zero_hundred.
  - destruct (0 <? total)%float eqn:Hpt.
    + destruct (Hpos eq_refl) as [Hcontra _]. congruence.
    + split; [vm_compute; reflexivity |]. split; [right; split; reflexivity |].
      split; [exact Hf' |]. congruence.
Qed.

(** With integer weights the percentage is computed exactly as far as
    the sums go, and one more passing assertion cannot lower it,
    whatever failed before. *)
Lemma integer_appending {H : Host} (output : string) (config config' : value)
      (threshold : float) (assertions : list value) (extra : value)
      (ns : list positive) (k : positive) (st : Vars) :
  assertions_of config = Normal assertions ->
  assertions_of config' = Normal (assertions ++ [extra])%list ->
  validation output config threshold = Normal st ->
  passes output extra ->
  Forall2 integer_weight assertions ns ->
  integer_weight extra k ->
  (total_of ns + Zpos k < 2 ^ 53)%Z ->
  exists (st' : Vars) (s s' : float),
    validation output config' threshold = Normal st' /\
    score st = VNum s /\ score st' = VNum s' /\
    (s <=? s')%float = true /\
    failedCount st' = failedCount st.
Proof.
  intros Ha Ha' Hv0 (msg & Hmsg) Hns Hk Hlt.
  destruct (Loop.validation_normal _ _ _ _ Hv0)
    as (assertions0 & rs & Ha0 & Hrs & Hst).
  assert (assertions0 = assertions) as -> by congruence.
  destruct (Loop.evaluate_normal output extra _ _ _ Hk Hmsg) as (n & _ & Hre).
  assert (Hrs' : evaluate_all output (assertions ++ [extra])%list =
                 Normal (rs ++
                   [ {| AssertionResult.name := n;
                        AssertionResult.passed := true;
                        AssertionResult.message := msg;
                        AssertionResult.weight := VNum (Z2F (Zpos k)) |} ])
                   %list).
  { rewrite Loop.evaluate_all_app, Hrs. cbn [bind evaluate_all].
    rewrite Hre. reflexivity. }
  destruct (Loop.integer_results output assertions rs ns Hrs Hns)
    as (Hmap & Hnum & ps & Hearned & Hle).
  pose proof (Loop.total_of_nonneg ns) as Hnn.
  pose proof (Loop.total_of_nonneg ps) as Hpn.
  pose proof (Loop.sum_integers ns 0 ltac:(lia) ltac:(lia)) as Htotal.
  pose proof (Loop.sum_integers ps 0 ltac:(lia) ltac:(lia)) as Hsum.
  rewrite Binary64.Z2F_zero in Htotal, Hsum. cbn [Z.add] in Htotal, Hsum.
  eexists. eexists. eexists.
  assert (Hconv : Forall (fun r => converts (AssertionResult.weight r))
                    (rs ++
                     [ {| AssertionResult.name := n;
                          AssertionResult.passed := true;
                          AssertionResult.message := msg;
                          AssertionResult.weight := VNum (Z2F (Zpos k)) |} ])
                    %list).
  { apply Loop.numeric_converts, Forall_app. split; [exact Hnum |].
    repeat constructor. eexists. reflexivity. }
  split; [exact (Loop.validation_complete _ _ _ _ _ Ha' Hrs' Hconv) |].
  rewrite Hst. unfold calculated. cbn [score failedCount].
  split; [reflexivity |]. split; [reflexivity |]. split.
  - rewrite !Loop.score_fold. cbn [initial score].
    rewrite !fold_left_app. cbn [fold_left].
    rewrite (Loop.total_numeric rs Hnum),
      (Loop.earned_numeric rs Hnum _ Binary64.zero_not_neg_zero).
    cbn [AssertionResult.passed AssertionResult.weight].
    rewrite Hmap, Hearned, Htotal, Hsum.
    rewrite !Loop.added_num.
    rewrite ?Loop.number_of_num.
    rewrite !Binary64.Z2F_add by lia.
    pose proof (Binary64.Z2F_lt 0 (total_of ns + Zpos k) ltac:(lia) Hlt)
      as Hpos.
    rewrite Binary64.Z2F_zero in Hpos. rewrite Hpos.
    apply Binary64.percent_le; lia.
  - rewrite !Loop.failedCount_fold. unfold failed. rewrite filter_app.
    cbn [filter AssertionResult.passed negb]. rewrite app_nil_r.
    reflexivity.
Qed.

(** C9, amended.  Appending one assertion that passes and has a weight
    above 0 gives a score that is at least the score before, in two
    cases.  Either the validation reports no failed assertion, every
    weight is a Number once defaulted and the new total weight is
    finite (the sum did not overflow); or every weight, the new one
    too, is a positive integer and the new total is below [2^53], so
    that the sums are exact.  The new validation completes with as
    many failures as before, and a validation that passed still
    passes; without a failure the new score is 100 or both scores are
    0. *)
Theorem appending_monotone :
  forall (H : Host) (output : string) (config config' : value)
         (threshold : float) (assertions : list value) (extra : value)
         (w : float) (st : Vars),
    assertions_of config = Normal assertions ->
    assertions_of config' = Normal (assertions ++ [extra])%list ->
    validation output config threshold = Normal st ->
    passes output extra ->
    weight_of extra = Normal (VNum w) ->
    (0 <? w)%float = true ->
    (failedCount st = 0%nat /\
     Forall numeric_weight assertions /\
     is_finite (totalWeight (assertions ++ [extra])%list) = true) \/
    (exists (ns : list positive) (k : positive),
       Forall2 integer_weight assertions ns /\
       w = Z2F (Zpos k) /\
       (total_of ns + Zpos k < 2 ^ 53)%Z) ->
    exists (st' : Vars) (s s' : float),
      validation output config' threshold = Normal st' /\
      score st = VNum s /\ score st' = VNum s' /\
      (s <=? s')%float = true /\
      failedCount st' = failedCount st /\
      (passed st = true -> passed st' = true) /\
      (failedCount st = 0%nat ->
       s' = 100%float \/ (s' = 0%float /\ s = 0%float)).
Proof.
  intros H output config config' threshold assertions extra w st
         Ha Ha' Hv0 Hpe Hwe Hw Hcase.
  assert (Hfree : failedCount st = 0%nat ->
                  Forall numeric_weight assertions ->
                  is_finite (totalWeight (assertions ++ [extra])%list) = true ->
                  exists (st' : Vars) (s s' : float),
                    validation output config' threshold = Normal st' /\
                    score st = VNum s /\ score st' = VNum s' /\
                    (s <=? s')%float = true /\
                    failedCount st' = failedCount st /\
                    (passed st = true -> passed st' = true) /\
                    (failedCount st = 0%nat ->
                     s' = 100%float \/ (s' = 0%float /\ s = 0%float))).
  { intros Hf0 Hn Hfin.
    destruct (failure_free_appending H output config config' threshold
                assertions extra w st Ha Ha' Hn Hv0 Hf0 Hpe Hwe Hw Hfin)
      as (st' & s & s' & Hv' & Hs & Hs' & Hle & Hfull & Hf' & Hkeep).
    exists st', s, s'. rewrite Hf0. auto 10. }
  destruct Hcase as [(Hf0 & Hn & Hfin) | (ns & k & Hns & -> & Hlt)];
    [exact (Hfree Hf0 Hn Hfin) |].
  destruct (failedCount st) as [| fc] eqn:Hfc.
  - apply Hfree; [reflexivity | |].
    + exact (proj1 (Loop.integer_numeric assertions ns Hns)).
    + assert (Hall : Forall2 integer_weight (assertions ++ [extra])%list
                       (ns ++ [k])%list).
      { apply Forall2_app; [exact Hns |]. constructor; [exact Hwe |].
        constructor. }
      destruct (Loop.integer_numeric _ _ Hall) as [_ Hmap].
      unfold totalWeight, sum. rewrite Hmap.
      pose proof (Loop.total_of_nonneg ns) as Hnn.
      assert (Htk : total_of (ns ++ [k])%list = (total_of ns + Zpos k)%Z).
      { rewrite Loop.total_of_app. cbn. lia. }
      pose proof (Loop.sum_integers (ns ++ [k])%list 0 ltac:(lia)
                    ltac:(rewrite Htk; lia)) as Hsum.
      rewrite Binary64.Z2F_zero in Hsum. rewrite Hsum.
      apply Binary64.Z2F_finite.
      rewrite Htk. lia.
  - destruct (integer_appending output config config' threshold assertions
                extra ns k st Ha Ha' Hv0 Hpe Hns Hwe Hlt)
      as (st' & s & s' & Hv' & Hs & Hs' & Hle & Hf').
    exists st', s, s'. rewrite Hfc in Hf'.
    split; [exact Hv' |]. split; [exact Hs |]. split; [exact Hs' |].
    split; [exact Hle |]. split; [exact Hf' |].
    split; [| discriminate].
    destruct (Loop.validation_normal _ _ _ _ Hv0)
      as (assertions0 & rs & _ & _ & Hst).
    rewrite Hst in Hfc |- *. unfold calculated in Hfc |- *.
    cbn [failedCount passed] in Hfc |- *. rewrite Hfc.
    rewrite andb_false_r. discriminate.
Qed.

(** The weights 7 (passing) and 1 (failing), and one more passing
    assertion of weight 1: the score goes from 88 to 89, with one
    failure before and after. *)
Lemma appending_monotone_witness :
  exists st st' : Vars,
    validation (H := test_host) "hello" (config_of seven_of_eight) 50 =
      Normal st /\
    validation (H := test_host) "hello"
      (config_of (seven_of_eight ++ [one_more])) 50 = Normal st' /\
    score st = VNum 88 /\ score st' = VNum 89 /\
    failedCount st' = 1%nat.
Proof.
  edestruct (appending_monotone test_host "hello"
               (config_of seven_of_eight)
               (config_of (seven_of_eight ++ [one_more]))
               50 seven_of_eight one_more 1)
    as (st' & s & s' & Hv' & Hs & Hs' & _ & Hf' & _).
  - reflexivity.
  - reflexivity.
  - vm_compute. reflexivity.
  - eexists; vm_compute; reflexivity.
  - reflexivity.
  - vm_compute. reflexivity.
  - right. exists [7; 1]%positive, 1%positive.
    split; [repeat constructor; vm_compute; reflexivity |].
    split; vm_compute; reflexivity.
  - eexists. exists st'. split; [vm_compute; reflexivity |].
    split; [exact Hv' |]. split; [reflexivity |].
    vm_compute in Hv'. injection Hv' as <-. split; reflexivity.
Defined.

End Properties.

(** * What the engine does beyond its specification

    Properties read off [run]: what the results, the counters and the
    messages are, when a run throws, what the threshold does, and how
    the score behaves when the weights are positive integers. *)

Module Behaviour.
Import JS LintAI Samples.

(** Every result is the evaluation of the assertion at the same place
    in the configuration: its name, its defaulted weight, and the
    outcome and message of its checks against the output. *)
Theorem results_mirror :
  forall (H : Host) (output : string) (config : value) (threshold : float)
         (assertions : list value) (st : Vars),
    assertions_of config = Normal assertions ->
    validation output config threshold = Normal st ->
    Forall2
      (fun a r =>
         prop a "name" = Normal (AssertionResult.name r) /\
         weight_of a = Normal (AssertionResult.weight r) /\
         simple_checks output a =
         Normal (AssertionResult.passed r, AssertionResult.message r))
      assertions (results st).
Proof.
  intros H output config threshold assertions st Ha Hv.
  destruct (Loop.validation_fields _ _ _ _ _ Ha Hv) as (rs & s & Hrs & -> & _).
  revert Hrs. apply Forall2_impl. intros a r Hr.
  exact (Loop.evaluate_inv _ _ _ Hr).
Qed.

(** The two results of the weights 7 and 1 against [hello]. *)
Lemma results_mirror_witness :
  exists st : Vars,
    validation (H := test_host) "hello" (config_of seven_of_eight) 50 =
      Normal st /\
    Forall2
      (fun a r =>
         prop a "name" = Normal (AssertionResult.name r) /\
         weight_of a = Normal (AssertionResult.weight r) /\
         simple_checks (H := test_host) "hello" a =
         Normal (AssertionResult.passed r, AssertionResult.message r))
      seven_of_eight (results st).
Proof.
  eexists. split; [vm_compute; reflexivity |].
  apply (results_mirror test_host "hello" (config_of seven_of_eight) 50
           seven_of_eight); [reflexivity | vm_compute; reflexivity].
Defined.

(** The counters of a completed validation: every assertion is counted
    once, as failed or as passed, there are as many results as
    assertions, and no warning is ever counted. *)
Theorem counters :
  forall (H : Host) (output : string) (config : value) (threshold : float)
         (assertions : list value) (st : Vars),
    assertions_of config = Normal assertions ->
    validation output config threshold = Normal st ->
    (failedCount st
     + List.length (filter AssertionResult.passed (results st)) =
     List.length assertions)%nat /\
    List.length (results st) = List.length assertions /\
    warningsCount st = 0%nat.
Proof.
  intros H output config threshold assertions st Ha Hv.
  destruct (Loop.validation_fields _ _ _ _ _ Ha Hv)
    as (rs & s & Hrs & -> & -> & -> & _).
  apply Forall2_length in Hrs. rewrite Loop.failed_passed_length.
  auto.
Qed.

(** Weights 7 (passing) and 1 (failing): one failure, one pass, no
    warning. *)
Lemma counters_witness :
  exists st : Vars,
    validation (H := test_host) "hello" (config_of seven_of_eight) 50 =
      Normal st /\
    failedCount st = 1%nat /\
    List.length (filter AssertionResult.passed (results st)) = 1%nat /\
    warningsCount st = 0%nat.
Proof.
  eexists. split; [vm_compute; reflexivity |].
  destruct (counters test_host "hello" (config_of seven_of_eight) 50
              seven_of_eight _ eq_refl eq_refl) as (Hsum & _ & Hw).
  split; [reflexivity |]. split; [reflexivity | exact Hw].
Defined.

(** In a completed validation a result passed exactly when its message
    is [Passed]. *)
Theorem message_iff_passed :
  forall (H : Host) (output : string) (config : value) (threshold : float)
         (st : Vars),
    validation output config threshold = Normal st ->
    Forall (fun r => AssertionResult.passed r = true <->
                     AssertionResult.message r = "Passed")
           (results st).
Proof.
  intros H output config threshold st Hv.
  destruct (Loop.validation_normal _ _ _ _ Hv)
    as (assertions & rs0 & Ha & _ & _).
  destruct (Loop.validation_fields _ _ _ _ _ Ha Hv) as (rs & s & Hrs & -> & _).
  apply (Loop.Forall2_Forall_r _ _ _ _ (fun a r Hr =>
           Loop.simple_checks_message output a _ _
             (proj2 (proj2 (Loop.evaluate_inv output a r Hr)))) Hrs).
Qed.

(** The messages of the weights 7 and 1 against [hello]. *)
Lemma message_iff_passed_witness :
  exists st : Vars,
    validation (H := test_host) "hello" (config_of seven_of_eight) 50 =
      Normal st /\
    Forall (fun r => AssertionResult.passed r = true <->
                     AssertionResult.message r = "Passed")
           (results st).
Proof.
  eexists. split; [vm_compute; reflexivity |].
  apply (message_iff_passed test_host "hello" (config_of seven_of_eight) 50).
  vm_compute. reflexivity.
Defined.

(** A validation completes exactly when every assertion evaluates and
    its weight converts to a primitive, as lines 65 and 69 add it with
    [+].  Otherwise it throws.  Either an iteration of the loop throws:
    the validation throws what the first such iteration throws, which
    is what the evaluation of its assertion throws or, for an assertion
    that passed, the TypeError of adding its weight at line 65, and
    nothing of the assertions before or after it is reported.  Or every
    iteration completes and line 69 throws a TypeError on the weight of
    an assertion that failed and whose weight does not convert. *)
Theorem fail_fast :
  forall (H : Host) (output : string) (config : value) (threshold : float)
         (assertions : list value),
    assertions_of config = Normal assertions ->
    ((exists st, validation output config threshold = Normal st) <->
     Forall (fun a => exists r, evaluate output a = Normal r /\
                                converts (AssertionResult.weight r))
       assertions) /\
    (forall e : error,
       validation output config threshold = Throw e <->
       (exists (pre : list value) (a : value) (post : list value),
          assertions = (pre ++ a :: post)%list /\
          Forall (iterates output) pre /\
          iteration_error output a e) \/
       (e = TypeError /\
        Forall (iterates output) assertions /\
        Exists (fun a => exists r, evaluate output a = Normal r /\
                                   ~ converts (AssertionResult.weight r))
          assertions)).
Proof.
  intros H output config threshold assertions Ha. split.
  - split.
    + intros (st & Hv). apply (Loop.validation_iff _ _ _ _ _ Ha) in Hv.
      destruct Hv as (rs & Hrs & Hconv & _).
      apply Loop.Forall_Forall2_ex. exists rs. apply Loop.Forall2_with.
      split; [apply Loop.evaluate_all_Forall2; exact Hrs | exact Hconv].
    + intros HF. apply Loop.Forall_Forall2_ex in HF.
      destruct HF as (rs & HF). apply Loop.Forall2_with in HF.
      destruct HF as [Hrs Hconv]. apply Loop.evaluate_all_Forall2 in Hrs.
      eexists. exact (Loop.validation_complete _ _ _ _ _ Ha Hrs Hconv).
  - intros e.
    rewrite (Loop.validation_throw _ _ _ _ _ Ha),
      (Loop.for_of_throw output assertions initial e eq_refl),
      Loop.iterates_all.
    split; (intros [Hl | (He & Hr)]; [left; exact Hl | right]);
      (split; [exact He |]).
    + destruct Hr as (rs & Hrs & Hpass & Hex).
      split; [exists rs; auto |].
      apply (Loop.Exists_evaluated _ _ _ _ Hrs). exact Hex.
    + destruct Hr as ((rs & Hrs & Hpass) & Hex). exists rs.
      split; [exact Hrs |]. split; [exact Hpass |].
      apply (Loop.Exists_evaluated _ _ _ _ Hrs). exact Hex.
Qed.

(** A passing assertion followed by a pattern that is no regular
    expression: the run throws the SyntaxError. *)
Lemma fail_fast_witness :
  validation (H := test_host) "hello" (config_of with_broken_pattern) 50 =
  Throw SyntaxError.
Proof.
  apply (proj2 (fail_fast test_host "hello" (config_of with_broken_pattern) 50
                  with_broken_pattern eq_refl)).
  left. exists [needs_hello], broken_pattern, []. split; [reflexivity |].
  split; [| left; reflexivity].
  constructor; [| constructor]. eexists.
  split; [vm_compute; reflexivity |]. intros _. eexists. reflexivity.
Defined.

(** An assertion that fails and whose weight does not convert: every
    iteration completes and line 69 throws. *)
Example fail_late :
  for_of (H := test_host) "hello" initial [failing_unconvertible] <>
    Throw TypeError /\
  validation (H := test_host) "hello" (config_of [failing_unconvertible]) 50 =
    Throw TypeError.
Proof. split; [discriminate | reflexivity]. Qed.

(** When one iteration of the loop throws, [score] holding a primitive
    as it does throughout the loop of [run].  On an assertion that is
    [null] or [undefined], a TypeError.  On an object: the TypeError of
    a [MAX_LENGTH] limit, of a truthy [CONTAINS_TEXT] text or of a
    truthy [NO_PATTERN] pattern that does not convert to a primitive;
    the SyntaxError of a truthy [NO_PATTERN] pattern that is no regular
    expression; the TypeError of line 65 when the assertion passes and
    its weight does not convert.  On any other value, never. *)
Theorem iteration_throws :
  forall (H : Host) (output : string) (st : Vars) (a : value) (e : error),
    primitive (score st) = true ->
    (loop_body output st a = Throw e <->
     ((a = VUndefined \/ a = VNull) /\ e = TypeError) \/
     (exists fields : list (string * value),
        a = VObj fields /\
        let ty := lookup "type" fields in
        let params := lookup "params" fields in
        (ty = VStr "MAX_LENGTH" /\ e = TypeError /\
         ~ converts (js_or (opt_prop params "max_chars") (VNum 1000))) \/
        (ty = VStr "CONTAINS_TEXT" /\ e = TypeError /\
         truthy (opt_prop params "text") = true /\
         ~ converts (opt_prop params "text")) \/
        (ty = VStr "NO_PATTERN" /\
         truthy (opt_prop params "pattern") = true /\
         ((e = TypeError /\ ~ converts (opt_prop params "pattern")) \/
          (e = SyntaxError /\
           exists source : string,
             ToString (opt_prop params "pattern") = Normal source /\
             RegExp_test_i source output = None))) \/
        (e = TypeError /\ passes output a /\
         ~ converts (js_or (lookup "weight" fields) (VNum 1))))).
Proof.
  intros H output st a e Hprim.
  rewrite (Loop.loop_body_throw _ _ _ _ Hprim). unfold iteration_error.
  assert (Hother :
            evaluate output a =
              Normal {| AssertionResult.name := VUndefined;
                        AssertionResult.passed := true;
                        AssertionResult.message := "Passed";
                        AssertionResult.weight := VNum 1 |} ->
            (evaluate output a = Throw e \/
             (exists r, evaluate output a = Normal r /\
                        AssertionResult.passed r = true /\
                        ToPrimitive (AssertionResult.weight r) = Throw e)) ->
            False).
  { intros Hev [Hthrow | (r & Hr & _ & Hw)]; [congruence |].
    rewrite Hev in Hr. injection Hr as <-. discriminate Hw. }
  destruct a as [| | b | x | s | l | fields].
  - split.
    + intros [Hthrow | (r & Hr & _)]; [| discriminate Hr].
      left. split; [auto |]. cbn in Hthrow. congruence.
    + intros [[_ ->] | (fields & Hobj & _)]; [| discriminate Hobj].
      left. reflexivity.
  - split.
    + intros [Hthrow | (r & Hr & _)]; [| discriminate Hr].
      left. split; [auto |]. cbn in Hthrow. congruence.
    + intros [[_ ->] | (fields & Hobj & _)]; [| discriminate Hobj].
      left. reflexivity.
  - split; [intros Herr; destruct (Hother eq_refl Herr) |].
    intros [[[Ha | Ha] _] | (fields & Hobj & _)]; discriminate.
  - split; [intros Herr; destruct (Hother eq_refl Herr) |].
    intros [[[Ha | Ha] _] | (fields & Hobj & _)]; discriminate.
  - split; [intros Herr; destruct (Hother eq_refl Herr) |].
    intros [[[Ha | Ha] _] | (fields & Hobj & _)]; discriminate.
  - split; [intros Herr; destruct (Hother eq_refl Herr) |].
    intros [[[Ha | Ha] _] | (fields & Hobj & _)]; discriminate.
  - clear Hother.
    pose proof (Loop.simple_checks_throw output fields e) as Hthrow.
    cbv zeta in Hthrow. unfold passes.
    assert (Hev : evaluate output (VObj fields) =
                  let* checked := simple_checks output (VObj fields) in
                  Normal {| AssertionResult.name := lookup "name" fields;
                            AssertionResult.passed := fst checked;
                            AssertionResult.message := snd checked;
                            AssertionResult.weight :=
                              js_or (lookup "weight" fields) (VNum 1) |})
      by reflexivity.
    rewrite Hev. clear Hev.
    destruct (simple_checks output (VObj fields)) as [[p m] | e'] eqn:Hsc;
      cbn [bind fst snd].
    + split.
      * intros [He | (r & Hr & Hp & Hw)]; [discriminate He |].
        injection Hr as <-.
        cbn [AssertionResult.passed AssertionResult.weight] in Hp, Hw.
        subst p. right. exists fields. split; [reflexivity |].
        right. right. right.
        pose proof (Loop.ToPrimitive_TypeError _ _ Hw) as ->.
        split; [reflexivity |]. split; [exists m; reflexivity |].
        apply Loop.not_converts. exact Hw.
      * intros [[[Ha | Ha] _] | (fields' & Hobj & Hcase)];
          try discriminate.
        injection Hobj as <-. cbv zeta in Hcase.
        destruct Hcase as [Hc | [Hc | [Hc | (-> & (m' & Hm) & Hn)]]].
        -- discriminate (proj2 Hthrow (or_introl Hc)).
        -- discriminate (proj2 Hthrow (or_intror (or_introl Hc))).
        -- discriminate (proj2 Hthrow (or_intror (or_intror Hc))).
        -- injection Hm as -> _. right. eexists. split; [reflexivity |].
           cbn [AssertionResult.passed AssertionResult.weight].
           split; [reflexivity |]. apply Loop.not_converts. exact Hn.
    + split.
      * intros [He | (r & Hr & _)]; [| discriminate Hr].
        injection He as ->. right. exists fields. split; [reflexivity |].
        cbv zeta. destruct (proj1 Hthrow eq_refl) as [Hc | [Hc | Hc]]; auto.
      * intros [[[Ha | Ha] _] | (fields' & Hobj & Hcase)];
          try discriminate.
        injection Hobj as <-. cbv zeta in Hcase. left.
        destruct Hcase as [Hc | [Hc | [Hc | (_ & (m' & Hm) & _)]]].
        -- pose proof (proj2 Hthrow (or_introl Hc)) as He.
           injection He as ->. reflexivity.
        -- pose proof (proj2 Hthrow (or_intror (or_introl Hc))) as He.
           injection He as ->. reflexivity.
        -- pose proof (proj2 Hthrow (or_intror (or_intror Hc))) as He.
           injection He as ->. reflexivity.
        -- discriminate Hm.
Qed.

(** An assertion of an unknown type passes; with a weight that does
    not convert its iteration throws the TypeError of line 65. *)
Lemma iteration_throws_witness :
  loop_body (H := test_host) "hello" initial custom_unconvertible =
  Throw TypeError.
Proof.
  apply (proj2 (iteration_throws test_host "hello" initial
                  custom_unconvertible TypeError eq_refl)).
  right. eexists. split; [reflexivity |]. right. right. right.
  split; [reflexivity |]. split; [exists "Passed"; reflexivity |].
  intros (p & Hp). discriminate Hp.
Defined.

(** A run that does not call [setFailed]: the validation completed,
    every configured assertion passed with the message [Passed], and
    the score reached the threshold of line 12. *)
Theorem green_run :
  forall (H : Host) (output : string) (config : value) (p : float),
    setFailed (run output config p) = false ->
    exists (st : Vars) (assertions : list value) (s : float),
      run output config p = Normal st /\
      assertions_of config = Normal assertions /\
      Forall (passes output) assertions /\
      Forall (fun r => AssertionResult.passed r = true /\
                       AssertionResult.message r = "Passed")
             (results st) /\
      failedCount st = 0%nat /\
      score st = VNum s /\ (threshold_of p <=? s)%float = true.
Proof.
  intros H output config p Hgreen.
  destruct (run output config p) as [st | e] eqn:Hrun; [| discriminate].
  cbn [setFailed] in Hgreen. apply negb_false_iff in Hgreen.
  unfold run in Hrun.
  destruct (Loop.validation_normal _ _ _ _ Hrun)
    as (assertions & rs0 & Ha & Hrs0 & _).
  destruct (Loop.validation_fields _ _ _ _ _ Ha Hrun)
    as (rs & s & Hrs & Hres & Hfc & _ & Hs & Hp & _).
  rewrite Hgreen in Hp. symmetry in Hp. apply andb_true_iff in Hp.
  destruct Hp as [Hle Hzero]. apply Nat.eqb_eq in Hzero.
  assert (Hnone : failed rs = []).
  { rewrite Hzero in Hfc. destruct (failed rs); [reflexivity | discriminate]. }
  exists st, assertions, s. split; [reflexivity |]. split; [exact Ha |].
  split.
  { apply (Loop.no_failure_passes output assertions rs); [| exact Hnone].
    apply Loop.evaluate_all_Forall2. exact Hrs. }
  split; [| auto].
  rewrite Hres. exact (Loop.no_failure_results _ _ _ Hrs Hnone).
Qed.

(** The end-to-end example at the threshold 50 calls no [setFailed]. *)
Lemma green_run_witness :
  exists st : Vars,
    run (H := test_host) "hello" end_to_end 50 = Normal st /\
    failedCount st = 0%nat /\ score st = VNum 100.
Proof.
  destruct (green_run test_host "hello" end_to_end 50 eq_refl)
    as (st & assertions & s & Hrun & _).
  exists st. split; [exact Hrun |].
  vm_compute in Hrun. injection Hrun as <-. split; reflexivity.
Defined.

(** Line 12 with an empty configuration: a threshold of 0, or one that
    is not a number, is replaced by 70, so the run passes exactly when
    the parsed threshold is below 0. *)
Theorem empty_run :
  forall (H : Host) (output : string) (config : value) (p : float),
    assertions_of config = Normal [] ->
    exists st : Vars,
      run output config p = Normal st /\
      score st = VNum 0 /\ failedCount st = 0%nat /\
      passed st = (p <? 0)%float.
Proof.
  intros H output config p Ha. unfold run, validation. rewrite Ha.
  cbn [bind for_of reduce].
  rewrite Loop.calculate_calculated by reflexivity.
  eexists. split; [reflexivity |].
  unfold calculated. cbn [initial score failedCount passed].
  change (0 <? number_of (VNum 0))%float with false. cbv iota.
  repeat split.
  rewrite andb_true_r. unfold threshold_of, truthy.
  apply Binary64.negative_threshold.
Qed.

(** An empty configuration at the threshold 0 does not pass. *)
Lemma empty_run_witness :
  exists st : Vars,
    run (H := test_host) "hello" (config_of []) 0 = Normal st /\
    passed st = false.
Proof.
  destruct (empty_run test_host "hello" (config_of []) 0 eq_refl)
    as (st & Hrun & _ & _ & Hp).
  exists st. split; [exact Hrun | exact Hp].
Defined.

(** With positive integer weights whose total is below [2^53], the
    score of a configuration that is not empty is an integer between 0
    and 100 that differs from the exact percentage of the earned weight
    by less than 1; so it is that percentage when it is an integer. *)
Theorem integer_score_accuracy :
  forall (H : Host) (output : string) (config : value) (threshold : float)
         (assertions : list value) (ns : list positive) (st : Vars),
    assertions_of config = Normal assertions ->
    assertions <> [] ->
    Forall2 integer_weight assertions ns ->
    (total_of ns < 2 ^ 53)%Z ->
    validation output config threshold = Normal st ->
    exists s : Z,
      score st = VNum (Z2F s) /\ (0 <= s <= 100)%Z /\
      ((s - 1) * total_of ns < 100 * earned_of (results st) ns
       < (s + 1) * total_of ns)%Z /\
      (forall q : Z,
         (100 * earned_of (results st) ns = q * total_of ns)%Z -> s = q).
Proof.
  intros H output config threshold assertions ns st Ha Hne Hns Hlt Hv.
  destruct (Loop.integer_score _ _ _ _ _ _ Ha Hns Hlt Hv) as [Hs HE].
  assert (Hpos : (0 < total_of ns)%Z).
  { apply Loop.total_of_pos. intros ->. inversion Hns. congruence. }
  destruct (Binary64.percent_accuracy _ _ HE ltac:(lia))
    as (s & Es & Hb & Hnear).
  exists s. rewrite Hs, Es. split; [reflexivity |]. split; [exact Hb |].
  split; [exact Hnear |].
  intros q Hq. rewrite Hq in Hnear. destruct Hnear as [Hlo Hhi].
  apply Z.mul_lt_mono_pos_r in Hlo; [| exact Hpos].
  apply Z.mul_lt_mono_pos_r in Hhi; [| exact Hpos].
  lia.
Qed.

(** Weights 7 (passing) and 1 (failing): a score between 0 and 100. *)
Lemma integer_score_accuracy_witness :
  exists (st : Vars) (s : Z),
    validation (H := test_host) "hello" (config_of seven_of_eight) 50 =
      Normal st /\
    score st = VNum (Z2F s) /\ (0 <= s <= 100)%Z.
Proof.
  edestruct (integer_score_accuracy test_host "hello"
               (config_of seven_of_eight) 50 seven_of_eight [7; 1]%positive)
    as (s & Hs & Hb & _ & _).
  - reflexivity.
  - discriminate.
  - repeat constructor; vm_compute; reflexivity.
  - vm_compute. reflexivity.
  - vm_compute. reflexivity.
  - eexists. exists s. split; [reflexivity |]. split; [exact Hs | exact Hb].
Defined.

(** The order of the assertions changes only the order of the results:
    a reordered configuration completes as well, with the same results
    in the new order and as many failures; with positive integer
    weights whose total is below [2^53], also with the same score and
    the same verdict. *)
Theorem order_independent :
  forall (H : Host) (output : string) (config config' : value)
         (threshold : float) (assertions assertions' : list value)
         (st : Vars),
    assertions_of config = Normal assertions ->
    assertions_of config' = Normal assertions' ->
    Permutation assertions assertions' ->
    validation output config threshold = Normal st ->
    exists st' : Vars,
      validation output config' threshold = Normal st' /\
      Permutation (results st) (results st') /\
      failedCount st' = failedCount st /\
      ((exists ns : list positive,
          Forall2 integer_weight assertions ns /\ (total_of ns < 2 ^ 53)%Z) ->
       score st' = score st /\ passed st' = passed st).
Proof.
  intros H output config config' threshold assertions assertions' st
         Ha Ha' Hperm Hv.
  destruct (Loop.validation_fields _ _ _ _ _ Ha Hv)
    as (rs & s & Hrs & Hres & Hfc & _ & Hs & Hp & _).
  destruct (Permutation_Forall2 Hperm Hrs) as (rs' & Hprs & Hrs').
  pose proof (Loop.validation_converts _ _ _ _ _ _ Ha
                (proj2 (Loop.evaluate_all_Forall2 _ _ _) Hrs) Hv) as Hconv.
  pose proof (Loop.validation_complete _ _ threshold _ _ Ha'
                (proj2 (Loop.evaluate_all_Forall2 _ _ _) Hrs')
                (Permutation_Forall Hprs Hconv)) as Hv'.
  eexists. split; [exact Hv' |].
  destruct (Loop.validation_fields _ _ _ _ _ Ha' Hv')
    as (rs2 & s' & Hrs2 & Hres' & Hfc' & _ & Hs' & Hp' & _).
  assert (rs2 = rs') as ->
    by exact (Loop.evaluate_functional _ _ _ _ Hrs2 Hrs').
  assert (Hcount : failedCount
                     (calculated (fold_left pushed rs' initial)
                        (fold_left
                           (fun s r => added s (AssertionResult.weight r))
                           rs' (VNum 0)) threshold) = failedCount st).
  { rewrite Hfc, Hfc'. unfold failed. symmetry.
    apply Permutation_length, Loop.filter_perm. exact Hprs. }
  split; [rewrite Hres, Hres'; exact Hprs |].
  split; [exact Hcount |].
  intros (ns & Hns & Hlt).
  destruct (Loop.permuted_integers _ _ _ _ _ Hperm Hrs Hns)
    as (rs3 & ns' & Hrs3 & Hns' & HT & HE).
  assert (rs3 = rs') as ->
    by exact (Loop.evaluate_functional _ _ _ _ Hrs3 Hrs').
  destruct (Loop.integer_score _ _ _ _ _ _ Ha Hns Hlt Hv) as [Hsc _].
  destruct (Loop.integer_score _ _ _ _ _ _ Ha' Hns' ltac:(lia) Hv')
    as [Hsc' _].
  rewrite Hres' in Hsc'. rewrite Hres in Hsc.
  rewrite HT, HE, <- Hsc in Hsc'.
  split; [exact Hsc' |].
  rewrite Hp, Hp', Hcount.
  assert (Hss : VNum s' = VNum s) by congruence.
  assert (s' = s) as ->
    by exact (f_equal (fun v => match v with VNum x => x | _ => s end) Hss).
  reflexivity.
Qed.

(** The weights 7 and 1 in the other order: the same score, one
    failure. *)
Lemma order_independent_witness :
  exists st st' : Vars,
    validation (H := test_host) "hello" (config_of seven_of_eight) 50 =
      Normal st /\
    validation (H := test_host) "hello" (config_of (rev seven_of_eight)) 50 =
      Normal st' /\
    score st' = score st /\ failedCount st' = 1%nat.
Proof.
  eexists.
  edestruct (order_independent test_host "hello" (config_of seven_of_eight)
               (config_of (rev seven_of_eight)) 50 seven_of_eight
               (rev seven_of_eight))
    as (st' & Hv' & _ & Hfc & Hint).
  - reflexivity.
  - reflexivity.
  - apply Permutation_rev.
  - vm_compute. reflexivity.
  - exists st'. split; [reflexivity |]. split; [exact Hv' |].
    split; [| exact Hfc].
    apply Hint. exists [7; 1]%positive.
    split; [repeat constructor; vm_compute; reflexivity |].
    vm_compute. reflexivity.
Defined.

(** The threshold decides the verdict and nothing else: under another
    threshold the validation completes with the same score, failures
    and results, and a validation that passed passes under every
    threshold that is not larger. *)
Theorem threshold_monotone :
  forall (H : Host) (output : string) (config : value)
         (threshold threshold' : float) (st : Vars),
    validation output config threshold = Normal st ->
    exists st' : Vars,
      validation output config threshold' = Normal st' /\
      score st' = score st /\ failedCount st' = failedCount st /\
      results st' = results st /\
      ((threshold' <=? threshold)%float = true ->
       passed st = true -> passed st' = true).
Proof.
  intros H output config threshold threshold' st Hv.
  destruct (Loop.validation_normal _ _ _ _ Hv)
    as (assertions & rs0 & Ha & _ & _).
  destruct (Loop.validation_fields _ _ _ _ _ Ha Hv)
    as (rs & s & Hrs & Hres & Hfc & _ & Hs & Hp & Hall).
  eexists. split; [exact (Hall threshold') |].
  cbn [score failedCount results passed].
  split; [auto |]. split; [reflexivity |]. split; [auto |].
  intros Hle Hpass. rewrite Hp in Hpass. apply andb_true_iff in Hpass.
  destruct Hpass as [Hts Hzero]. rewrite Hzero, andb_true_r.
  exact (Binary64.leb_trans _ _ _ Hle Hts).
Qed.

(** The end-to-end example passes at 70, so it passes at 50. *)
Lemma threshold_monotone_witness :
  exists st' : Vars,
    validation (H := test_host) "hello" end_to_end 50 = Normal st' /\
    passed st' = true.
Proof.
  edestruct (threshold_monotone test_host "hello" end_to_end 70 50)
    as (st' & Hv' & _ & _ & _ & Hkeep).
  - vm_compute. reflexivity.
  - exists st'. split; [exact Hv' |].
    apply Hkeep; vm_compute; reflexivity.
Defined.

(** With positive integer weights whose total is below [2^53], no
    validation passes under a threshold above 100. *)
Theorem passing_threshold :
  forall (H : Host) (output : string) (config : value) (threshold : float)
         (assertions : list value) (ns : list positive) (st : Vars),
    assertions_of config = Normal assertions ->
    Forall2 integer_weight assertions ns ->
    (total_of ns < 2 ^ 53)%Z ->
    validation output config threshold = Normal st ->
    passed st = true ->
    (threshold <=? 100)%float = true.
Proof.
  intros H output config threshold assertions ns st Ha Hns Hlt Hv Hpass.
  destruct (Loop.validation_fields _ _ _ _ _ Ha Hv)
    as (rs & s & _ & _ & _ & _ & Hs & Hp & _).
  rewrite Hpass in Hp. symmetry in Hp. apply andb_true_iff in Hp.
  destruct Hp as [Hts _].
  destruct (Loop.integer_score _ _ _ _ _ _ Ha Hns Hlt Hv) as [Hsc HE].
  assert (Hss : VNum s = VNum (percent (earned_of (results st) ns)
                                 (total_of ns))) by congruence.
  apply (f_equal (fun v => match v with VNum x => x | _ => s end)) in Hss.
  rewrite Hss in Hts.
  apply (Binary64.leb_trans _ _ _ Hts).
  destruct (Z.eq_dec (total_of ns) 0) as [Hz | Hnz].
  - rewrite Hz. unfold percent. vm_compute. reflexivity.
  - destruct (Binary64.percent_accuracy _ _ HE ltac:(lia))
      as (n & -> & Hn & _).
    change 100%float with (Z2F 100). apply Binary64.Z2F_le; lia.
Qed.

(** The end-to-end example passes at the threshold 50. *)
Lemma passing_threshold_witness :
  exists st : Vars,
    validation (H := test_host) "hello" end_to_end 50 = Normal st /\
    passed st = true /\ (50 <=? 100)%float = true.
Proof.
  eexists. split; [vm_compute; reflexivity |]. split; [reflexivity |].
  eapply (passing_threshold test_host "hello" end_to_end 50 _
            [1; 1]%positive).
  - reflexivity.
  - repeat constructor; vm_compute; reflexivity.
  - vm_compute. reflexivity.
  - vm_compute. reflexivity.
  - reflexivity.
Defined.

(** A [MAX_LENGTH] assertion that an output passes is passed by every
    output that is not longer. *)
Theorem max_length_shorter :
  forall (H : Host) (output output' : string) (a : value),
    prop a "type" = Normal (VStr "MAX_LENGTH") ->
    passes output a ->
    (String.length output' <= String.length output)%nat ->
    (Z.of_nat (String.length output) < 2 ^ 53)%Z ->
    passes output' a.
Proof.
  intros H output output' a Hty Hpass Hlen Hbound.
  destruct (Loop.max_length_passes output a Hty) as (params & Hpa & Hiff).
  destruct (Loop.max_length_passes output' a Hty) as (params' & Hpa' & Hiff').
  assert (params' = params) as -> by congruence.
  apply Hiff'. apply Hiff in Hpass. unfold num_gt in *.
  destruct (ToNumber (js_or (opt_prop params "max_chars") (VNum 1000)))
    as [y | e]; cbn [bind] in *; [| discriminate Hpass].
  injection Hpass as Hpass. f_equal.
  destruct (y <? length_of output')%float eqn:Hgt; [| reflexivity].
  rewrite <- Hpass. symmetry.
  apply (Binary64.ltb_leb_trans _ _ _ Hgt).
  unfold length_of. apply Binary64.Z2F_le; lia.
Qed.

(** [hello] is within 5 characters, so [hell] is. *)
Lemma max_length_shorter_witness :
  passes (H := test_host) "hell" at_most_5.
Proof.
  apply (max_length_shorter test_host "hello" "hell" at_most_5).
  - reflexivity.
  - eexists. vm_compute. reflexivity.
  - cbn. lia.
  - vm_compute. reflexivity.
Defined.

(** A [CONTAINS_TEXT] assertion that an output passes is passed by
    every output that contains it. *)
Theorem contains_text_extended :
  forall (H : Host) (output u v : string) (a : value),
    prop a "type" = Normal (VStr "CONTAINS_TEXT") ->
    passes output a ->
    passes (u ++ output ++ v) a.
Proof.
  intros H output u v a Hty Hpass.
  destruct (Loop.contains_text_passes output a Hty) as (params & Hpa & Hiff).
  destruct (Loop.contains_text_passes (u ++ output ++ v) a Hty)
    as (params' & Hpa' & Hiff').
  assert (params' = params) as -> by congruence.
  apply Hiff'. apply Hiff in Hpass.
  destruct Hpass as [Hf | (text & Ht & Hin)]; [left; exact Hf | right].
  exists text. split; [exact Ht |].
  apply Loop.includes_spec in Hin. destruct Hin as (x & y & ->).
  apply Loop.includes_spec. exists (u ++ x), (y ++ v).
  rewrite !Loop.append_assoc. reflexivity.
Qed.

(** [hello] contains [hello], so a sentence around it does. *)
Lemma contains_text_extended_witness :
  passes (H := test_host) "oh hello there" needs_hello.
Proof.
  apply (contains_text_extended test_host "hello" "oh " " there" needs_hello).
  - reflexivity.
  - eexists. vm_compute. reflexivity.
Defined.

(** With positive integer weights whose totals are below [2^53], two
    validations that earn the same fraction of their total weight have
    the same score: the score depends on the fraction only. *)
Theorem equal_fractions :
  forall (H : Host) (output output' : string) (config config' : value)
         (threshold threshold' : float) (assertions assertions' : list value)
         (ns ns' : list positive) (st st' : Vars),
    assertions_of config = Normal assertions ->
    assertions_of config' = Normal assertions' ->
    Forall2 integer_weight assertions ns ->
    Forall2 integer_weight assertions' ns' ->
    (0 < total_of ns < 2 ^ 53)%Z -> (0 < total_of ns' < 2 ^ 53)%Z ->
    validation output config threshold = Normal st ->
    validation output' config' threshold' = Normal st' ->
    (earned_of (results st) ns * total_of ns' =
     earned_of (results st') ns' * total_of ns)%Z ->
    score st = score st'.
Proof.
  intros H output output' config config' threshold threshold' assertions
         assertions' ns ns' st st' Ha Ha' Hns Hns' HT HT' Hv Hv' Heq.
  destruct (Loop.integer_score _ _ _ _ _ _ Ha Hns ltac:(lia) Hv) as [Hs HE].
  destruct (Loop.integer_score _ _ _ _ _ _ Ha' Hns' ltac:(lia) Hv')
    as [Hs' HE'].
  rewrite Hs, Hs'. f_equal.
  apply Binary64.percent_ratio; assumption.
Qed.

(** 7 of 8 and 14 of 16 against [hello]: the same score. *)
Lemma equal_fractions_witness :
  exists st st' : Vars,
    validation (H := test_host) "hello" (config_of seven_of_eight) 50 =
      Normal st /\
    validation (H := test_host) "hello" (config_of fourteen_of_sixteen) 70 =
      Normal st' /\
    score st = score st'.
Proof.
  eexists. eexists. split; [vm_compute; reflexivity |].
  split; [vm_compute; reflexivity |].
  apply (equal_fractions test_host "hello" "hello"
           (config_of seven_of_eight) (config_of fourteen_of_sixteen) 50 70
           seven_of_eight fourteen_of_sixteen [7; 1]%positive
           [14; 2]%positive);
    try reflexivity;
    try (repeat constructor; vm_compute; reflexivity);
    vm_compute; split; reflexivity.
Defined.

(** With Numbers for weights, a validation in which no assertion
    passes has the score 0, and one in which every assertion passes has
    the score 100 when the total weight is positive and finite. *)
Theorem score_extremes :
  forall (H : Host) (output : string) (config : value) (threshold : float)
         (assertions : list value) (st : Vars),
    assertions_of config = Normal assertions ->
    Forall numeric_weight assertions ->
    validation output config threshold = Normal st ->
    (filter AssertionResult.passed (results st) = [] ->
     score st = VNum 0) /\
    (failedCount st = 0%nat ->
     (0 <? totalWeight assertions)%float = true ->
     is_finite (totalWeight assertions) = true ->
     score st = VNum 100).
Proof.
  intros H output config threshold assertions st Ha Hn Hv.
  destruct (Loop.validation_normal _ _ _ _ Hv)
    as (assertions0 & rs & Ha0 & Hrs & Hst).
  assert (assertions0 = assertions) as -> by congruence.
  destruct (Loop.evaluate_all_weights output assertions rs Hrs) as [Hw Hnum].
  specialize (Hnum Hn).
  assert (Hres : results st = rs).
  { rewrite Hst. unfold calculated. cbn [results].
    rewrite Loop.results_fold. reflexivity. }
  split.
  - rewrite Hres. intros Hnone. rewrite Hst.
    exact (Loop.nothing_earned rs Hnum Hnone).
  - intros Hfc Hpos Hfin.
    assert (Hnone : failed rs = []).
    { rewrite Hst in Hfc. unfold calculated in Hfc. cbn [failedCount] in Hfc.
      rewrite Loop.failedCount_fold in Hfc. cbn [initial failedCount] in Hfc.
      destruct (failed rs); [reflexivity | discriminate]. }
    pose proof (Loop.no_failure_passes output assertions rs Hrs Hnone) as Hp.
    destruct (Properties.all_pass_validation output config threshold
                assertions Ha Hn Hp) as (st0 & Hv0 & _ & Hs & _).
    assert (st0 = st) as -> by congruence.
    cbn zeta in Hs. rewrite Hpos in Hs. rewrite Hs.
    rewrite (Binary64.div_diag _ (Binary64.finite_pos _ Hfin Hpos)).
    vm_compute. reflexivity.
Qed.

(** Two failing assertions of weights 2.5 and 0.5: the score 0. *)
Lemma score_extremes_witness :
  exists st : Vars,
    validation (H := test_host) "hello" (config_of all_failing) 50 =
      Normal st /\
    score st = VNum 0.
Proof.
  eexists. split; [vm_compute; reflexivity |].
  apply (score_extremes test_host "hello" (config_of all_failing) 50
           all_failing).
  - reflexivity.
  - repeat constructor; eexists; vm_compute; reflexivity.
  - vm_compute. reflexivity.
  - reflexivity.
Defined.

(** With positive integer weights whose total stays below [2^53],
    appending one assertion that fails gives a score that is at most
    the score before, one more failure, and a validation that does not
    pass. *)
Theorem appending_failure :
  forall (H : Host) (output : string) (config config' : value)
         (threshold : float) (assertions : list value) (extra : value)
         (ns : list positive) (k : positive) (msg : string) (st : Vars),
    assertions_of config = Normal assertions ->
    assertions_of config' = Normal (assertions ++ [extra])%list ->
    Forall2 integer_weight assertions ns ->
    integer_weight extra k ->
    (total_of ns + Zpos k < 2 ^ 53)%Z ->
    validation output config threshold = Normal st ->
    simple_checks output extra = Normal (false, msg) ->
    exists (st' : Vars) (s s' : float),
      validation output config' threshold = Normal st' /\
      score st = VNum s /\ score st' = VNum s' /\
      (s' <=? s)%float = true /\
      failedCount st' = S (failedCount st) /\
      passed st' = false.
Proof.
  intros H output config config' threshold assertions extra ns k msg st
         Ha Ha' Hns Hk Hlt Hv Hmsg.
  destruct (Loop.validation_fields _ _ _ _ _ Ha Hv)
    as (rs & s & Hrs & Hres & Hfc & _ & Hs & _ & _).
  destruct (Loop.evaluate_normal output extra _ _ _ Hk Hmsg) as (n & _ & Hre).
  set (re := {| AssertionResult.name := n;
                AssertionResult.passed := false;
                AssertionResult.message := msg;
                AssertionResult.weight := VNum (Z2F (Zpos k)) |}) in Hre.
  assert (Hrs' : Forall2 (fun a r => evaluate output a = Normal r)
                   (assertions ++ [extra])%list (rs ++ [re])%list).
  { apply Forall2_app; [exact Hrs |]. constructor; [exact Hre | constructor]. }
  assert (Hns' : Forall2 integer_weight (assertions ++ [extra])%list
                   (ns ++ [k])%list).
  { apply Forall2_app; [exact Hns |]. constructor; [exact Hk | constructor]. }
  assert (Hconv : Forall (fun r => converts (AssertionResult.weight r))
                    (rs ++ [re])%list).
  { apply Forall_app. split; [| repeat constructor; apply Loop.converts_num].
    exact (Loop.validation_converts _ _ _ _ _ _ Ha
             (proj2 (Loop.evaluate_all_Forall2 _ _ _) Hrs) Hv). }
  pose proof (Loop.validation_complete _ _ threshold _ _ Ha'
                (proj2 (Loop.evaluate_all_Forall2 _ _ _) Hrs') Hconv) as Hv'.
  destruct (Loop.validation_fields _ _ _ _ _ Ha' Hv')
    as (rs2 & s' & Hrs2 & Hres' & Hfc' & _ & Hs' & Hp' & _).
  assert (rs2 = (rs ++ [re])%list) as ->
    by exact (Loop.evaluate_functional _ _ _ _ Hrs2 Hrs').
  pose proof (Loop.total_of_nonneg ns) as Hnn.
  assert (HT' : total_of (ns ++ [k])%list = (total_of ns + Zpos k)%Z).
  { rewrite Loop.total_of_app. cbn. lia. }
  destruct (Loop.integer_score _ _ _ _ _ _ Ha Hns ltac:(lia) Hv) as [Hsc HE].
  destruct (Loop.integer_score _ _ _ _ _ _ Ha' Hns' ltac:(lia) Hv')
    as [Hsc' _].
  rewrite Hres in Hsc, HE. rewrite Hres' in Hsc'.
  rewrite (Loop.earned_of_app rs ns re k) in Hsc'
    by (rewrite <- (Forall2_length Hrs); exact (Forall2_length Hns)).
  cbn [AssertionResult.passed re] in Hsc'. rewrite Z.add_0_r, HT' in Hsc'.
  eexists. exists s, s'. split; [exact Hv' |].
  split; [exact Hs |]. split; [exact Hs' |].
  assert (Hfail : failedCount
                    (calculated (fold_left pushed (rs ++ [re]) initial)
                       (fold_left
                          (fun s r => added s (AssertionResult.weight r))
                          (rs ++ [re]) (VNum 0)) threshold) =
                  S (failedCount st)).
  { rewrite Hfc, Hfc'. unfold failed. rewrite filter_app, length_app.
    cbn. lia. }
  split; [| split; [exact Hfail |]].
  - assert (Hss : VNum s = VNum (percent (earned_of rs ns) (total_of ns)))
      by congruence.
    assert (Hss' : VNum s' =
                   VNum (percent (earned_of rs ns) (total_of ns + Zpos k)))
      by congruence.
    apply (f_equal (fun v => match v with VNum x => x | _ => s end)) in Hss.
    apply (f_equal (fun v => match v with VNum x => x | _ => s end)) in Hss'.
    rewrite Hss, Hss'.
    destruct (Z.eq_dec (total_of ns) 0) as [Hz | Hnz].
    + rewrite Hz in *. assert (earned_of rs ns = 0%Z) as -> by lia.
      unfold percent. cbn [Z.add].
      pose proof (Binary64.Z2F_lt 0 (Zpos k) ltac:(lia) ltac:(lia)) as Hpos.
      rewrite Binary64.Z2F_zero in Hpos. rewrite Hpos.
      rewrite Binary64.percent_zero by lia. reflexivity.
    + apply Binary64.percent_mono; lia.
  - rewrite Hp', Hfail. apply andb_false_r.
Qed.

(** Weights 7 (passing) and 1 (failing), and one more failing
    assertion of weight 2: the score goes from 88 to 70. *)
Lemma appending_failure_witness :
  exists st st' : Vars,
    validation (H := test_host) "hello" (config_of seven_of_eight) 50 =
      Normal st /\
    validation (H := test_host) "hello"
      (config_of (seven_of_eight ++ [one_less])) 50 = Normal st' /\
    score st = VNum 88 /\ score st' = VNum 70 /\ failedCount st' = 2%nat.
Proof.
  edestruct (appending_failure test_host "hello" (config_of seven_of_eight)
               (config_of (seven_of_eight ++ [one_less])) 50 seven_of_eight
               one_less [7; 1]%positive 2%positive)
    as (st' & s & s' & Hv' & _).
  - reflexivity.
  - reflexivity.
  - repeat constructor; vm_compute; reflexivity.
  - vm_compute. reflexivity.
  - vm_compute. reflexivity.
  - vm_compute. reflexivity.
  - vm_compute. reflexivity.
  - eexists. exists st'. split; [reflexivity |]. split; [exact Hv' |].
    split; [reflexivity |].
    vm_compute in Hv'. injection Hv' as <-. split; reflexivity.
Defined.

End Behaviour.
